(** * Rocket League AI coach: ingestion and aggregation pipeline

    A shallow embedding of the three core modules of the repository,

    - [src/data_collection.py]  (class [BallchasingAPI]),
    - [src/database.py]         (class [RocketLeagueDB]),
    - [src/analytics.py]        (class [PlayerAnalytics]),

    of [generate_quick_tips] of [src/ai_coach.py] and of the loading block
    of [app.py], followed by the properties of the specification that
    concern them and by further properties of the code.

    Conventions of the embedding.
    - A Python [int] is a [Z]; a Python [str] is a [string]; [None], SQL
      [NULL] and an absent dictionary key are [None] of an [option].
    - A Python [float] (a pandas [float64] cell, an SQLite [REAL]) is a value
      of a type [F] that carries the interface [Float64Ops]; the instance
      [binary64] implements it with the IEEE 754 binary64 numbers of the
      kernel, which are the numbers CPython and numpy compute with.
    - The SQLite file is a record of two tables, each a list of rows in
      insertion order, with the two AUTOINCREMENT counters of
      [sqlite_sequence]; [datetime.now()] is an argument of the operation
      that reads the clock.
    - A [pandas.DataFrame] is the list of its rows; a result dictionary is a
      record with one field per key, and the empty dictionary [{}] is [None].
      [sort_values] is a sort of which only the outcome's order by date is
      known, not where rows of one date end up ([SortValues]).
    - A call that can raise has a [result]: the value it returns or the
      exception it raises.  A writing operation of the store gives the store
      as the call leaves it together with that result. *)

From Stdlib Require Import ZArith List String Ascii Bool Lia.
From Stdlib Require Import Permutation Sorted.
From Stdlib Require Import Floats.
Import ListNotations.

Local Open Scope string_scope.
Local Open Scope Z_scope.

(** ** Python and pandas primitives *)

(** [d.get(key, default)] on a key whose presence is the [option]. *)
Definition dict_get {A : Type} (entry : option A) (default : A) : A :=
  match entry with
  | Some v => v
  | None => default
  end.

(** The exceptions that the modelled code can raise. *)
Inductive exception : Type :=
| OverflowError
| TypeError
| ZeroDivisionError.

(** How a call ends: it returns a value, or it raises. *)
Inductive result (A : Type) : Type :=
| Returns (value : A)
| Raises (error : exception).

Arguments Returns {A} value.
Arguments Raises {A} error.

(** [str.lower()] on one character.  Only the ASCII letters are mapped: a
    [string] is a sequence of bytes, and the bytes of a code point beyond
    ASCII are left as they are. *)
Definition lower_ascii (c : ascii) : ascii :=
  let n := nat_of_ascii c in
  if (Nat.leb 65 n && Nat.leb n 90)%bool then ascii_of_nat (n + 32) else c.

(** [str.lower()], for the names that consist of ASCII characters: the
    letters beyond ASCII, which Python lowers too, are bytes that stay. *)
Fixpoint lower (s : string) : string :=
  match s with
  | EmptyString => EmptyString
  | String c rest => String (lower_ascii c) (lower rest)
  end.

(** [len(x)] as a Python [int]. *)
Definition len {A : Type} (l : list A) : Z := Z.of_nat (List.length l).

(** [builtins.sum] / [Series.sum()] of an integer column. *)
Definition sum_int (l : list Z) : Z := fold_right Z.add 0 l.

(** [Series.max()] of a non-empty integer column ([0] on an empty one, where
    pandas has NaN; no caller reaches it with an empty column). *)
Definition max_int (l : list Z) : Z :=
  match l with
  | [] => 0
  | x :: rest => fold_left Z.max rest x
  end.

(** The positional slice [seq[lo:hi]] with both bounds already resolved to
    [0 <= lo], [0 <= hi]. *)
Definition slice {A : Type} (lo hi : nat) (l : list A) : list A :=
  firstn (hi - lo) (skipn lo l).

(** How Python resolves a slice bound [i] against a sequence of [n] items: a
    negative bound counts from the end, and the result is clamped to
    [0 .. n]. *)
Definition slice_bound (n : nat) (i : Z) : nat :=
  if i <? 0 then Z.to_nat (Z.max 0 (Z.of_nat n + i))
  else Nat.min n (Z.to_nat i).

(** [DataFrame.head(n)], which pandas defines as [self.iloc[:n]]. *)
Definition head {A : Type} (n : Z) (df : list A) : list A :=
  slice 0 (slice_bound (List.length df) n) df.

(** [DataFrame.tail(n)], which pandas defines as [self.iloc[0:0]] when
    [n == 0] and [self.iloc[-n:]] otherwise. *)
Definition tail {A : Type} (n : Z) (df : list A) : list A :=
  if n =? 0 then []
  else slice (slice_bound (List.length df) (- n)) (List.length df) df.

(** ** Float arithmetic

    The operations of [float64] that the pipeline uses.  [flt x y] is
    [x < y] ([x > y] is [flt y x]) and [feq x y] is [x == y];
    [of_decimal m e] is the literal [m / 10^e], so that [of_decimal 15 1] is
    [1.5]; [fsum] is the summation of a float column, whose order of
    additions numpy chooses.  The laws are those of the comparisons of
    IEEE 754, NaN included: [<] is asymmetric, numbers that compare equal
    compare alike with any third, and the literals that the source compares
    against are ordered as their values are. *)
Class Float64Ops (F : Type) : Type := {
  of_int : Z -> F;
  of_decimal : Z -> nat -> F;
  fsub : F -> F -> F;
  fmul : F -> F -> F;
  fdiv : F -> F -> F;
  fsum : list F -> F;
  flt : F -> F -> bool;
  feq : F -> F -> bool;
  flt_asym : forall x y, flt x y = true -> flt y x = false;
  feq_flt_l : forall x y z, feq x y = true -> flt x z = flt y z;
  feq_flt_r : forall x y z, feq x y = true -> flt z x = flt z y;
  literals_ordered :
    flt (of_decimal 8 1) (of_decimal 15 1) = true
    /\ flt (of_decimal 6 1) (of_decimal 12 1) = true
    /\ flt (of_int 25) (of_int 40) = true
}.

(** [Series.mean()] of an integer column: the sum, computed in [float64]
    (exact below [2^53]), divided by the count. *)
Definition mean_int {F : Type} `{Float64Ops F} (l : list Z) : F :=
  fdiv (of_int (sum_int l)) (of_int (len l)).

(** [Series.mean()] of a float column.  pandas skips the NaN cells
    ([skipna=True]), which are the cells that do not equal themselves: the
    mean is the sum of the other cells divided by their number. *)
Definition mean_float {F : Type} `{Float64Ops F} (l : list F) : F :=
  let cells := filter (fun x => feq x x) l in
  fdiv (fsum cells) (of_int (len cells)).

(** ** [src/data_collection.py] *)

Module BallchasingAPI.

Set Implicit Arguments.

(** The detail payload of a replay, as the JSON of the external API: every
    key may be absent. *)
Record Core (F : Type) : Type := {
  co_goals : option Z;
  co_assists : option Z;
  co_saves : option Z;
  co_shots : option Z;
  co_score : option Z;
  co_shooting_percentage : option F
}.

Record Boost (F : Type) : Type := {
  bo_bcpm : option F;
  bo_stolen : option Z;
  bo_used_while_supersonic : option Z
}.

Record Movement (F : Type) : Type := {
  mv_avg_speed : option F;
  mv_time_supersonic_speed : option F
}.

Record Positioning (F : Type) : Type := {
  po_time_defensive_third : option F;
  po_time_neutral_third : option F;
  po_time_offensive_third : option F
}.

Record Stats (F : Type) : Type := {
  st_core : option (Core F);
  st_boost : option (Boost F);
  st_movement : option (Movement F);
  st_positioning : option (Positioning F)
}.

Record Player (F : Type) : Type := {
  pl_name : option string;
  pl_stats : option (Stats F)
}.

Record TeamCore : Type := { tc_goals : option Z }.

Record TeamStats : Type := { ts_core : option TeamCore }.

Record Team (F : Type) : Type := {
  tm_players : option (list (Player F));
  tm_stats : option TeamStats
}.

Record Replay (F : Type) : Type := {
  rp_id : option string;
  rp_date : option string;
  rp_duration : option Z;
  rp_playlist_name : option string;
  rp_blue : option (Team F);
  rp_orange : option (Team F)
}.

(** One entry of the list that the search endpoint returns. *)
Record ReplaySummary : Type := { rs_id : option string }.

(** The dictionary that [get_player_stats_from_replay] returns. *)
Record MatchStats (F : Type) : Type := {
  replay_id : option string;
  date : option string;
  duration : option Z;
  playlist : option string;
  player_name : option string;
  team : string;
  won : bool;
  goals : Z;
  assists : Z;
  saves : Z;
  shots : Z;
  score : Z;
  shooting_percentage : F;
  boost_collected : F;
  boost_stolen : Z;
  boost_used : Z;
  avg_speed : F;
  time_supersonic : F;
  time_defensive_third : F;
  time_neutral_third : F;
  time_offensive_third : F
}.

Unset Implicit Arguments.

Section Extraction.

Context {F : Type} `{Float64Ops F}.

(** The empty dictionaries [{}] that the [.get] calls default to. *)
Definition empty_core : Core F := Build_Core None None None None None None.
Definition empty_boost : Boost F := Build_Boost None None None.
Definition empty_movement : Movement F := Build_Movement None None.
Definition empty_positioning : Positioning F := Build_Positioning None None None.
Definition empty_stats : Stats F := Build_Stats None None None None.
Definition empty_team_core : TeamCore := Build_TeamCore None.
Definition empty_team_stats : TeamStats := Build_TeamStats None.
Definition empty_team : Team F := Build_Team None None.

(** [replay_data.get(team_color, {})]. *)
Definition get_team (replay_data : Replay F) (team_color : string) : Team F :=
  if (team_color =? "blue")%string then dict_get (rp_blue replay_data) empty_team
  else if (team_color =? "orange")%string then dict_get (rp_orange replay_data) empty_team
  else empty_team.

(** [replay_data.get(c, {}).get("stats", {}).get("core", {}).get("goals", 0)]. *)
Definition team_goals (replay_data : Replay F) (team_color : string) : Z :=
  dict_get
    (tc_goals
       (dict_get (ts_core (dict_get (tm_stats (get_team replay_data team_color))
                                    empty_team_stats))
                 empty_team_core))
    0.

(** The test of line 98:
    [player.get("name", "").lower() == player_name.lower()]. *)
Definition name_matches (player : Player F) (player_name : string) : bool :=
  (lower (dict_get (pl_name player) "") =? lower player_name)%string.

(** The body of the [if]: the flattened record of [player], found on the
    roster of [team_color]. *)
Definition extract (replay_data : Replay F) (team_color : string)
    (player : Player F) : MatchStats F :=
  let stats := dict_get (pl_stats player) empty_stats in
  let core := dict_get (st_core stats) empty_core in
  let boost := dict_get (st_boost stats) empty_boost in
  let movement := dict_get (st_movement stats) empty_movement in
  let positioning := dict_get (st_positioning stats) empty_positioning in
  let blue_goals := team_goals replay_data "blue" in
  let orange_goals := team_goals replay_data "orange" in
  let won :=
    if (team_color =? "blue")%string then blue_goals >? orange_goals
    else orange_goals >? blue_goals in
  {| replay_id := rp_id replay_data;
     date := rp_date replay_data;
     duration := rp_duration replay_data;
     playlist := rp_playlist_name replay_data;
     player_name := pl_name player;
     team := team_color;
     won := won;
     goals := dict_get (co_goals core) 0;
     assists := dict_get (co_assists core) 0;
     saves := dict_get (co_saves core) 0;
     shots := dict_get (co_shots core) 0;
     score := dict_get (co_score core) 0;
     shooting_percentage := dict_get (co_shooting_percentage core) (of_int 0);
     boost_collected := dict_get (bo_bcpm boost) (of_int 0);
     boost_stolen := dict_get (bo_stolen boost) 0;
     boost_used := dict_get (bo_used_while_supersonic boost) 0;
     avg_speed := dict_get (mv_avg_speed movement) (of_int 0);
     time_supersonic := dict_get (mv_time_supersonic_speed movement) (of_int 0);
     time_defensive_third :=
       dict_get (po_time_defensive_third positioning) (of_int 0);
     time_neutral_third :=
       dict_get (po_time_neutral_third positioning) (of_int 0);
     time_offensive_third :=
       dict_get (po_time_offensive_third positioning) (of_int 0) |}.

(** The inner loop [for player in players], which returns at the first
    match. *)
Fixpoint scan_players (replay_data : Replay F) (team_color : string)
    (players : list (Player F)) (player_name : string)
    : option (MatchStats F) :=
  match players with
  | [] => None
  | player :: rest =>
      if name_matches player player_name
      then Some (extract replay_data team_color player)
      else scan_players replay_data team_color rest player_name
  end.

(** [replay_data.get(team_color, {}).get("players", [])]: the roster. *)
Definition players_of (replay_data : Replay F) (team_color : string)
    : list (Player F) :=
  dict_get (tm_players (get_team replay_data team_color)) [].

(** The outer loop [for team_color in ...]. *)
Fixpoint scan_teams (replay_data : Replay F) (team_colors : list string)
    (player_name : string) : option (MatchStats F) :=
  match team_colors with
  | [] => None
  | team_color :: rest =>
      let players := players_of replay_data team_color in
      match scan_players replay_data team_color players player_name with
      | Some stats => Some stats
      | None => scan_teams replay_data rest player_name
      end
  end.

(** [BallchasingAPI.get_player_stats_from_replay]. *)
Definition get_player_stats_from_replay (replay_data : Replay F)
    (player_name : string) : option (MatchStats F) :=
  scan_teams replay_data ["blue"; "orange"] player_name.

(** The external service, as far as the client can observe it: the answer
    to a search request and the answer to a detail request, [None] when
    [requests] raises a [RequestException] (connection error, timeout or a
    status that [raise_for_status] rejects). *)
Record SearchResponse : Type := {
  sr_list : option (list ReplaySummary)
}.

Record Service : Type := {
  sv_search : string -> Z -> option SearchResponse;
  sv_replay : option string -> option (Replay F)
}.

(** [BallchasingAPI.search_replays]: the request carries the player name
    and [min(count, 200)]; a failed request gives the empty list. *)
Definition search_replays (api : Service) (player_name : string) (count : Z)
    : list ReplaySummary :=
  match sv_search api player_name (Z.min count 200) with
  | Some data => dict_get (sr_list data) []
  | None => []
  end.

(** [BallchasingAPI.get_replay_details]: [None] on a failed request. *)
Definition get_replay_details (api : Service) (replay_id : option string)
    : option (Replay F) :=
  sv_replay api replay_id.

(** The search for the exact name in [get_player_match_history]: the inner
    loop with its [break] finds whether one entry of the roster matches, the
    outer loop stops at the first side that has one. *)
Fixpoint player_found (detailed_replay : Replay F) (team_colors : list string)
    (player_name : string) : bool :=
  match team_colors with
  | [] => false
  | team_color :: rest =>
      if existsb (fun player => name_matches player player_name)
                 (players_of detailed_replay team_color)
      then true
      else player_found detailed_replay rest player_name
  end.

(** What befalls one replay of the search result. *)
Inductive replay_outcome : Type :=
| DetailFailed
| PlayerNotInReplay
| Extracted (player_stats : MatchStats F)
| ExtractionFoundNothing.

(** The body of the loop over the replays found.  An empty dictionary is as
    false as [None] for [if not detailed_replay]; it has no roster, and in
    the model it is skipped by the test that follows.  The pause between two
    requests is not modelled. *)
Definition process_replay (api : Service) (replay : ReplaySummary)
    (player_name : string) : replay_outcome :=
  let replay_id := rs_id replay in
  match get_replay_details api replay_id with
  | None => DetailFailed
  | Some detailed_replay =>
      if negb (player_found detailed_replay ["blue"; "orange"] player_name)
      then PlayerNotInReplay
      else
        match get_player_stats_from_replay detailed_replay player_name with
        | Some player_stats => Extracted player_stats
        | None => ExtractionFoundNothing
        end
  end.

(** The loop [for i, replay in enumerate(replays, 1)], which appends the
    record of a replay to [match_history] when one was extracted. *)
Fixpoint collect (api : Service) (replays : list ReplaySummary)
    (player_name : string) (match_history : list (MatchStats F))
    : list (MatchStats F) :=
  match replays with
  | [] => match_history
  | replay :: rest =>
      match process_replay api replay player_name with
      | Extracted player_stats =>
          collect api rest player_name (match_history ++ [player_stats])
      | _ => collect api rest player_name match_history
      end
  end.

(** [BallchasingAPI.get_player_match_history]. *)
Definition get_player_match_history (api : Service) (player_name : string)
    (num_games : Z) : list (MatchStats F) :=
  let replays := search_replays api player_name num_games in
  match replays with
  | [] => []
  | _ :: _ => collect api replays player_name []
  end.

End Extraction.

End BallchasingAPI.

(** ** [src/database.py] *)

(** A stable insertion sort under a total preorder [leb].  It is the
    [ORDER BY] of the model: SQLite leaves the order of rows with equal keys
    open, and the model lets them keep the order of the table.  It is also
    one way of sorting a frame, among all those that [sort_values] may
    take. *)
Fixpoint insert_by {A : Type} (leb : A -> A -> bool) (x : A) (l : list A)
    : list A :=
  match l with
  | [] => [x]
  | y :: rest => if leb x y then x :: y :: rest else y :: insert_by leb x rest
  end.

Definition sort_by {A : Type} (leb : A -> A -> bool) (l : list A) : list A :=
  fold_right (insert_by leb) [] l.

Module RocketLeagueDB.

Set Implicit Arguments.

(** Table [players]. *)
Module players.
Record row : Type := {
  player_id : Z;
  player_name : string;
  last_updated : Z;
  total_games : Z
}.
End players.

(** Table [match_history].  SQLite has no boolean storage class: the Python
    [bool] bound to [won] is stored as the INTEGER 1 or 0. *)
Module match_history.
Record row (F : Type) : Type := {
  match_id : Z;
  player_id : Z;
  replay_id : option string;
  date : option string;
  duration : option Z;
  playlist : option string;
  team : string;
  won : Z;
  goals : Z;
  assists : Z;
  saves : Z;
  shots : Z;
  score : Z;
  shooting_percentage : F;
  boost_collected : F;
  boost_stolen : Z;
  boost_used : Z;
  avg_speed : F;
  time_supersonic : F;
  time_defensive_third : F;
  time_neutral_third : F;
  time_offensive_third : F
}.
End match_history.

(** The database file: the two tables and their AUTOINCREMENT counters. *)
Record DB (F : Type) : Type := {
  tbl_players : list players.row;
  tbl_match_history : list (match_history.row F);
  seq_players : Z;
  seq_match_history : Z
}.

Unset Implicit Arguments.

Section Store.

Context {F : Type}.

(** [create_tables] on a fresh file. *)
Definition create_tables : DB F :=
  {| tbl_players := []; tbl_match_history := [];
     seq_players := 0; seq_match_history := 0 |}.

(** The constraint [player_name TEXT UNIQUE NOT NULL]: does a row hold this
    name already? *)
Definition player_name_taken (db : DB F) (name : string) : bool :=
  existsb (fun p => (players.player_name p =? name)%string) (tbl_players db).

(** [INSERT OR IGNORE INTO players (player_name, last_updated) VALUES (?, ?)].
    The counter advances whether or not the row is kept. *)
Definition insert_or_ignore_player (db : DB F) (name : string) (now : Z)
    : DB F :=
  let new_id := seq_players db + 1 in
  {| tbl_players :=
       if player_name_taken db name then tbl_players db
       else tbl_players db ++
            [ {| players.player_id := new_id;
                 players.player_name := name;
                 players.last_updated := now;
                 players.total_games := 0 |} ];
     tbl_match_history := tbl_match_history db;
     seq_players := new_id;
     seq_match_history := seq_match_history db |}.

(** [SELECT player_id FROM players WHERE player_name = ?] and [fetchone()];
    [None] when no row matches, where [fetchone()[0]] raises. *)
Definition select_player_id (db : DB F) (name : string) : option Z :=
  option_map players.player_id
    (find (fun p => (players.player_name p =? name)%string) (tbl_players db)).

(** [RocketLeagueDB.add_player]: the database afterwards and the
    [player_id] returned; [None] if [fetchone()[0]] raises, which leaves the
    database as it was.  The two parameters it binds are a [str] and a
    [datetime]. *)
Definition add_player (db : DB F) (player_name : string) (now : Z)
    : option (DB F * Z) :=
  let db1 := insert_or_ignore_player db player_name now in
  match select_player_id db1 player_name with
  | Some player_id => Some (db1, player_id)
  | None => None
  end.

(** The constraint [replay_id TEXT UNIQUE]: does a row of the table, of
    whichever player, hold this [replay_id] already?  A NULL conflicts with
    nothing, as in every UNIQUE index of SQLite. *)
Definition replay_id_taken (db : DB F) (rid : option string) : bool :=
  match rid with
  | None => false
  | Some r =>
      existsb
        (fun m => match match_history.replay_id m with
                  | Some r' => (r' =? r)%string
                  | None => false
                  end)
        (tbl_match_history db)
  end.

(** The row that the 21 bound parameters make. *)
Definition new_row (match_id player_id : Z) (m : BallchasingAPI.MatchStats F)
    : match_history.row F :=
  {| match_history.match_id := match_id;
     match_history.player_id := player_id;
     match_history.replay_id := BallchasingAPI.replay_id m;
     match_history.date := BallchasingAPI.date m;
     match_history.duration := BallchasingAPI.duration m;
     match_history.playlist := BallchasingAPI.playlist m;
     match_history.team := BallchasingAPI.team m;
     match_history.won := Z.b2z (BallchasingAPI.won m);
     match_history.goals := BallchasingAPI.goals m;
     match_history.assists := BallchasingAPI.assists m;
     match_history.saves := BallchasingAPI.saves m;
     match_history.shots := BallchasingAPI.shots m;
     match_history.score := BallchasingAPI.score m;
     match_history.shooting_percentage := BallchasingAPI.shooting_percentage m;
     match_history.boost_collected := BallchasingAPI.boost_collected m;
     match_history.boost_stolen := BallchasingAPI.boost_stolen m;
     match_history.boost_used := BallchasingAPI.boost_used m;
     match_history.avg_speed := BallchasingAPI.avg_speed m;
     match_history.time_supersonic := BallchasingAPI.time_supersonic m;
     match_history.time_defensive_third :=
       BallchasingAPI.time_defensive_third m;
     match_history.time_neutral_third := BallchasingAPI.time_neutral_third m;
     match_history.time_offensive_third :=
       BallchasingAPI.time_offensive_third m |}.

(** [INSERT OR IGNORE INTO match_history (...) VALUES (...)]: a conflict on
    [replay_id] drops the row and raises nothing. *)
Definition insert_or_ignore_match (db : DB F) (player_id : Z)
    (m : BallchasingAPI.MatchStats F) : DB F :=
  let new_id := seq_match_history db + 1 in
  {| tbl_players := tbl_players db;
     tbl_match_history :=
       if replay_id_taken db (BallchasingAPI.replay_id m)
       then tbl_match_history db
       else tbl_match_history db ++ [new_row new_id player_id m];
     seq_players := seq_players db;
     seq_match_history := new_id |}.

(** The integers that SQLite stores are those of 64 bits.  The [sqlite3]
    module converts a Python [int] that it binds to such an INTEGER, and
    raises [OverflowError] ("Python int too large to convert to SQLite
    INTEGER") when it does not fit. *)
Definition is_int64 (z : Z) : bool := (- 2 ^ 63 <=? z) && (z <? 2 ^ 63).

(** Whether the parameters that a record gives the INSERT can be bound:
    each [int] among them has to fit; a [bool], a [float], a [str] and
    [None] are bound whatever they are. *)
Definition binds (m : BallchasingAPI.MatchStats F) : bool :=
  match BallchasingAPI.duration m with
  | Some duration => is_int64 duration
  | None => true
  end
  && is_int64 (BallchasingAPI.goals m)
  && is_int64 (BallchasingAPI.assists m)
  && is_int64 (BallchasingAPI.saves m)
  && is_int64 (BallchasingAPI.shots m)
  && is_int64 (BallchasingAPI.score m)
  && is_int64 (BallchasingAPI.boost_stolen m)
  && is_int64 (BallchasingAPI.boost_used m).

(** The loop [for match in match_data] with its counter.  The statement
    does not raise [sqlite3.IntegrityError], so [games_added += 1] runs at
    every iteration that binds its record; the [OverflowError] of a record
    that does not bind is not caught by the [except] clause and ends the
    loop. *)
Fixpoint insert_matches (db : DB F) (player_id : Z)
    (match_data : list (BallchasingAPI.MatchStats F)) (games_added : Z)
    : result (DB F * Z) :=
  match match_data with
  | [] => Returns (db, games_added)
  | m :: rest =>
      if binds m
      then insert_matches (insert_or_ignore_match db player_id m) player_id
                          rest (games_added + 1)
      else Raises OverflowError
  end.

(** [SELECT COUNT( * ) FROM match_history WHERE player_id = ?]. *)
Definition count_matches (db : DB F) (player_id : Z) : Z :=
  len (filter (fun m => match_history.player_id m =? player_id)
              (tbl_match_history db)).

(** [UPDATE players SET last_updated = ?, total_games = (SELECT COUNT ...)
    WHERE player_id = ?]. *)
Definition update_player (db : DB F) (player_id : Z) (now : Z) : DB F :=
  {| tbl_players :=
       map (fun p =>
              if players.player_id p =? player_id
              then {| players.player_id := players.player_id p;
                      players.player_name := players.player_name p;
                      players.last_updated := now;
                      players.total_games := count_matches db player_id |}
              else p)
           (tbl_players db);
     tbl_match_history := tbl_match_history db;
     seq_players := seq_players db;
     seq_match_history := seq_match_history db |}.

(** [RocketLeagueDB.add_match_history]: the database as the call leaves it,
    and either the [games_added] that the last line prints or the exception
    raised.  [now_add] and [now_upd] are the two readings of the clock.
    [add_player] works on a connection of its own and commits there, so the
    row of the player stays when the loop raises; what the loop had inserted
    by then was never committed and is lost with the connection, the advance
    of the AUTOINCREMENT counter of [match_history] included.  An exception
    in [add_player] itself comes before its commit. *)
Definition add_match_history (db : DB F) (player_name : string)
    (match_data : list (BallchasingAPI.MatchStats F)) (now_add now_upd : Z)
    : DB F * result Z :=
  match add_player db player_name now_add with
  | None => (db, Raises TypeError)
  | Some (db1, player_id) =>
      match insert_matches db1 player_id match_data 0 with
      | Returns (db2, games_added) =>
          (update_player db2 player_id now_upd, Returns games_added)
      | Raises error => (db1, Raises error)
      end
  end.

(** SQLite orders NULL below every string, so last under [DESC]. *)
Definition date_desc (a b : match_history.row F) : bool :=
  match match_history.date a, match_history.date b with
  | _, None => true
  | None, Some _ => false
  | Some x, Some y => String.leb y x
  end.

(** [RocketLeagueDB.get_player_stats]: the join of the two tables on
    [player_id], restricted to the name, most recent first. *)
Definition get_player_stats (db : DB F) (player_name : string)
    : list (match_history.row F) :=
  sort_by date_desc
    (flat_map
       (fun m =>
          map (fun _ => m)
              (filter (fun p =>
                         (match_history.player_id m =? players.player_id p)
                         && (players.player_name p =? player_name)%string)
                      (tbl_players db)))
       (tbl_match_history db)).

(** [RocketLeagueDB.player_exists]. *)
Definition player_exists (db : DB F) (player_name : string) : bool :=
  0 <? len (filter (fun p => (players.player_name p =? player_name)%string)
                   (tbl_players db)).

(** The [total_games] stored for a player, if the player has a row. *)
Definition stored_total_games (db : DB F) (player_name : string) : option Z :=
  option_map players.total_games
    (find (fun p => (players.player_name p =? player_name)%string)
          (tbl_players db)).

End Store.

End RocketLeagueDB.

(** ** [src/analytics.py] *)

Module PlayerAnalytics.

Import RocketLeagueDB.

Set Implicit Arguments.

(** The data frame that [get_player_stats] hands over: the rows of
    [match_history], whose [won] column pandas reads as [int64]. *)
Definition DataFrame (F : Type) : Type := list (match_history.row F).

(** The dictionary of [get_summary_stats]. *)
Module SummaryStats.
Record t (F : Type) : Type := {
  total_games : Z;
  wins : Z;
  losses : Z;
  win_rate : F;
  avg_goals : F;
  avg_assists : F;
  avg_saves : F;
  avg_shots : F;
  avg_score : F;
  avg_shooting_pct : F;
  best_goals : Z;
  best_assists : Z;
  best_saves : Z;
  best_score : Z
}.
End SummaryStats.

(** One value of the dictionary of [get_stats_by_playlist]. *)
Module PlaylistStats.
Record t (F : Type) : Type := {
  games : Z;
  win_rate : F;
  avg_goals : F;
  avg_assists : F;
  avg_saves : F;
  avg_score : F
}.
End PlaylistStats.

(** One row of the frame of [get_performance_trend]. *)
Module Trend.
Record t (F : Type) : Type := {
  game : match_history.row F;
  rolling_goals : F;
  rolling_assists : F;
  rolling_saves : F;
  rolling_score : F
}.
End Trend.

(** The dictionary of [get_recent_form]. *)
Module RecentForm.
Record t (F : Type) : Type := {
  games : Z;
  wins : Z;
  win_rate : F;
  avg_goals : F;
  avg_assists : F;
  avg_saves : F;
  avg_score : F
}.
End RecentForm.

(** The dictionary of the local function [calc_stats]. *)
Module WindowStats.
Record t (F : Type) : Type := {
  win_rate : F;
  avg_goals : F;
  avg_assists : F;
  avg_saves : F;
  avg_score : F
}.
End WindowStats.

(** The dictionary [improvements]. *)
Module Improvement.
Record t (F : Type) : Type := {
  win_rate_change : F;
  goals_change : F;
  assists_change : F;
  saves_change : F;
  score_change : F
}.
End Improvement.

(** The dictionary of [compare_performance]. *)
Module Comparison.
Record t (F : Type) : Type := {
  early : WindowStats.t F;
  recent : WindowStats.t F;
  improvement : Improvement.t F
}.
End Comparison.

(** The dictionary [percentiles]. *)
Module Metrics.
Record t (F : Type) : Type := {
  goals : F;
  assists : F;
  saves : F;
  shooting_pct : F
}.
End Metrics.

(** The dictionary of [get_strengths_and_weaknesses]. *)
Module Profile.
Record t (F : Type) : Type := {
  strengths : list string;
  weaknesses : list string;
  metrics : Metrics.t F
}.
End Profile.

Unset Implicit Arguments.

(** The order of [sort_values("date")]: ascending, the rows without a date
    last ([na_position="last"]). *)
Definition date_asc {F : Type} (a b : match_history.row F) : bool :=
  match match_history.date a, match_history.date b with
  | _, None => true
  | None, Some _ => false
  | Some x, Some y => String.leb x y
  end.

(** [df.sort_values("date")].  pandas sorts with numpy's quicksort unless
    told otherwise, which is not stable: where rows that share a date end up
    among themselves is not fixed by either library.  The sort is therefore
    an operation of which the model knows what pandas promises, that it
    rearranges the rows of the frame and that every row of the outcome is
    followed only by rows that [date_asc] puts no earlier. *)
Class SortValues (F : Type) : Type := {
  sort_values_date : DataFrame F -> DataFrame F;
  sort_values_date_perm :
    forall df, Permutation (sort_values_date df) df;
  sort_values_date_sorted :
    forall df,
      StronglySorted (fun a b => date_asc a b = true) (sort_values_date df)
}.

(** The dtype of the integer columns of a frame that [read_sql_query]
    built: [int64] when the query gave rows, and [object] when it gave
    none, since there is no cell to infer a dtype from.  [head] and [tail]
    keep the dtype of the frame they slice. *)
Inductive dtype : Type :=
| int64
| object.

Section Analytics.

Context {F : Type} `{Float64Ops F} `{SortValues F}.

(** Columns of a frame. *)
Definition col_won (df : DataFrame F) : list Z := map (fun m => match_history.won m) df.
Definition col_goals (df : DataFrame F) : list Z := map (fun m => match_history.goals m) df.
Definition col_assists (df : DataFrame F) : list Z :=
  map (fun m => match_history.assists m) df.
Definition col_saves (df : DataFrame F) : list Z := map (fun m => match_history.saves m) df.
Definition col_shots (df : DataFrame F) : list Z := map (fun m => match_history.shots m) df.
Definition col_score (df : DataFrame F) : list Z := map (fun m => match_history.score m) df.
Definition col_shooting_percentage (df : DataFrame F) : list F :=
  map (fun m => match_history.shooting_percentage m) df.

(** [~series] on an [int64] column: the bitwise complement of every cell. *)
Definition invert (col : list Z) : list Z := map Z.lnot col.

(** [df["won"].sum() / len(df) * 100]. *)
Definition win_rate_of (df : DataFrame F) : F :=
  fmul (fdiv (of_int (sum_int (col_won df))) (of_int (len df))) (of_int 100).

(** [PlayerAnalytics.get_summary_stats]. *)
Definition get_summary_stats (df : DataFrame F) : option (SummaryStats.t F) :=
  if len df =? 0 then None
  else Some
    {| SummaryStats.total_games := len df;
       SummaryStats.wins := sum_int (col_won df);
       SummaryStats.losses := sum_int (invert (col_won df));
       SummaryStats.win_rate := win_rate_of df;
       SummaryStats.avg_goals := mean_int (col_goals df);
       SummaryStats.avg_assists := mean_int (col_assists df);
       SummaryStats.avg_saves := mean_int (col_saves df);
       SummaryStats.avg_shots := mean_int (col_shots df);
       SummaryStats.avg_score := mean_int (col_score df);
       SummaryStats.avg_shooting_pct :=
         mean_float (col_shooting_percentage df);
       SummaryStats.best_goals := max_int (col_goals df);
       SummaryStats.best_assists := max_int (col_assists df);
       SummaryStats.best_saves := max_int (col_saves df);
       SummaryStats.best_score := max_int (col_score df) |}.

(** [==] on the cells of an object column that holds strings and [None]. *)
Definition cell_eqb (x y : option string) : bool :=
  match x, y with
  | Some a, Some b => (a =? b)%string
  | None, None => true
  | _, _ => false
  end.

(** [Series.unique()]: the distinct cells in order of first appearance,
    [seen] being the cells met so far. *)
Fixpoint unique (seen : list (option string)) (col : list (option string))
    : list (option string) :=
  match col with
  | [] => []
  | x :: rest =>
      if existsb (cell_eqb x) seen then unique seen rest
      else x :: unique (x :: seen) rest
  end.

(** [df[df["playlist"] == playlist]]. *)
Definition rows_of_playlist (df : DataFrame F) (playlist : string)
    : DataFrame F :=
  filter (fun m => cell_eqb (match_history.playlist m) (Some playlist)) df.

(** The loop of [get_stats_by_playlist] over the distinct playlists; a NULL
    playlist ([pd.isna]) is skipped.  The dictionary keyed by playlist is
    the list of its items in insertion order. *)
Fixpoint playlist_items (df : DataFrame F) (playlists : list (option string))
    : list (string * PlaylistStats.t F) :=
  match playlists with
  | [] => []
  | None :: rest => playlist_items df rest
  | Some playlist :: rest =>
      let playlist_df := rows_of_playlist df playlist in
      (playlist,
       {| PlaylistStats.games := len playlist_df;
          PlaylistStats.win_rate := win_rate_of playlist_df;
          PlaylistStats.avg_goals := mean_int (col_goals playlist_df);
          PlaylistStats.avg_assists := mean_int (col_assists playlist_df);
          PlaylistStats.avg_saves := mean_int (col_saves playlist_df);
          PlaylistStats.avg_score := mean_int (col_score playlist_df) |})
      :: playlist_items df rest
  end.

(** [PlayerAnalytics.get_stats_by_playlist]; [[]] is the empty dictionary. *)
Definition get_stats_by_playlist (df : DataFrame F)
    : list (string * PlaylistStats.t F) :=
  if len df =? 0 then []
  else playlist_items df
         (unique [] (map (fun m => match_history.playlist m) df)).

(** [series.rolling(window=w, min_periods=1).mean()]: at every position the
    mean of the last [w] cells up to it, or of all of them while fewer
    than [w] exist.  pandas keeps a running sum in [float64], which is the
    sum of the cells of the window as long as the sums stay below [2^53]. *)
Definition rolling_mean (w : nat) (col : list Z) : list F :=
  map (fun i => mean_int (slice (i + 1 - w) (i + 1) col))
      (seq 0 (List.length col)).

(** [PlayerAnalytics.get_performance_trend]; [[]] is the empty frame
    [pd.DataFrame()]. *)
Definition get_performance_trend (df : DataFrame F) : list (Trend.t F) :=
  if len df =? 0 then []
  else
    let df_sorted := sort_values_date df in
    map (fun '(m, (g, (a, (s, sc)))) =>
           {| Trend.game := m;
              Trend.rolling_goals := g;
              Trend.rolling_assists := a;
              Trend.rolling_saves := s;
              Trend.rolling_score := sc |})
        (combine df_sorted
           (combine (rolling_mean 5 (col_goals df_sorted))
              (combine (rolling_mean 5 (col_assists df_sorted))
                 (combine (rolling_mean 5 (col_saves df_sorted))
                    (rolling_mean 5 (col_score df_sorted)))))).

(** [PlayerAnalytics.get_recent_form]. *)
Definition get_recent_form (df : DataFrame F) (num_games : Z)
    : option (RecentForm.t F) :=
  if len df =? 0 then None
  else
    let recent_df := head num_games df in
    Some
      {| RecentForm.games := len recent_df;
         RecentForm.wins := sum_int (col_won recent_df);
         RecentForm.win_rate := win_rate_of recent_df;
         RecentForm.avg_goals := mean_int (col_goals recent_df);
         RecentForm.avg_assists := mean_int (col_assists recent_df);
         RecentForm.avg_saves := mean_int (col_saves recent_df);
         RecentForm.avg_score := mean_int (col_score recent_df) |}.

(** The dtype of the integer columns of the frame at hand. *)
Definition dtype_of (df : DataFrame F) : dtype :=
  if len df =? 0 then object else int64.

(** The local function [calc_stats] of [compare_performance], on a window
    [df] of a frame whose integer columns have the dtype [columns].  Its
    first entry divides [df["won"].sum()] by [len(df)].  The sum of an
    [int64] column is a numpy integer, and numpy divides by zero into NaN
    or an infinity; the sum of an [object] column is the Python [int] that
    [sum] starts from, and Python raises [ZeroDivisionError] when the window
    has no row. *)
Definition calc_stats (columns : dtype) (df : DataFrame F)
    : result (WindowStats.t F) :=
  match columns, len df =? 0 with
  | object, true => Raises ZeroDivisionError
  | _, _ =>
      Returns
        {| WindowStats.win_rate := win_rate_of df;
           WindowStats.avg_goals := mean_int (col_goals df);
           WindowStats.avg_assists := mean_int (col_assists df);
           WindowStats.avg_saves := mean_int (col_saves df);
           WindowStats.avg_score := mean_int (col_score df) |}
  end.

(** The dictionary [improvements]: recent minus early, entry by entry. *)
Definition improvements_of (early_stats recent_stats : WindowStats.t F)
    : Improvement.t F :=
  {| Improvement.win_rate_change :=
       fsub (WindowStats.win_rate recent_stats)
            (WindowStats.win_rate early_stats);
     Improvement.goals_change :=
       fsub (WindowStats.avg_goals recent_stats)
            (WindowStats.avg_goals early_stats);
     Improvement.assists_change :=
       fsub (WindowStats.avg_assists recent_stats)
            (WindowStats.avg_assists early_stats);
     Improvement.saves_change :=
       fsub (WindowStats.avg_saves recent_stats)
            (WindowStats.avg_saves early_stats);
     Improvement.score_change :=
       fsub (WindowStats.avg_score recent_stats)
            (WindowStats.avg_score early_stats) |}.

(** [PlayerAnalytics.compare_performance]: the dictionary returned, [None]
    for the empty one, or the exception of [calc_stats].  The guard compares
    the number of rows with [first_n + last_n] and nothing else, so a frame
    without rows passes it when that sum is not positive; both windows of
    such a frame are empty and its columns are of dtype [object]. *)
Definition compare_performance (df : DataFrame F) (first_n last_n : Z)
    : result (option (Comparison.t F)) :=
  if len df <? first_n + last_n then Returns None
  else
    let df_sorted := sort_values_date df in
    let early_games := head first_n df_sorted in
    let recent_games := tail last_n df_sorted in
    match calc_stats (dtype_of df) early_games with
    | Raises error => Raises error
    | Returns early_stats =>
        match calc_stats (dtype_of df) recent_games with
        | Raises error => Raises error
        | Returns recent_stats =>
            Returns
              (Some {| Comparison.early := early_stats;
                       Comparison.recent := recent_stats;
                       Comparison.improvement :=
                         improvements_of early_stats recent_stats |})
        end
    end.

(** One [if value > hi: ... elif value < lo: ...] of
    [get_strengths_and_weaknesses], on the two lists built so far. *)
Definition classify (value hi lo : F) (label : string)
    (lists : list string * list string) : list string * list string :=
  let (strengths, weaknesses) := lists in
  if flt hi value then ((strengths ++ [label])%list, weaknesses)
  else if flt value lo then (strengths, (weaknesses ++ [label])%list)
  else (strengths, weaknesses).

(** The four tests in the order of the source. *)
Definition classify_all (percentiles : Metrics.t F)
    : list string * list string :=
  classify (Metrics.shooting_pct percentiles) (of_int 40) (of_int 25)
    "Shot accuracy"
    (classify (Metrics.saves percentiles) (of_decimal 15 1) (of_decimal 8 1)
       "Defense"
       (classify (Metrics.assists percentiles)
          (of_decimal 12 1) (of_decimal 6 1) "Playmaking"
          (classify (Metrics.goals percentiles)
             (of_decimal 15 1) (of_decimal 8 1) "Goal scoring"
             ([], [])))).

(** [xs if xs else [default]]. *)
Definition or_default (xs : list string) (default : string) : list string :=
  match xs with
  | [] => [default]
  | _ :: _ => xs
  end.

(** [PlayerAnalytics.get_strengths_and_weaknesses]. *)
Definition get_strengths_and_weaknesses (df : DataFrame F)
    : option (Profile.t F) :=
  if len df =? 0 then None
  else
    let percentiles :=
      {| Metrics.goals := mean_int (col_goals df);
         Metrics.assists := mean_int (col_assists df);
         Metrics.saves := mean_int (col_saves df);
         Metrics.shooting_pct := mean_float (col_shooting_percentage df) |} in
    let (strengths, weaknesses) := classify_all percentiles in
    Some {| Profile.strengths :=
              or_default strengths "Consistent all-around player";
            Profile.weaknesses :=
              or_default weaknesses "Well-rounded performance";
            Profile.metrics := percentiles |}.

End Analytics.

End PlayerAnalytics.

(** ** [src/ai_coach.py] *)

Module AICoach.

Import PlayerAnalytics.

Section Coach.

Context {F : Type} `{Float64Ops F}.

(** [summary_stats.get(key, 0)] on the dictionary of [get_summary_stats],
    which is empty when the frame was. *)
Definition summary_get (summary_stats : option (SummaryStats.t F))
    (key : SummaryStats.t F -> F) : F :=
  match summary_stats with
  | Some summary => key summary
  | None => of_int 0
  end.

(** One [if value < lo: ... elif value > hi: ...] of [generate_quick_tips]. *)
Definition tip (value lo hi : F) (low_tip high_tip : string)
    (tips : list string) : list string :=
  if flt value lo then (tips ++ [low_tip])%list
  else if flt hi value then (tips ++ [high_tip])%list
  else tips.

(** The list [tips] before the final slice. *)
Definition all_quick_tips (summary_stats : option (SummaryStats.t F))
    : list string :=
  let avg_goals := summary_get summary_stats (fun s => SummaryStats.avg_goals s) in
  let avg_assists := summary_get summary_stats (fun s => SummaryStats.avg_assists s) in
  let avg_saves := summary_get summary_stats (fun s => SummaryStats.avg_saves s) in
  let win_rate := summary_get summary_stats (fun s => SummaryStats.win_rate s) in
  let shooting_pct :=
    summary_get summary_stats (fun s => SummaryStats.avg_shooting_pct s) in
  tip win_rate (of_int 45) (of_int 55)
    "📈 Focus on consistency - review replays to identify patterns"
    "🏆 Great win rate! You're climbing steadily"
    (tip shooting_pct (of_int 30) (of_int 50)
       "🎯 Improve shot selection - quality over quantity"
       "🔥 Excellent shooting accuracy! You're efficient with your shots"
       (tip avg_saves (of_decimal 10 1) (of_decimal 20 1)
          "🛡️ Focus on defensive rotation and positioning"
          "🔒 Solid defense! You're keeping your team in games"
          (tip avg_assists (of_decimal 8 1) (of_decimal 15 1)
             "🤝 Practice passing plays - look for teammates in better positions"
             "👏 Great playmaking! Your passing creates opportunities"
             (tip avg_goals (of_decimal 10 1) (of_decimal 20 1)
                "🎯 Work on offensive positioning - look for more scoring opportunities"
                "💪 Excellent goal scoring! Keep applying offensive pressure"
                [])))).

(** [AICoach.generate_quick_tips]: [tips[:5]]. *)
Definition generate_quick_tips (summary_stats : option (SummaryStats.t F))
    : list string :=
  slice 0 (slice_bound (List.length (all_quick_tips summary_stats)) 5)
        (all_quick_tips summary_stats).

End Coach.

End AICoach.

(** ** [app.py] *)

Module App.

Import RocketLeagueDB PlayerAnalytics.

Section Dashboard.

Context {F : Type} `{Float64Ops F} `{SortValues F}.

(** [analytics.compare_performance(first_n=10, last_n=10)
     if len(stats_df) >= 20 else {}]. *)
Definition comparison (stats_df : DataFrame F)
    : result (option (Comparison.t F)) :=
  if len stats_df >=? 20 then compare_performance stats_df 10 10
  else Returns None.

(** How the block under [if analyze_button and player_name] ends: with one
    of its two error messages and [st.stop()], with the frame to analyse,
    or in its [except Exception as e] branch, which shows the exception and
    stops. *)
Inductive analysis : Type :=
| NoReplaysFound
| NoDataFound
| Loaded (stats_df : DataFrame F)
| Error (e : exception).

(** The lines from [stats_df = db.get_player_stats(player_name)] on, up to
    the frame. *)
Definition read_player (db : DB F) (player_name : string) : analysis :=
  let stats_df := get_player_stats db player_name in
  if len stats_df =? 0 then NoDataFound else Loaded stats_df.

(** That block, up to the frame: a player unknown to the store is fetched
    and stored, a known one is read back as stored.  The result is the store
    afterwards and the way the block ends.  The exception modelled is the
    one of the store; the replay client of the model returns on every
    payload of the type [Replay]. *)
Definition load_player (db : DB F) (api : BallchasingAPI.Service)
    (player_name : string) (num_games : Z) (now_add now_upd : Z)
    : DB F * analysis :=
  if negb (player_exists db player_name) then
    let match_history :=
      BallchasingAPI.get_player_match_history api player_name num_games in
    match match_history with
    | [] => (db, NoReplaysFound)
    | _ :: _ =>
        match add_match_history db player_name match_history
                                now_add now_upd with
        | (db', Returns _) => (db', read_player db' player_name)
        | (db', Raises e) => (db', Error e)
        end
    end
  else (db, read_player db player_name).

End Dashboard.

End App.

(** ** Observations on the store *)

Section StoreObservations.

Import RocketLeagueDB.

Context {F : Type}.

(** The [replay_id]s present (not NULL) in a list of rows, in order. *)
Definition replay_ids (rows : list (match_history.row F)) : list string :=
  flat_map (fun m => match match_history.replay_id m with
                     | Some r => [r]
                     | None => []
                     end) rows.

(** The rows of [match_history] that carry a given [player_id]. *)
Definition rows_of_player (db : DB F) (player_id : Z)
    : list (match_history.row F) :=
  filter (fun m => match_history.player_id m =? player_id)
         (tbl_match_history db).

(** No [replay_id] occurs twice in the table. *)
Definition replay_id_unique (db : DB F) : Prop :=
  NoDup (replay_ids (tbl_match_history db)).

(** No [replay_id] occurs twice among the rows of one player. *)
Definition replay_id_unique_per_player (db : DB F) : Prop :=
  forall player_id, NoDup (replay_ids (rows_of_player db player_id)).

(** The identity of a row of [players]: the two columns that the UPDATE
    leaves alone. *)
Definition player_key (p : players.row) : Z * string :=
  (players.player_id p, players.player_name p).

(** The states of the store that the two writing operations reach from a
    fresh file, whether a call of [add_match_history] returned or raised. *)
Inductive reachable : DB F -> Prop :=
| reachable_create_tables : reachable create_tables
| reachable_add_player db name now db' player_id :
    reachable db ->
    add_player db name now = Some (db', player_id) ->
    reachable db'
| reachable_add_match_history db name match_data now_add now_upd db' outcome :
    reachable db ->
    add_match_history db name match_data now_add now_upd = (db', outcome) ->
    reachable db'.

(** Every record of a batch can be bound. *)
Definition batch_binds (match_data : list (BallchasingAPI.MatchStats F))
    : bool :=
  forallb binds match_data.

(** What the loop of [add_match_history] does to the store and to its
    counter when every record binds: one INSERT OR IGNORE per record. *)
Fixpoint insert_rows (db : DB F) (player_id : Z)
    (match_data : list (BallchasingAPI.MatchStats F)) (games_added : Z)
    : DB F * Z :=
  match match_data with
  | [] => (db, games_added)
  | m :: rest =>
      insert_rows (insert_or_ignore_match db player_id m) player_id rest
                  (games_added + 1)
  end.

(** The shape that the schema and the two writing operations keep: names
    and ids of [players] are keys, the AUTOINCREMENT counters bound the ids
    handed out, no [replay_id] occurs twice, [won] holds a stored [bool],
    and every row of [match_history] references a row of [players]. *)
Record well_formed (db : DB F) : Prop := {
  wf_names : NoDup (map players.player_name (tbl_players db));
  wf_ids : NoDup (map players.player_id (tbl_players db));
  wf_ids_bound :
    Forall (fun p => players.player_id p <= seq_players db) (tbl_players db);
  wf_match_ids :
    NoDup (map (fun m => match_history.match_id m) (tbl_match_history db));
  wf_match_ids_bound :
    Forall (fun m => match_history.match_id m <= seq_match_history db)
           (tbl_match_history db);
  wf_replay_ids : replay_id_unique db;
  wf_won :
    Forall (fun m => match_history.won m = 0 \/ match_history.won m = 1)
           (tbl_match_history db);
  wf_foreign_key :
    Forall (fun m => In (match_history.player_id m)
                        (map players.player_id (tbl_players db)))
           (tbl_match_history db)
}.

(** The rows of [match_history] that belong to a player name: those that
    carry the [player_id] of its row of [players], none if it has no row. *)
Definition rows_of_name (db : DB F) (player_name : string)
    : list (match_history.row F) :=
  match select_player_id db player_name with
  | Some player_id => rows_of_player db player_id
  | None => []
  end.

(** The relation that [ORDER BY m.date DESC] establishes between
    neighbours. *)
Definition date_ge (a b : match_history.row F) : Prop := date_desc a b = true.

(** The [replay_id]s that the records of a batch carry, in order. *)
Definition batch_ids (match_data : list (BallchasingAPI.MatchStats F))
    : list string :=
  flat_map (fun m => match BallchasingAPI.replay_id m with
                     | Some r => [r]
                     | None => []
                     end) match_data.

(** Every record of a batch carries a [replay_id]. *)
Definition all_identified (match_data : list (BallchasingAPI.MatchStats F))
    : Prop :=
  Forall (fun m => BallchasingAPI.replay_id m <> None) match_data.

End StoreObservations.

(** ** Observations on the analytics *)

Section AnalyticsObservations.

Import RocketLeagueDB PlayerAnalytics.

Context {F : Type}.

(** The specification's order of two games by date: [a] is dated no later
    than [b].  A date is the string that the service gave, and dates are
    ordered as strings are, character by character; a game without a date
    counts as later than every dated game. *)
Definition no_later (a b : match_history.row F) : Prop :=
  match match_history.date b with
  | None => True
  | Some y =>
      match match_history.date a with
      | Some x => (x ?= y)%string <> Gt
      | None => False
      end
  end.

(** The specification's windows of [comparePerformance].  [rows] are [n]
    earliest rows of [df] by date when they are [n] of its rows and none of
    them is dated later than any row left over; [n] latest rows likewise.
    Where games share a date, more than one choice of rows qualifies. *)
Definition earliest_by_date (n : nat) (df rows : DataFrame F) : Prop :=
  List.length rows = n
  /\ exists others,
       Permutation df (rows ++ others)
       /\ forall a b, In a rows -> In b others -> no_later a b.

Definition latest_by_date (n : nat) (df rows : DataFrame F) : Prop :=
  List.length rows = n
  /\ exists others,
       Permutation df (others ++ rows)
       /\ forall a b, In a others -> In b rows -> no_later a b.

(** The last [n] games of a list, or all of them if they are fewer. *)
Definition last_games (n : nat) (rows : DataFrame F) : DataFrame F :=
  skipn (List.length rows - n) rows.

(** Whether a row has a playlist ([pd.isna] is false of it). *)
Definition has_playlist (m : match_history.row F) : bool :=
  match match_history.playlist m with
  | Some _ => true
  | None => false
  end.

End AnalyticsObservations.

(** The specification's average of a statistic over a list of games: the
    values of the games added up, divided by the number of games. *)
Definition average {F : Type} `{Float64Ops F}
    (stat : RocketLeagueDB.match_history.row F -> Z)
    (rows : PlayerAnalytics.DataFrame F) : F :=
  fdiv (of_int (fold_left (fun total m => total + stat m) rows 0))
       (of_int (Z.of_nat (List.length rows))).

(** The specification's average of the goals of a window. *)
Definition average_goals {F : Type} `{Float64Ops F}
    (rows : PlayerAnalytics.DataFrame F) : F :=
  average (fun m => RocketLeagueDB.match_history.goals m) rows.

(** The thresholds of the classification as the specification lists them:
    the label of a metric, its mean, the value above which it is a strength
    and the value below which it is a weakness. *)
Definition threshold_table {F : Type} `{Float64Ops F}
    (df : PlayerAnalytics.DataFrame F) : list (string * F * F * F) :=
  [ ("Goal scoring", mean_int (PlayerAnalytics.col_goals df),
     of_decimal 15 1, of_decimal 8 1);
    ("Playmaking", mean_int (PlayerAnalytics.col_assists df),
     of_decimal 12 1, of_decimal 6 1);
    ("Defense", mean_int (PlayerAnalytics.col_saves df),
     of_decimal 15 1, of_decimal 8 1);
    ("Shot accuracy",
     mean_float (PlayerAnalytics.col_shooting_percentage df),
     of_int 40, of_int 25) ].

(** ** The binary64 instance of the float interface *)

Module Binary64.

(** [float(z)] for [|z| < 2^63]; exact for [|z| <= 2^53]. *)
Definition of_int (z : Z) : float :=
  if z <? 0 then PrimFloat.opp (PrimFloat.of_uint63 (Uint63.of_Z (- z)))
  else PrimFloat.of_uint63 (Uint63.of_Z z).

(** The literal [m / 10^e], correctly rounded as the division of two exact
    integers is. *)
Definition of_decimal (m : Z) (e : nat) : float :=
  PrimFloat.div (of_int m) (of_int (10 ^ Z.of_nat e)).

(** Summation from left to right. *)
Definition fsum (l : list float) : float :=
  fold_left PrimFloat.add l PrimFloat.zero.

(** The comparison of the specification, with its arguments swapped. *)
Lemma SFcompare_swap (a b : SpecFloat.spec_float) :
  SpecFloat.SFcompare b a = option_map CompOpp (SpecFloat.SFcompare a b).
Proof.
  destruct a as [sa|sa| |sa ma ea], b as [sb|sb| |sb mb eb]; simpl;
    try reflexivity; try (destruct sa; reflexivity);
    try (destruct sb; reflexivity); try (destruct sa, sb; reflexivity).
  destruct sa, sb; simpl; try reflexivity;
    rewrite (Z.compare_antisym ea eb);
    destruct (Z.compare ea eb); simpl; try reflexivity;
    change (Pos.compare_cont Eq mb ma) with (Pos.compare mb ma);
    change (Pos.compare_cont Eq ma mb) with (Pos.compare ma mb);
    rewrite (Pos.compare_antisym ma mb); reflexivity.
Qed.

(** Two numbers compare equal when they are the same, or two zeros. *)
Lemma SFcompare_Eq_inv (a b : SpecFloat.spec_float) :
  SpecFloat.SFcompare a b = Some Eq ->
  a = b \/ exists sa sb, a = SpecFloat.S754_zero sa /\ b = SpecFloat.S754_zero sb.
Proof.
  destruct a as [sa|sa| |sa ma ea], b as [sb|sb| |sb mb eb]; simpl;
    try discriminate; try (destruct sa; discriminate);
    try (destruct sb; discriminate).
  - right. eauto.
  - destruct sa, sb; try discriminate; now left.
  - destruct sa, sb; try discriminate;
      destruct (Z.compare ea eb) eqn:He; try discriminate;
      apply Z.compare_eq in He; subst eb; intros [= Hm]; left.
    + destruct (Pos.compare_cont Eq ma mb) eqn:Hc; try discriminate.
      apply Pos.compare_eq in Hc. now subst.
    + apply Pos.compare_eq in Hm. now subst.
Qed.

Lemma SFcompare_Eq_l (a b c : SpecFloat.spec_float) :
  SpecFloat.SFcompare a b = Some Eq ->
  SpecFloat.SFcompare a c = SpecFloat.SFcompare b c.
Proof.
  intros Hab. destruct (SFcompare_Eq_inv a b Hab) as [-> | (sa & sb & -> & ->)];
    [reflexivity|].
  now destruct c.
Qed.

Lemma flt_asym (x y : float) :
  PrimFloat.ltb x y = true -> PrimFloat.ltb y x = false.
Proof.
  rewrite !FloatAxioms.ltb_spec. unfold SpecFloat.SFltb.
  rewrite (SFcompare_swap (Prim2SF x) (Prim2SF y)).
  now destruct (SpecFloat.SFcompare (Prim2SF x) (Prim2SF y)) as [[| |]|].
Qed.

Lemma feq_flt_l (x y z : float) :
  PrimFloat.eqb x y = true -> PrimFloat.ltb x z = PrimFloat.ltb y z.
Proof.
  rewrite FloatAxioms.eqb_spec, !FloatAxioms.ltb_spec.
  unfold SpecFloat.SFeqb, SpecFloat.SFltb.
  destruct (SpecFloat.SFcompare (Prim2SF x) (Prim2SF y)) as [[| |]|] eqn:Hxy;
    try discriminate.
  intros _. now rewrite (SFcompare_Eq_l _ _ (Prim2SF z) Hxy).
Qed.

Lemma feq_flt_r (x y z : float) :
  PrimFloat.eqb x y = true -> PrimFloat.ltb z x = PrimFloat.ltb z y.
Proof.
  rewrite FloatAxioms.eqb_spec, !FloatAxioms.ltb_spec.
  unfold SpecFloat.SFeqb, SpecFloat.SFltb.
  destruct (SpecFloat.SFcompare (Prim2SF x) (Prim2SF y)) as [[| |]|] eqn:Hxy;
    try discriminate.
  intros _.
  rewrite (SFcompare_swap (Prim2SF x) (Prim2SF z)),
          (SFcompare_swap (Prim2SF y) (Prim2SF z)).
  now rewrite (SFcompare_Eq_l _ _ (Prim2SF z) Hxy).
Qed.

Lemma literals_ordered :
  PrimFloat.ltb (of_decimal 8 1) (of_decimal 15 1) = true
  /\ PrimFloat.ltb (of_decimal 6 1) (of_decimal 12 1) = true
  /\ PrimFloat.ltb (of_int 25) (of_int 40) = true.
Proof. repeat split; vm_compute; reflexivity. Qed.

End Binary64.

#[export] Instance binary64 : Float64Ops float := {|
  of_int := Binary64.of_int;
  of_decimal := Binary64.of_decimal;
  fsub := PrimFloat.sub;
  fmul := PrimFloat.mul;
  fdiv := PrimFloat.div;
  fsum := Binary64.fsum;
  flt := PrimFloat.ltb;
  feq := PrimFloat.eqb;
  flt_asym := Binary64.flt_asym;
  feq_flt_l := Binary64.feq_flt_l;
  feq_flt_r := Binary64.feq_flt_r;
  literals_ordered := Binary64.literals_ordered
|}.

(** ** Properties of the pandas primitives *)

Section Primitives.

Context {A : Type}.

Lemma insert_by_perm (leb : A -> A -> bool) (x : A) (l : list A) :
  Permutation (insert_by leb x l) (x :: l).
Proof.
  induction l as [|y l IH]; simpl; [reflexivity|].
  destruct (leb x y); [reflexivity|].
  rewrite IH. apply perm_swap.
Qed.

(** Sorting rearranges the rows and loses none. *)
Lemma sort_by_perm (leb : A -> A -> bool) (l : list A) :
  Permutation (sort_by leb l) l.
Proof.
  induction l as [|x l IH]; simpl; [reflexivity|].
  rewrite insert_by_perm. now constructor.
Qed.

Lemma sort_by_length (leb : A -> A -> bool) (l : list A) :
  List.length (sort_by leb l) = List.length l.
Proof. apply Permutation_length, sort_by_perm. Qed.

Lemma insert_by_sorted (leb : A -> A -> bool) (x : A) (l : list A) :
  (forall a b, leb a b = true \/ leb b a = true) ->
  Sorted (fun a b => leb a b = true) l ->
  Sorted (fun a b => leb a b = true) (insert_by leb x l).
Proof.
  intros Htotal. induction 1 as [|y l Hl IH Hhd]; simpl.
  - repeat constructor.
  - destruct (leb x y) eqn:Hxy.
    + repeat constructor; assumption.
    + constructor; [exact IH|].
      destruct l as [|z l]; simpl.
      * constructor. destruct (Htotal x y); congruence.
      * destruct (leb x z); constructor.
        -- destruct (Htotal x y); congruence.
        -- now inversion Hhd.
Qed.

(** Under a total comparison the result is sorted. *)
Lemma sort_by_sorted (leb : A -> A -> bool) (l : list A) :
  (forall a b, leb a b = true \/ leb b a = true) ->
  Sorted (fun a b => leb a b = true) (sort_by leb l).
Proof.
  intros Htotal. induction l as [|x l IH]; simpl; [constructor|].
  now apply insert_by_sorted.
Qed.

(** [head(n)] with a count is the first [n] rows. *)
Lemma head_firstn (n : Z) (l : list A) :
  0 <= n -> head n l = firstn (Z.to_nat n) l.
Proof.
  intros Hn. unfold head, slice, slice_bound.
  destruct (Z.ltb_spec n 0) as [Hneg|_]; [lia|].
  rewrite Nat.sub_0_r. simpl skipn.
  destruct (Nat.le_ge_cases (List.length l) (Z.to_nat n)) as [Hle|Hge].
  - rewrite Nat.min_l by exact Hle.
    now rewrite !firstn_all2 by lia.
  - now rewrite Nat.min_r by exact Hge.
Qed.

(** [tail(n)] with a count is the last [n] rows. *)
Lemma tail_skipn (n : Z) (l : list A) :
  0 <= n -> tail n l = skipn (List.length l - Z.to_nat n) l.
Proof.
  intros Hn. unfold tail, slice, slice_bound.
  destruct (Z.eqb_spec n 0) as [-> | Hnz].
  - simpl. rewrite Nat.sub_0_r. symmetry. apply skipn_all.
  - destruct (Z.ltb_spec (- n) 0) as [_|Hpos]; [|lia].
    replace (Z.to_nat (Z.max 0 (Z.of_nat (List.length l) + - n)))
      with (List.length l - Z.to_nat n)%nat by lia.
    apply firstn_all2. rewrite length_skipn. lia.
Qed.

End Primitives.

(** ** One sort of the frames

    The stable insertion sort by [date_asc] rearranges the rows and puts
    them in ascending order of date: it is one of the sorts that
    [sort_values] may be, and the one that the fixtures are evaluated
    with. *)

Module InsertionSort.

Import RocketLeagueDB PlayerAnalytics.

Lemma ascii_compare_trans (a b c : ascii) :
  Ascii.compare a b <> Gt -> Ascii.compare b c <> Gt ->
  Ascii.compare a c <> Gt
  /\ (Ascii.compare a c = Eq ->
      Ascii.compare a b = Eq /\ Ascii.compare b c = Eq).
Proof.
  unfold Ascii.compare.
  destruct (N.compare_spec (N_of_ascii a) (N_of_ascii b)) as [Hab|Hab|Hab];
    destruct (N.compare_spec (N_of_ascii b) (N_of_ascii c)) as [Hbc|Hbc|Hbc];
    destruct (N.compare_spec (N_of_ascii a) (N_of_ascii c)) as [Hac|Hac|Hac];
    intros H1 H2; try congruence; try lia; intuition congruence.
Qed.

(** The order of strings is transitive. *)
Lemma string_compare_trans (x : string) :
  forall y z,
    (x ?= y)%string <> Gt -> (y ?= z)%string <> Gt -> (x ?= z)%string <> Gt.
Proof.
  induction x as [|a x IH]; intros [|b y] [|c z]; simpl; try congruence.
  intros Hxy Hyz.
  assert (Hab : Ascii.compare a b <> Gt)
    by (destruct (Ascii.compare a b); congruence).
  assert (Hbc : Ascii.compare b c <> Gt)
    by (destruct (Ascii.compare b c); congruence).
  destruct (ascii_compare_trans a b c Hab Hbc) as (Hac & Heq).
  destruct (Ascii.compare a c) eqn:Hcmp; try congruence.
  destruct (Heq eq_refl) as (Hab' & Hbc'). rewrite Hab' in Hxy.
  rewrite Hbc' in Hyz. now apply (IH y z).
Qed.

Lemma string_leb_compare (x y : string) :
  String.leb x y = true <-> (x ?= y)%string <> Gt.
Proof.
  unfold String.leb. destruct (x ?= y)%string; split; congruence.
Qed.

Section Order.

Context {F : Type}.

Lemma date_asc_total (a b : match_history.row F) :
  date_asc a b = true \/ date_asc b a = true.
Proof.
  unfold date_asc.
  destruct (match_history.date a), (match_history.date b); auto.
  apply String.leb_total.
Qed.

Lemma date_asc_trans (a b c : match_history.row F) :
  date_asc a b = true -> date_asc b c = true -> date_asc a c = true.
Proof.
  unfold date_asc.
  destruct (match_history.date a) as [x|], (match_history.date b) as [y|],
           (match_history.date c) as [z|]; try congruence.
  rewrite !string_leb_compare. apply string_compare_trans.
Qed.

Lemma sort_by_date_asc_sorted (df : DataFrame F) :
  StronglySorted (fun a b => date_asc a b = true) (sort_by date_asc df).
Proof.
  apply Sorted_StronglySorted.
  - intros a b c. apply date_asc_trans.
  - apply (sort_by_sorted date_asc), date_asc_total.
Qed.

End Order.

End InsertionSort.

#[export] Instance insertion_sort : PlayerAnalytics.SortValues float := {|
  PlayerAnalytics.sort_values_date := sort_by PlayerAnalytics.date_asc;
  PlayerAnalytics.sort_values_date_perm := sort_by_perm PlayerAnalytics.date_asc;
  PlayerAnalytics.sort_values_date_sorted :=
    InsertionSort.sort_by_date_asc_sorted
|}.

(** ** Fixtures: concrete payloads, batches and frames over [binary64] *)

Module Fixtures.

Import BallchasingAPI.

(** A roster entry that carries a name and nothing else. *)
Definition player_named (name : string) : Player float :=
  {| pl_name := Some name; pl_stats := None |}.

(** A team section with its roster and its aggregate goals. *)
Definition team_of (roster : list (Player float)) (team_goals : Z)
    : Team float :=
  {| tm_players := Some roster;
     tm_stats := Some {| ts_core := Some {| tc_goals := Some team_goals |} |} |}.

(** A replay of two rosters and a score. *)
Definition replay_of (id : string) (blue : list (Player float)) (blue_goals : Z)
    (orange : list (Player float)) (orange_goals : Z) : Replay float :=
  {| rp_id := Some id;
     rp_date := Some "2026-02-10T18:00:00Z";
     rp_duration := Some 300;
     rp_playlist_name := Some "Ranked Doubles";
     rp_blue := Some (team_of blue blue_goals);
     rp_orange := Some (team_of orange orange_goals) |}.

(** Blue 3, orange 1: "Foo" plays for blue, "Bar" for orange. *)
Definition replay_3_1 : Replay float :=
  replay_of "r-3-1" [player_named "Ann"; player_named "Foo"] 3
            [player_named "Bar"; player_named "Cid"] 1.

(** A tie at 2. *)
Definition replay_2_2 : Replay float :=
  replay_of "r-2-2" [player_named "Foo"] 2 [player_named "Bar"] 2.

(** Squishy and justin. are team mates on blue in one replay, won 3 to 1. *)
Definition replay_shared : Replay float :=
  replay_of "r-shared" [player_named "Squishy"; player_named "justin."] 3
            [player_named "Bar"; player_named "Cid"] 1.

(** A payload that lacks its "id" key. *)
Definition replay_without_id : Replay float :=
  {| rp_id := None;
     rp_date := Some "2026-02-11T18:00:00Z";
     rp_duration := Some 300;
     rp_playlist_name := None;
     rp_blue := Some (team_of [player_named "Squishy"] 0);
     rp_orange := Some (team_of [player_named "Bar"] 2) |}.

(** A row of a frame: a game of the playlist "Ranked Doubles" on blue. *)
Definition game (id : Z) (date : string) (won goals assists saves : Z)
    (shooting_percentage : float) : RocketLeagueDB.match_history.row float :=
  {| RocketLeagueDB.match_history.match_id := id;
     RocketLeagueDB.match_history.player_id := 1;
     RocketLeagueDB.match_history.replay_id := None;
     RocketLeagueDB.match_history.date := Some date;
     RocketLeagueDB.match_history.duration := Some 300;
     RocketLeagueDB.match_history.playlist := Some "Ranked Doubles";
     RocketLeagueDB.match_history.team := "blue";
     RocketLeagueDB.match_history.won := won;
     RocketLeagueDB.match_history.goals := goals;
     RocketLeagueDB.match_history.assists := assists;
     RocketLeagueDB.match_history.saves := saves;
     RocketLeagueDB.match_history.shots := 2 * goals;
     RocketLeagueDB.match_history.score := 100 * goals + 50 * assists;
     RocketLeagueDB.match_history.shooting_percentage := shooting_percentage;
     RocketLeagueDB.match_history.boost_collected := 0%float;
     RocketLeagueDB.match_history.boost_stolen := 0;
     RocketLeagueDB.match_history.boost_used := 0;
     RocketLeagueDB.match_history.avg_speed := 0%float;
     RocketLeagueDB.match_history.time_supersonic := 0%float;
     RocketLeagueDB.match_history.time_defensive_third := 0%float;
     RocketLeagueDB.match_history.time_neutral_third := 0%float;
     RocketLeagueDB.match_history.time_offensive_third := 0%float |}.

(** Five games, most recent first, whose means sit on thresholds: goals
    4/5 = 0.8, assists 6/5 = 1.2, saves 4/5 = 0.8, shooting 40. *)
Definition frame_on_thresholds : PlayerAnalytics.DataFrame float :=
  [ game 5 "2026-02-05" 1 2 1 0 40%float;
    game 4 "2026-02-04" 0 0 2 1 40%float;
    game 3 "2026-02-03" 1 1 1 1 40%float;
    game 2 "2026-02-02" 0 0 0 2 40%float;
    game 1 "2026-02-01" 1 1 2 0 40%float ].

(** The store of a fresh file. *)
Definition fresh_db : RocketLeagueDB.DB float := RocketLeagueDB.create_tables.

(** What [get_player_match_history] accumulates from one detail payload. *)
Definition history_of (replay_data : Replay float) (player_name : string)
    : list (MatchStats float) :=
  match get_player_stats_from_replay replay_data player_name with
  | Some player_stats => [player_stats]
  | None => []
  end.

(** A service that knows three replays of "Foo", one of which it fails to
    deliver, and answers no other search. *)
Definition service : Service :=
  {| sv_search := fun player_name count =>
       if (lower player_name =? "foo")%string
       then Some {| sr_list := Some [ {| rs_id := Some "r-3-1" |};
                                      {| rs_id := Some "r-gone" |};
                                      {| rs_id := Some "r-2-2" |} ] |}
       else None;
     sv_replay := fun replay_id =>
       match replay_id with
       | Some id =>
           if (id =? "r-3-1")%string then Some replay_3_1
           else if (id =? "r-2-2")%string then Some replay_2_2
           else None
       | None => None
       end |}.

(** A roster entry with a name and a number of goals. *)
Definition player_scoring (name : string) (goals : Z) : Player float :=
  {| pl_name := Some name;
     pl_stats :=
       Some {| st_core :=
                 Some {| co_goals := Some goals;
                         co_assists := None;
                         co_saves := None;
                         co_shots := None;
                         co_score := None;
                         co_shooting_percentage := None |};
               st_boost := None;
               st_movement := None;
               st_positioning := None |} |}.

(** A payload that credits "Max" with [2^63] goals, one more than an
    INTEGER of SQLite holds, in between two payloads without surprises. *)
Definition replay_before : Replay float :=
  replay_of "r-before" [player_scoring "Max" 2] 3 [player_named "Bar"] 1.

Definition replay_too_big : Replay float :=
  replay_of "r-too-big" [player_scoring "Max" (2 ^ 63)] 3
            [player_named "Bar"] 1.

Definition replay_after : Replay float :=
  replay_of "r-after" [player_scoring "Max" 1] 3 [player_named "Bar"] 1.

(** A service that knows these three replays of "Max". *)
Definition service_of_max : Service :=
  {| sv_search := fun player_name count =>
       if (lower player_name =? "max")%string
       then Some {| sr_list := Some [ {| rs_id := Some "r-before" |};
                                      {| rs_id := Some "r-too-big" |};
                                      {| rs_id := Some "r-after" |} ] |}
       else None;
     sv_replay := fun replay_id =>
       match replay_id with
       | Some id =>
           if (id =? "r-before")%string then Some replay_before
           else if (id =? "r-too-big")%string then Some replay_too_big
           else if (id =? "r-after")%string then Some replay_after
           else None
       | None => None
       end |}.

(** The store after Squishy's record of the shared replay was ingested. *)
Definition stored_squishy : RocketLeagueDB.DB float :=
  fst (RocketLeagueDB.add_match_history fresh_db "Squishy"
         (history_of replay_shared "Squishy") 1 2).

End Fixtures.

(** * Properties of the replay client *)

Section ReplayClient.

Import BallchasingAPI.

Context {F : Type} `{Float64Ops F}.

Variable replay_data : Replay F.

(** The inner loop stops at the first roster entry that matches. *)
Lemma scan_players_first (team_color : string) (before after : list (Player F))
    (player : Player F) (player_name : string) :
  (forall q, In q before -> name_matches q player_name = false) ->
  name_matches player player_name = true ->
  scan_players replay_data team_color (before ++ player :: after) player_name
  = Some (extract replay_data team_color player).
Proof.
  induction before as [|q before IH]; intros Hbefore Hplayer; simpl.
  - now rewrite Hplayer.
  - rewrite (Hbefore q (or_introl eq_refl)).
    apply IH; [|assumption].
    intros q' Hq'. apply Hbefore. now right.
Qed.

(** It finds nothing exactly when no entry matches. *)
Lemma scan_players_none (team_color : string) (players : list (Player F))
    (player_name : string) :
  scan_players replay_data team_color players player_name = None <->
  (forall q, In q players -> name_matches q player_name = false).
Proof.
  induction players as [|q players IH]; simpl.
  - split; [intros _ q [] | reflexivity].
  - destruct (name_matches q player_name) eqn:Hq.
    + split; [discriminate|].
      intros Hall. specialize (Hall q (or_introl eq_refl)). congruence.
    + rewrite IH. split.
      * intros Hall q' [<-|Hin]; [assumption | now apply Hall].
      * intros Hall q' Hin. apply Hall. now right.
Qed.

(** What it returns is the record of a matching entry of the roster. *)
Lemma scan_players_some (team_color : string) (players : list (Player F))
    (player_name : string) (stats : MatchStats F) :
  scan_players replay_data team_color players player_name = Some stats ->
  exists player, In player players
                 /\ name_matches player player_name = true
                 /\ stats = extract replay_data team_color player.
Proof.
  induction players as [|q players IH]; simpl; [discriminate|].
  destruct (name_matches q player_name) eqn:Hq.
  - intros [= <-]. exists q. auto.
  - intros Hscan. destruct (IH Hscan) as (player & Hin & Hm & Hs).
    exists player. auto.
Qed.

(** A matching entry on a roster makes the inner loop return. *)
Lemma scan_players_found (team_color : string) (players : list (Player F))
    (player_name : string) :
  (exists player, In player players /\ name_matches player player_name = true) ->
  exists player, In player players
                 /\ name_matches player player_name = true
                 /\ scan_players replay_data team_color players player_name
                    = Some (extract replay_data team_color player).
Proof.
  intros (player & Hin & Hm).
  destruct (scan_players replay_data team_color players player_name)
    as [stats|] eqn:Hscan.
  - destruct (scan_players_some _ _ _ _ Hscan) as (q & Hq & Hqm & ->).
    exists q. auto.
  - rewrite scan_players_none in Hscan.
    rewrite (Hscan player Hin) in Hm. discriminate.
Qed.

(** The whole function, unfolded over its two rosters. *)
Lemma get_player_stats_from_replay_unfold (player_name : string) :
  get_player_stats_from_replay replay_data player_name =
  match scan_players replay_data "blue" (players_of replay_data "blue")
                     player_name with
  | Some stats => Some stats
  | None => scan_players replay_data "orange"
              (players_of replay_data "orange") player_name
  end.
Proof.
  unfold get_player_stats_from_replay; simpl.
  destruct (scan_players replay_data "blue" _ player_name); [reflexivity|].
  now destruct (scan_players replay_data "orange" _ player_name).
Qed.

(** Every record returned is the record of a matching entry of one of the
    two rosters, labelled with that roster's side. *)
Lemma get_player_stats_from_replay_some (player_name : string)
    (stats : MatchStats F) :
  get_player_stats_from_replay replay_data player_name = Some stats ->
  exists team_color player,
    (team_color = "blue" \/ team_color = "orange")
    /\ In player (players_of replay_data team_color)
    /\ name_matches player player_name = true
    /\ stats = extract replay_data team_color player.
Proof.
  rewrite get_player_stats_from_replay_unfold.
  destruct (scan_players replay_data "blue" _ player_name) as [s|] eqn:Hb.
  - intros [= <-].
    destruct (scan_players_some _ _ _ _ Hb) as (p & Hin & Hm & Hs).
    exists "blue", p. auto.
  - intros Ho.
    destruct (scan_players_some _ _ _ _ Ho) as (p & Hin & Hm & Hs).
    exists "orange", p. auto.
Qed.

(** The [won] field of a record, by side. *)
Lemma won_extract_blue (player : Player F) :
  won (extract replay_data "blue" player)
  = (team_goals replay_data "blue" >? team_goals replay_data "orange").
Proof. reflexivity. Qed.

Lemma won_extract_orange (player : Player F) :
  won (extract replay_data "orange" player)
  = (team_goals replay_data "orange" >? team_goals replay_data "blue").
Proof. reflexivity. Qed.

(** C6. When the blue team's aggregate goals are 3 and the orange team's
    are 1: a lookup name found on the blue roster yields a record of side
    "blue" with [won = true]; a lookup name that the scan finds on the
    orange roster (it is on the orange roster and not on the blue one, which
    is scanned first) yields a record of side "orange" with [won = false];
    and whatever record the extraction returns is a blue-side record with
    [won = true] or an orange-side record with [won = false]. *)
Theorem win_determination_blue3_orange1 (player_name : string) :
  team_goals replay_data "blue" = 3 ->
  team_goals replay_data "orange" = 1 ->
  ((exists player, In player (players_of replay_data "blue")
                   /\ name_matches player player_name = true) ->
   exists stats,
     get_player_stats_from_replay replay_data player_name = Some stats
     /\ team stats = "blue" /\ won stats = true)
  /\
  ((forall q, In q (players_of replay_data "blue") ->
              name_matches q player_name = false) ->
   (exists player, In player (players_of replay_data "orange")
                   /\ name_matches player player_name = true) ->
   exists stats,
     get_player_stats_from_replay replay_data player_name = Some stats
     /\ team stats = "orange" /\ won stats = false)
  /\
  (forall stats,
     get_player_stats_from_replay replay_data player_name = Some stats ->
     (team stats = "blue" /\ won stats = true)
     \/ (team stats = "orange" /\ won stats = false)).
Proof.
  intros Hblue Horange. split; [|split].
  3: { intros stats Hget.
       destruct (get_player_stats_from_replay_some _ _ Hget)
         as (c & p & [-> | ->] & _ & _ & ->); [left | right];
         (split; [reflexivity|]).
       - rewrite won_extract_blue, Hblue, Horange. reflexivity.
       - rewrite won_extract_orange, Hblue, Horange. reflexivity. }
  all: rewrite get_player_stats_from_replay_unfold.
  - intros Hfound.
    destruct (scan_players_found "blue" _ _ Hfound) as (p & _ & _ & ->).
    eexists. split; [reflexivity|]. split; [reflexivity|].
    rewrite won_extract_blue, Hblue, Horange. reflexivity.
  - intros Hnone Hfound.
    apply (scan_players_none "blue") in Hnone. rewrite Hnone.
    destruct (scan_players_found "orange" _ _ Hfound) as (p & _ & _ & ->).
    eexists. split; [reflexivity|]. split; [reflexivity|].
    rewrite won_extract_orange, Hblue, Horange. reflexivity.
Qed.

(** C9. When the two aggregate goal totals are equal, every record that the
    extraction returns has [won = false], and it does return a record for a
    lookup name that matches an entry of either roster. *)
Theorem tie_is_not_a_win (player_name : string) :
  team_goals replay_data "blue" = team_goals replay_data "orange" ->
  (forall stats,
     get_player_stats_from_replay replay_data player_name = Some stats ->
     won stats = false)
  /\
  (forall team_color player,
     team_color = "blue" \/ team_color = "orange" ->
     In player (players_of replay_data team_color) ->
     name_matches player player_name = true ->
     exists stats,
       get_player_stats_from_replay replay_data player_name = Some stats
       /\ won stats = false).
Proof.
  intros Htie.
  assert (Hwon : forall stats,
             get_player_stats_from_replay replay_data player_name = Some stats ->
             won stats = false).
  { intros stats Hget.
    destruct (get_player_stats_from_replay_some _ _ Hget)
      as (c & p & [-> | ->] & _ & _ & ->).
    - rewrite won_extract_blue, Htie, Z.gtb_ltb. apply Z.ltb_irrefl.
    - rewrite won_extract_orange, Htie, Z.gtb_ltb. apply Z.ltb_irrefl. }
  split; [exact Hwon|].
  intros c p Hc Hin Hm.
  destruct (get_player_stats_from_replay replay_data player_name)
    as [stats|] eqn:Hget.
  - exists stats. split; [reflexivity | now apply Hwon].
  - exfalso. rewrite get_player_stats_from_replay_unfold in Hget.
    destruct (scan_players replay_data "blue" _ player_name) eqn:Hb;
      [discriminate|].
    rewrite scan_players_none in Hb, Hget.
    destruct Hc as [-> | ->];
      [rewrite (Hb p Hin) in Hm | rewrite (Hget p Hin) in Hm]; discriminate.
Qed.

(** C7. For a roster entry named "Foo": the lookup names "foo" and "FOO"
    match it and "Foobar" does not; with "foo" or "FOO" the extraction
    returns the record of that entry when it is the first match of the scan
    (on the blue roster, or on the orange one when the blue one has no
    match); with "Foobar" the extraction never returns the record of an
    entry named "Foo", and returns nothing when the rosters hold only such
    entries. *)
Theorem name_match_case_insensitive_exact (foo : Player F) :
  pl_name foo = Some "Foo" ->
  (name_matches foo "foo" = true
   /\ name_matches foo "FOO" = true
   /\ name_matches foo "Foobar" = false)
  /\
  (forall lookup, lookup = "foo" \/ lookup = "FOO" ->
     (forall before after,
        players_of replay_data "blue" = (before ++ foo :: after)%list ->
        (forall q, In q before -> name_matches q lookup = false) ->
        get_player_stats_from_replay replay_data lookup
        = Some (extract replay_data "blue" foo))
     /\
     (forall before after,
        (forall q, In q (players_of replay_data "blue") ->
                   name_matches q lookup = false) ->
        players_of replay_data "orange" = (before ++ foo :: after)%list ->
        (forall q, In q before -> name_matches q lookup = false) ->
        get_player_stats_from_replay replay_data lookup
        = Some (extract replay_data "orange" foo)))
  /\
  (forall stats,
     get_player_stats_from_replay replay_data "Foobar" = Some stats ->
     player_name stats <> Some "Foo")
  /\
  ((forall team_color q, In q (players_of replay_data team_color) ->
                         pl_name q = Some "Foo") ->
   get_player_stats_from_replay replay_data "Foobar" = None).
Proof.
  intros Hname.
  assert (Hfoo : name_matches foo "foo" = true)
    by (unfold name_matches; rewrite Hname; reflexivity).
  assert (HFOO : name_matches foo "FOO" = true)
    by (unfold name_matches; rewrite Hname; reflexivity).
  assert (Hnot : forall q : Player F,
             pl_name q = Some "Foo" -> name_matches q "Foobar" = false)
    by (intros q Hq; unfold name_matches; rewrite Hq; reflexivity).
  split; [auto|]. split; [|split].
  - intros lookup Hlookup.
    assert (Hm : name_matches foo lookup = true) by (destruct Hlookup; subst; assumption).
    split.
    + intros before after Hroster Hbefore.
      rewrite get_player_stats_from_replay_unfold, Hroster.
      now rewrite (scan_players_first "blue" before after foo lookup Hbefore Hm).
    + intros before after Hblue Hroster Hbefore.
      rewrite get_player_stats_from_replay_unfold.
      apply (scan_players_none "blue") in Hblue. rewrite Hblue, Hroster.
      exact (scan_players_first "orange" before after foo lookup Hbefore Hm).
  - intros stats Hget Hstats.
    destruct (get_player_stats_from_replay_some _ _ Hget)
      as (c & p & _ & _ & Hm & ->).
    simpl in Hstats. rewrite (Hnot p Hstats) in Hm. discriminate.
  - intros Hall. rewrite get_player_stats_from_replay_unfold.
    assert (Hside : forall c, scan_players replay_data c
                                (players_of replay_data c) "Foobar" = None).
    { intros c. apply scan_players_none. intros q Hq.
      apply Hnot. exact (Hall c q Hq). }
    now rewrite !Hside.
Qed.

End ReplayClient.

(** The three properties above at the fixtures. *)
Lemma win_determination_blue3_orange1_witness :
  (exists stats,
     BallchasingAPI.get_player_stats_from_replay Fixtures.replay_3_1 "foo"
     = Some stats
     /\ BallchasingAPI.team stats = "blue"
     /\ BallchasingAPI.won stats = true)
  /\
  (exists stats,
     BallchasingAPI.get_player_stats_from_replay Fixtures.replay_3_1 "BAR"
     = Some stats
     /\ BallchasingAPI.team stats = "orange"
     /\ BallchasingAPI.won stats = false).
Proof.
  split.
  - apply (proj1 (win_determination_blue3_orange1 Fixtures.replay_3_1 "foo"
                    eq_refl eq_refl)).
    exists (Fixtures.player_named "Foo"). split; [simpl; auto | reflexivity].
  - apply (proj1 (proj2 (win_determination_blue3_orange1 Fixtures.replay_3_1
                           "BAR" eq_refl eq_refl))).
    + intros q [<- | [<- | []]]; reflexivity.
    + exists (Fixtures.player_named "Bar"). split; [simpl; auto | reflexivity].
Defined.

Lemma tie_is_not_a_win_witness :
  exists stats,
    BallchasingAPI.get_player_stats_from_replay Fixtures.replay_2_2 "bar"
    = Some stats
    /\ BallchasingAPI.won stats = false.
Proof.
  apply (proj2 (tie_is_not_a_win Fixtures.replay_2_2 "bar" eq_refl)
               "orange" (Fixtures.player_named "Bar")).
  - now right.
  - simpl; auto.
  - reflexivity.
Defined.

Lemma name_match_case_insensitive_exact_witness :
  BallchasingAPI.get_player_stats_from_replay Fixtures.replay_3_1 "FOO"
  = Some (BallchasingAPI.extract Fixtures.replay_3_1 "blue"
            (Fixtures.player_named "Foo"))
  /\ BallchasingAPI.get_player_stats_from_replay Fixtures.replay_2_2 "Foobar"
     <> Some (BallchasingAPI.extract Fixtures.replay_2_2 "blue"
                (Fixtures.player_named "Foo")).
Proof.
  pose proof (name_match_case_insensitive_exact Fixtures.replay_3_1
                (Fixtures.player_named "Foo") eq_refl) as (_ & Hfirst & _).
  pose proof (name_match_case_insensitive_exact Fixtures.replay_2_2
                (Fixtures.player_named "Foo") eq_refl) as (_ & _ & Hnever & _).
  split.
  - apply (proj1 (Hfirst "FOO" (or_intror eq_refl))
             [Fixtures.player_named "Ann"] []); [reflexivity|].
    intros q [<- | []]. reflexivity.
  - intros Hget. exact (Hnever _ Hget eq_refl).
Defined.

(** * Properties of the match store *)

Section MatchStore.

Import RocketLeagueDB.

Context {F : Type}.

Implicit Types (db : DB F).

Lemma find_of_existsb {A : Type} (f : A -> bool) (l : list A) :
  existsb f l = true -> exists x, find f l = Some x.
Proof.
  induction l as [|a l IH]; simpl; [discriminate|].
  destruct (f a); [eauto | exact IH].
Qed.

(** After the INSERT OR IGNORE the name is in the table, so the SELECT of
    [add_player] finds a row, and [fetchone()[0]] has a row to index. *)
Lemma add_player_total db name now :
  exists player_id,
    add_player db name now
    = Some (insert_or_ignore_player db name now, player_id).
Proof.
  unfold add_player, select_player_id.
  assert (Hex : existsb (fun p => (players.player_name p =? name)%string)
                  (tbl_players (insert_or_ignore_player db name now)) = true).
  { unfold insert_or_ignore_player, player_name_taken; simpl.
    destruct (existsb _ (tbl_players db)) eqn:Htaken; [assumption|].
    rewrite existsb_app; simpl. rewrite String.eqb_refl.
    now rewrite orb_true_r. }
  destruct (find_of_existsb _ _ Hex) as (p & ->). simpl. eauto.
Qed.

(** The uniqueness test is membership among the ids present. *)
Lemma replay_id_taken_spec db (r : string) :
  replay_id_taken db (Some r) = true <-> In r (replay_ids (tbl_match_history db)).
Proof.
  unfold replay_id_taken, replay_ids. rewrite existsb_exists, in_flat_map.
  split; intros (x & Hin & Hx); exists x; (split; [assumption|]);
    destruct (match_history.replay_id x) as [r'|]; try easy.
  - apply String.eqb_eq in Hx. subst. now left.
  - destruct Hx as [-> | []]. apply String.eqb_refl.
Qed.

Lemma replay_ids_app (l1 l2 : list (match_history.row F)) :
  replay_ids (l1 ++ l2) = (replay_ids l1 ++ replay_ids l2)%list.
Proof. apply flat_map_app. Qed.

(** One INSERT OR IGNORE keeps the table duplicate-free. *)
Lemma insert_or_ignore_match_unique db player_id
    (m : BallchasingAPI.MatchStats F) :
  replay_id_unique db ->
  replay_id_unique (insert_or_ignore_match db player_id m).
Proof.
  unfold replay_id_unique, insert_or_ignore_match; simpl.
  intros Hdb.
  destruct (replay_id_taken db (BallchasingAPI.replay_id m)) eqn:Htaken;
    [assumption|].
  rewrite replay_ids_app; simpl.
  destruct (BallchasingAPI.replay_id m) as [r|] eqn:Hr; simpl.
  - apply NoDup_app; [assumption | repeat constructor; easy |].
    intros x Hx [<- | []].
    apply replay_id_taken_spec in Hx. congruence.
  - now rewrite app_nil_r.
Qed.

(** What the loop leaves behind: the players untouched, the old rows kept
    in place, and behind them the rows of the records whose [replay_id] was
    free; the counter has advanced once per record. *)
Lemma insert_rows_spec (match_data : list (BallchasingAPI.MatchStats F)) :
  forall db player_id games_added,
  exists added,
    fst (insert_rows db player_id match_data games_added)
    = {| tbl_players := tbl_players db;
         tbl_match_history := (tbl_match_history db ++ added)%list;
         seq_players := seq_players db;
         seq_match_history := seq_match_history db + len match_data |}
    /\ snd (insert_rows db player_id match_data games_added)
       = games_added + len match_data
    /\ Forall (fun row =>
                 match_history.player_id row = player_id
                 /\ replay_id_taken db (match_history.replay_id row) = false
                 /\ exists m, In m match_data
                              /\ match_history.replay_id row
                                 = BallchasingAPI.replay_id m)
              added.
Proof.
  induction match_data as [|m rest IH]; intros db player_id games_added.
  - exists []. simpl. rewrite app_nil_r, Z.add_0_r.
    destruct db; simpl. rewrite Z.add_0_r. auto.
  - simpl insert_rows.
    destruct (IH (insert_or_ignore_match db player_id m) player_id
                 (games_added + 1)) as (added & Hdb & Hn & Hadded).
    rewrite Hdb, Hn. unfold len. simpl List.length.
    rewrite Nat2Z.inj_succ.
    unfold insert_or_ignore_match in *; simpl in *.
    destruct (replay_id_taken db (BallchasingAPI.replay_id m)) eqn:Htaken.
    + exists added. split; [f_equal; lia|]. split; [lia|].
      eapply Forall_impl; [|exact Hadded].
      intros row (Hp & Hfree & m' & Hin & Hid). split; [assumption|].
      split; [|eauto].
      destruct (match_history.replay_id row) as [r|]; [|reflexivity].
      exact Hfree.
    + exists (new_row (seq_match_history db + 1) player_id m :: added).
      split; [rewrite <- app_assoc; simpl; f_equal; lia|]. split; [lia|].
      constructor.
      * simpl. split; [reflexivity|]. split; [assumption|]. eauto.
      * eapply Forall_impl; [|exact Hadded].
        intros row (Hp & Hfree & m' & Hin & Hid). split; [assumption|].
        split; [|eauto].
        destruct (match_history.replay_id row) as [r|]; [|reflexivity].
        simpl in Hfree. rewrite existsb_app in Hfree.
        apply orb_false_iff in Hfree. apply Hfree.
Qed.

(** The loop keeps the table duplicate-free. *)
Lemma insert_rows_unique (match_data : list (BallchasingAPI.MatchStats F)) :
  forall db player_id games_added,
    replay_id_unique db ->
    replay_id_unique (fst (insert_rows db player_id match_data games_added)).
Proof.
  induction match_data as [|m rest IH]; intros db player_id games_added Hdb.
  - exact Hdb.
  - simpl. apply IH. now apply insert_or_ignore_match_unique.
Qed.

(** Uniqueness in the table is uniqueness among the rows of every player. *)
Lemma unique_per_player_of_unique db :
  replay_id_unique db -> replay_id_unique_per_player db.
Proof.
  unfold replay_id_unique, replay_id_unique_per_player, rows_of_player.
  intros Hdb player_id.
  induction (tbl_match_history db) as [|row rows IH]; simpl; [constructor|].
  assert (Hsub : forall r, In r (replay_ids (filter
                   (fun m => match_history.player_id m =? player_id) rows)) ->
                 In r (replay_ids rows)).
  { intros r. unfold replay_ids. rewrite !in_flat_map.
    intros (x & Hx & Hr). apply filter_In in Hx. exists x. tauto. }
  simpl in Hdb.
  destruct (match_history.player_id row =? player_id); simpl;
    destruct (match_history.replay_id row) as [r|]; simpl in *;
    try (apply IH; now inversion Hdb); try (now apply IH).
  inversion Hdb as [|? ? Hnotin Hrest]; subst.
  constructor; [|now apply IH].
  intros Hin. apply Hnotin. now apply Hsub.
Qed.

(** The loop raises exactly when a record of the batch does not bind;
    when none does, it is one INSERT OR IGNORE per record. *)
Lemma insert_matches_rows (match_data : list (BallchasingAPI.MatchStats F)) :
  forall db player_id games_added,
    insert_matches db player_id match_data games_added
    = if batch_binds match_data
      then Returns (insert_rows db player_id match_data games_added)
      else Raises OverflowError.
Proof.
  induction match_data as [|m rest IH]; intros db player_id games_added;
    [reflexivity|].
  unfold batch_binds in *. simpl.
  destruct (binds m); simpl; [apply IH | reflexivity].
Qed.

(** What [add_match_history] leaves behind, on a batch that binds and on
    one that does not. *)
Lemma add_match_history_spec db name
    (match_data : list (BallchasingAPI.MatchStats F)) (now_add now_upd : Z) :
  exists player_id added,
    add_player db name now_add
    = Some (insert_or_ignore_player db name now_add, player_id)
    /\ add_match_history db name match_data now_add now_upd
       = (if batch_binds match_data
          then (update_player
                  (fst (insert_rows (insert_or_ignore_player db name now_add)
                                    player_id match_data 0))
                  player_id now_upd,
                Returns (len match_data))
          else (insert_or_ignore_player db name now_add,
                Raises OverflowError))
    /\ tbl_match_history
         (fst (insert_rows (insert_or_ignore_player db name now_add)
                           player_id match_data 0))
       = (tbl_match_history db ++ added)%list
    /\ Forall (fun row =>
                 match_history.player_id row = player_id
                 /\ replay_id_taken db (match_history.replay_id row) = false)
              added.
Proof.
  destruct (add_player_total db name now_add) as (player_id & Hadd).
  destruct (insert_rows_spec match_data
              (insert_or_ignore_player db name now_add) player_id 0)
    as (added & Hdb & Hn & Hadded).
  exists player_id, added. split; [exact Hadd|].
  unfold add_match_history. rewrite Hadd, insert_matches_rows.
  destruct (insert_rows _ player_id match_data 0) as [db2 n] eqn:Hloop.
  simpl in *. subst n. split; [now destruct (batch_binds match_data)|].
  rewrite Hdb. simpl. split; [reflexivity|].
  eapply Forall_impl; [|exact Hadded]. intros row (Hp & Hfree & _). auto.
Qed.

(** The empty store has no duplicate. *)
Lemma create_tables_unique : replay_id_unique (@create_tables F).
Proof. constructor. Qed.

(** [add_match_history] keeps the table duplicate-free, however it ends. *)
Lemma replay_id_unique_preserved_aux db name
    (match_data : list (BallchasingAPI.MatchStats F)) (now_add now_upd : Z)
    (db' : DB F) (outcome : result Z) :
  replay_id_unique db ->
  add_match_history db name match_data now_add now_upd = (db', outcome) ->
  replay_id_unique db'.
Proof.
  intros Hdb Hcall.
  destruct (add_match_history_spec db name match_data now_add now_upd)
    as (player_id & added & _ & Hcall' & _).
  rewrite Hcall' in Hcall.
  destruct (batch_binds match_data); injection Hcall as <- _.
  - unfold replay_id_unique; simpl.
    apply (insert_rows_unique match_data
             (insert_or_ignore_player db name now_add) player_id 0).
    exact Hdb.
  - exact Hdb.
Qed.

(** C1 (amended). A [replay_id], when present, is unique in the whole of
    [match_history], hence among the rows of every player, and every call
    of [add_match_history] preserves this, whether it returns or raises:
    the rows stored before stay as they are, and the only rows added are
    those of records whose [replay_id] no row of the table -- of this
    player or of any other -- carried before the call. *)
Theorem replay_id_unique_preserved db name
    (match_data : list (BallchasingAPI.MatchStats F)) (now_add now_upd : Z)
    (db' : DB F) (outcome : result Z) :
  replay_id_unique db ->
  add_match_history db name match_data now_add now_upd = (db', outcome) ->
  replay_id_unique db'
  /\ replay_id_unique_per_player db'
  /\ exists added,
       tbl_match_history db' = (tbl_match_history db ++ added)%list
       /\ Forall (fun row =>
                    replay_id_taken db (match_history.replay_id row) = false)
                 added.
Proof.
  intros Hdb Hcall.
  destruct (add_match_history_spec db name match_data now_add now_upd)
    as (player_id & added & _ & Hcall' & Htbl & Hadded).
  rewrite Hcall' in Hcall.
  destruct (batch_binds match_data); injection Hcall as <- _.
  - assert (Huniq : replay_id_unique
                      (update_player
                         (fst (insert_rows
                                 (insert_or_ignore_player db name now_add)
                                 player_id match_data 0))
                         player_id now_upd)).
    { unfold replay_id_unique; simpl.
      apply (insert_rows_unique match_data
               (insert_or_ignore_player db name now_add) player_id 0).
      exact Hdb. }
    split; [exact Huniq|].
    split; [now apply unique_per_player_of_unique|].
    exists added. split; [exact Htbl|].
    eapply Forall_impl; [|exact Hadded]. now intros row (_ & Hfree).
  - split; [exact Hdb|].
    split; [now apply unique_per_player_of_unique|].
    exists []. split; [simpl; now rewrite app_nil_r | constructor].
Qed.

(** So the invariant holds in every state that the store can reach. *)
Lemma reachable_unique db : reachable db -> replay_id_unique db.
Proof.
  induction 1 as [|db name now db' pid _ IH Hadd
                  |db name match_data now_add now_upd db' outcome _ IH Hcall].
  - apply create_tables_unique.
  - destruct (add_player_total db name now) as (pid' & Hadd').
    rewrite Hadd' in Hadd. injection Hadd as <- _. exact IH.
  - exact (replay_id_unique_preserved_aux _ _ _ _ _ _ _ IH Hcall).
Qed.

(** How [add_match_history] ends: it returns exactly when every record of
    the batch binds, and the [games_added] it then reports is the number of
    records of the batch, whether they were inserted or skipped. *)
Theorem games_added_is_batch_size db name
    (match_data : list (BallchasingAPI.MatchStats F)) (now_add now_upd : Z) :
  snd (add_match_history db name match_data now_add now_upd)
  = if batch_binds match_data then Returns (len match_data)
    else Raises OverflowError.
Proof.
  destruct (add_match_history_spec db name match_data now_add now_upd)
    as (player_id & added & _ & -> & _).
  now destruct (batch_binds match_data).
Qed.

(** The uniqueness test looks at [match_history] alone. *)
Lemma replay_id_taken_ext db1 db2 (rid : option string) :
  tbl_match_history db1 = tbl_match_history db2 ->
  replay_id_taken db1 rid = replay_id_taken db2 rid.
Proof. unfold replay_id_taken. now intros ->. Qed.

(** An id that is taken stays taken when rows are appended. *)
Lemma replay_id_taken_mono db1 db2 (added : list (match_history.row F))
    (rid : option string) :
  tbl_match_history db2 = (tbl_match_history db1 ++ added)%list ->
  replay_id_taken db1 rid = true -> replay_id_taken db2 rid = true.
Proof.
  unfold replay_id_taken. intros ->. destruct rid as [r|]; [|easy].
  rewrite existsb_app. now intros ->.
Qed.

(** After one INSERT OR IGNORE of an identified record its id is taken. *)
Lemma replay_id_taken_after_insert db player_id
    (m : BallchasingAPI.MatchStats F) :
  BallchasingAPI.replay_id m <> None ->
  replay_id_taken (insert_or_ignore_match db player_id m)
                  (BallchasingAPI.replay_id m) = true.
Proof.
  intros Hid. unfold insert_or_ignore_match.
  destruct (replay_id_taken db (BallchasingAPI.replay_id m)) eqn:Htaken.
  - erewrite replay_id_taken_ext; [exact Htaken | reflexivity].
  - destruct (BallchasingAPI.replay_id m) as [r|] eqn:Hr; [|congruence].
    unfold replay_id_taken; simpl. rewrite existsb_app; simpl.
    rewrite Hr, String.eqb_refl. now rewrite orb_true_r.
Qed.

(** After the loop the id of every identified record of the batch is
    taken. *)
Lemma insert_rows_all_taken
    (match_data : list (BallchasingAPI.MatchStats F)) :
  all_identified match_data ->
  forall db player_id games_added m,
    In m match_data ->
    replay_id_taken (fst (insert_rows db player_id match_data games_added))
                    (BallchasingAPI.replay_id m) = true.
Proof.
  induction 1 as [|m0 rest Hid Hrest IH];
    intros db player_id games_added m Hin; [destruct Hin|].
  simpl. destruct Hin as [<- | Hin]; [|now apply IH].
  destruct (insert_rows_spec rest (insert_or_ignore_match db player_id m0)
              player_id (games_added + 1)) as (added & Hdb & _).
  eapply replay_id_taken_mono.
  - rewrite Hdb. reflexivity.
  - now apply replay_id_taken_after_insert.
Qed.

(** A loop over records whose ids are all taken adds no row. *)
Lemma insert_rows_nothing_new
    (match_data : list (BallchasingAPI.MatchStats F)) :
  forall db player_id games_added,
    (forall m, In m match_data ->
               replay_id_taken db (BallchasingAPI.replay_id m) = true) ->
    tbl_match_history (fst (insert_rows db player_id match_data games_added))
    = tbl_match_history db.
Proof.
  induction match_data as [|m0 rest IH]; intros db player_id games_added Hall;
    [reflexivity|].
  simpl. rewrite IH.
  - unfold insert_or_ignore_match; simpl.
    now rewrite (Hall m0 (or_introl eq_refl)).
  - intros m Hin. erewrite replay_id_taken_ext; [apply Hall; now right|].
    unfold insert_or_ignore_match; simpl.
    now rewrite (Hall m0 (or_introl eq_refl)).
Qed.

(** The loop does not touch [players]. *)
Lemma insert_rows_players
    (match_data : list (BallchasingAPI.MatchStats F)) db player_id games_added :
  tbl_players (fst (insert_rows db player_id match_data games_added))
  = tbl_players db.
Proof.
  destruct (insert_rows_spec match_data db player_id games_added)
    as (added & -> & _). reflexivity.
Qed.

Lemma update_player_keys db player_id now :
  map player_key (tbl_players (update_player db player_id now))
  = map player_key (tbl_players db).
Proof.
  unfold update_player; simpl. rewrite map_map. apply map_ext.
  intros p. now destruct (players.player_id p =? player_id).
Qed.

(** Looking a name up in two tables whose rows have the same keys. *)
Lemma find_by_name_keys (name : string) (l1 l2 : list players.row) :
  map player_key l1 = map player_key l2 ->
  option_map player_key
    (find (fun p => (players.player_name p =? name)%string) l1)
  = option_map player_key
      (find (fun p => (players.player_name p =? name)%string) l2).
Proof.
  revert l2. induction l1 as [|p l1 IH]; intros [|q l2]; simpl;
    try discriminate; [reflexivity|].
  intros [= Hid Hname Hrest]. rewrite Hname.
  destruct (players.player_name q =? name)%string; simpl.
  - unfold player_key. now rewrite Hid, Hname.
  - now apply IH.
Qed.

Lemma select_player_id_keys db1 db2 (name : string) :
  map player_key (tbl_players db1) = map player_key (tbl_players db2) ->
  select_player_id db1 name = select_player_id db2 name.
Proof.
  intros Hkeys. apply (find_by_name_keys name) in Hkeys.
  unfold select_player_id.
  destruct (find _ (tbl_players db1)), (find _ (tbl_players db2));
    unfold player_key in *; simpl in *; congruence.
Qed.

Lemma player_name_taken_keys db1 db2 (name : string) :
  map player_key (tbl_players db1) = map player_key (tbl_players db2) ->
  player_name_taken db1 name = player_name_taken db2 name.
Proof.
  unfold player_name_taken.
  generalize (tbl_players db1) (tbl_players db2).
  intros l1. induction l1 as [|p l1 IH]; intros [|q l2]; simpl;
    try discriminate; [reflexivity|].
  intros [= Hid Hname Hrest]. rewrite Hname. f_equal. now apply IH.
Qed.

(** The join of [get_player_stats] reads [match_history] and the keys of
    [players]. *)
Lemma get_player_stats_keys db1 db2 (name : string) :
  tbl_match_history db1 = tbl_match_history db2 ->
  map player_key (tbl_players db1) = map player_key (tbl_players db2) ->
  get_player_stats db1 name = get_player_stats db2 name.
Proof.
  unfold get_player_stats. intros -> Hkeys. f_equal.
  apply flat_map_ext. intros row.
  revert Hkeys. generalize (tbl_players db1) (tbl_players db2).
  intros l1. induction l1 as [|p l1 IH]; intros [|q l2]; simpl;
    try discriminate; [reflexivity|].
  intros [= Hid Hname Hrest]. rewrite Hid, Hname.
  destruct (_ && _)%bool; simpl; [f_equal|]; now apply IH.
Qed.

(** The [total_games] that the UPDATE leaves for a name. *)
Lemma stored_total_games_update db player_id now (name : string) :
  stored_total_games (update_player db player_id now) name
  = option_map
      (fun p => if players.player_id p =? player_id
                then count_matches db player_id
                else players.total_games p)
      (find (fun p => (players.player_name p =? name)%string)
            (tbl_players db)).
Proof.
  unfold stored_total_games, update_player; simpl.
  induction (tbl_players db) as [|p l IH]; simpl; [reflexivity|].
  destruct (players.player_id p =? player_id) eqn:Hid; simpl;
    destruct (players.player_name p =? name)%string; simpl;
    try rewrite Hid; auto.
Qed.

Lemma count_matches_ext db1 db2 player_id :
  tbl_match_history db1 = tbl_match_history db2 ->
  count_matches db1 player_id = count_matches db2 player_id.
Proof. unfold count_matches. now intros ->. Qed.

(** Once a name is in [players], [add_player] changes no row. *)
Lemma insert_or_ignore_player_taken db (name : string) (now : Z) :
  player_name_taken db name = true ->
  tbl_players (insert_or_ignore_player db name now) = tbl_players db.
Proof. unfold insert_or_ignore_player; simpl. now intros ->. Qed.

Lemma player_name_taken_after_insert db (name : string) (now : Z) :
  player_name_taken (insert_or_ignore_player db name now) name = true.
Proof.
  unfold player_name_taken at 1, insert_or_ignore_player; simpl.
  destruct (player_name_taken db name) eqn:Htaken; [exact Htaken|].
  rewrite existsb_app; simpl. rewrite String.eqb_refl. now rewrite orb_true_r.
Qed.

(** On a batch that binds and whose records all carry a [replay_id], the
    second call inserts nothing. *)
Lemma reingest_of_a_bound_batch db (name : string)
    (match_data : list (BallchasingAPI.MatchStats F))
    (now_add now_upd now_add' now_upd' : Z) :
  all_identified match_data ->
  batch_binds match_data = true ->
  exists db1 db2,
    add_match_history db name match_data now_add now_upd
    = (db1, Returns (len match_data))
    /\ add_match_history db1 name match_data now_add' now_upd'
       = (db2, Returns (len match_data))
    /\ tbl_match_history db2 = tbl_match_history db1
    /\ get_player_stats db2 name = get_player_stats db1 name
    /\ stored_total_games db2 name = stored_total_games db1 name.
Proof.
  intros Hids Hbinds.
  destruct (add_match_history_spec db name match_data now_add now_upd)
    as (pid & added & Hadd & Hcall & _).
  rewrite Hbinds in Hcall.
  set (dbA := insert_or_ignore_player db name now_add) in *.
  set (dbB := fst (insert_rows dbA pid match_data 0)) in *.
  set (db1 := update_player dbB pid now_upd) in *.
  destruct (add_match_history_spec db1 name match_data now_add' now_upd')
    as (pid' & added' & Hadd' & Hcall' & _).
  rewrite Hbinds in Hcall'.
  set (dbA' := insert_or_ignore_player db1 name now_add') in *.
  set (dbB' := fst (insert_rows dbA' pid' match_data 0)) in *.
  (* the keys of [players] after the first call are those of [dbA] *)
  assert (Hkeys1 : map player_key (tbl_players db1)
                   = map player_key (tbl_players dbA)).
  { unfold db1. rewrite update_player_keys. unfold dbB.
    now rewrite insert_rows_players. }
  assert (Htaken : player_name_taken db1 name = true).
  { rewrite (player_name_taken_keys db1 dbA name Hkeys1).
    apply player_name_taken_after_insert. }
  assert (HplayersA' : tbl_players dbA' = tbl_players db1)
    by (apply insert_or_ignore_player_taken; exact Htaken).
  (* so the second call works on the same [player_id] *)
  assert (Hpid : pid' = pid).
  { unfold add_player in Hadd, Hadd'. fold dbA in Hadd. fold dbA' in Hadd'.
    assert (Hsel : select_player_id dbA' name = select_player_id dbA name).
    { apply select_player_id_keys. now rewrite HplayersA'. }
    rewrite Hsel in Hadd'.
    destruct (select_player_id dbA name); congruence. }
  subst pid'.
  (* and inserts nothing *)
  assert (HtblB' : tbl_match_history dbB' = tbl_match_history db1).
  { unfold dbB'. rewrite insert_rows_nothing_new; [reflexivity|].
    intros m Hin.
    rewrite (replay_id_taken_ext dbA' dbB) by reflexivity.
    now apply insert_rows_all_taken. }
  exists db1, (update_player dbB' pid now_upd').
  split; [exact Hcall|]. split; [exact Hcall'|].
  split; [exact HtblB'|]. split.
  - apply get_player_stats_keys; [exact HtblB'|].
    rewrite update_player_keys. unfold dbB'.
    now rewrite insert_rows_players, HplayersA'.
  - rewrite stored_total_games_update.
    replace (tbl_players dbB') with (tbl_players db1)
      by (unfold dbB'; now rewrite insert_rows_players, HplayersA').
    rewrite (count_matches_ext dbB' dbB pid) by exact HtblB'.
    change (stored_total_games db1 name)
      with (stored_total_games (update_player dbB pid now_upd) name).
    rewrite stored_total_games_update.
    unfold db1, update_player; simpl.
    induction (tbl_players dbB) as [|p l IH]; simpl; [reflexivity|].
    destruct (players.player_id p =? pid) eqn:Hp; simpl;
      destruct (players.player_name p =? name)%string; simpl;
      try rewrite Hp; auto.
Qed.

(** C3 (amended). For a batch whose records all carry a [replay_id], a
    second call of [add_match_history] with the same name and batch ends
    as the first did and leaves [match_history] as the first call left it,
    and so the rows that [get_player_stats] returns for the player and the
    [total_games] stored for the player. *)
Theorem reingest_is_idempotent db (name : string)
    (match_data : list (BallchasingAPI.MatchStats F))
    (now_add now_upd now_add' now_upd' : Z)
    (db1 db2 : DB F) (outcome1 outcome2 : result Z) :
  all_identified match_data ->
  add_match_history db name match_data now_add now_upd = (db1, outcome1) ->
  add_match_history db1 name match_data now_add' now_upd' = (db2, outcome2) ->
  outcome2 = outcome1
  /\ tbl_match_history db2 = tbl_match_history db1
  /\ get_player_stats db2 name = get_player_stats db1 name
  /\ stored_total_games db2 name = stored_total_games db1 name.
Proof.
  intros Hids Hcall1 Hcall2.
  destruct (batch_binds match_data) eqn:Hbinds.
  - (* both calls return *)
    destruct (reingest_of_a_bound_batch db name match_data now_add now_upd
                now_add' now_upd' Hids Hbinds)
      as (db1' & db2' & Hfirst & Hsecond & Htbl & Hstats & Htotal).
    rewrite Hfirst in Hcall1. injection Hcall1 as <- <-.
    rewrite Hsecond in Hcall2. injection Hcall2 as <- <-.
    auto.
  - (* both calls raise, and leave what their [add_player] committed *)
    destruct (add_match_history_spec db name match_data now_add now_upd)
      as (pid & added & _ & Hcall & _).
    rewrite Hcall, Hbinds in Hcall1. injection Hcall1 as <- <-.
    destruct (add_match_history_spec
                (insert_or_ignore_player db name now_add) name match_data
                now_add' now_upd')
      as (pid' & added' & _ & Hcall' & _).
    rewrite Hcall', Hbinds in Hcall2. injection Hcall2 as <- <-.
    assert (Hplayers :
              tbl_players (insert_or_ignore_player
                             (insert_or_ignore_player db name now_add)
                             name now_add')
              = tbl_players (insert_or_ignore_player db name now_add))
      by apply insert_or_ignore_player_taken, player_name_taken_after_insert.
    split; [reflexivity|]. split; [reflexivity|]. split.
    + apply get_player_stats_keys; [reflexivity | now rewrite Hplayers].
    + unfold stored_total_games. now rewrite Hplayers.
Qed.

End MatchStore.

(** The store at the fixtures: two tracked players who shared a replay. *)

(** C1 (counterexample). Squishy and justin. both played the replay
    "r-shared", and the client extracts a record of it for each of them.
    Once Squishy's record is stored, the ingest of justin.'s reports one
    game added, yet no row is stored for justin.: the replay has produced
    one record in all, not one per tracked player. *)
Lemma shared_replay_is_stored_for_one_player_only :
  exists db1 db2,
    RocketLeagueDB.add_match_history Fixtures.fresh_db "Squishy"
      (Fixtures.history_of Fixtures.replay_shared "Squishy") 1 2
    = (db1, Returns 1)
    /\ List.length (Fixtures.history_of Fixtures.replay_shared "justin.") = 1%nat
    /\ RocketLeagueDB.add_match_history db1 "justin."
         (Fixtures.history_of Fixtures.replay_shared "justin.") 3 4
       = (db2, Returns 1)
    /\ List.length (RocketLeagueDB.get_player_stats db2 "Squishy") = 1%nat
    /\ RocketLeagueDB.get_player_stats db2 "justin." = []
    /\ RocketLeagueDB.stored_total_games db2 "justin." = Some 0.
Proof.
  do 2 eexists.
  split; [vm_compute; reflexivity|].
  split; [vm_compute; reflexivity|].
  split; [vm_compute; reflexivity|].
  repeat split; vm_compute; reflexivity.
Qed.

Lemma replay_id_unique_preserved_witness :
  replay_id_unique Fixtures.stored_squishy
  /\ replay_id_unique_per_player Fixtures.stored_squishy
  /\ exists added,
       RocketLeagueDB.tbl_match_history Fixtures.stored_squishy
       = (RocketLeagueDB.tbl_match_history Fixtures.fresh_db ++ added)%list
       /\ Forall (fun row =>
                    RocketLeagueDB.replay_id_taken Fixtures.fresh_db
                      (RocketLeagueDB.match_history.replay_id row) = false)
                 added.
Proof.
  apply (replay_id_unique_preserved Fixtures.fresh_db "Squishy"
           (Fixtures.history_of Fixtures.replay_shared "Squishy") 1 2
           Fixtures.stored_squishy (Returns 1)).
  - constructor.
  - vm_compute. reflexivity.
Defined.

(** C2 (the failing input). The same one-record batch ingested twice: the
    second call inserts nothing and reports one game added. *)
Lemma games_added_counts_a_skipped_record :
  exists db1 db2,
    RocketLeagueDB.add_match_history Fixtures.fresh_db "Squishy"
      (Fixtures.history_of Fixtures.replay_shared "Squishy") 1 2
    = (db1, Returns 1)
    /\ RocketLeagueDB.add_match_history db1 "Squishy"
         (Fixtures.history_of Fixtures.replay_shared "Squishy") 3 4
       = (db2, Returns 1)
    /\ RocketLeagueDB.tbl_match_history db2
       = RocketLeagueDB.tbl_match_history db1
    /\ List.length (RocketLeagueDB.tbl_match_history db1) = 1%nat.
Proof.
  do 2 eexists.
  split; [vm_compute; reflexivity|].
  split; [vm_compute; reflexivity|].
  split; vm_compute; reflexivity.
Qed.

(** C3 (counterexample). A record extracted from a payload without an "id"
    has no [replay_id]; stored as NULL it conflicts with nothing, so the
    second ingest of the same batch stores it again and [total_games] goes
    from 1 to 2. *)
Lemma reingest_without_replay_id_duplicates :
  exists db1 db2,
    RocketLeagueDB.add_match_history Fixtures.fresh_db "Squishy"
      (Fixtures.history_of Fixtures.replay_without_id "Squishy") 1 2
    = (db1, Returns 1)
    /\ RocketLeagueDB.add_match_history db1 "Squishy"
         (Fixtures.history_of Fixtures.replay_without_id "Squishy") 3 4
       = (db2, Returns 1)
    /\ RocketLeagueDB.stored_total_games db1 "Squishy" = Some 1
    /\ RocketLeagueDB.stored_total_games db2 "Squishy" = Some 2
    /\ List.length (RocketLeagueDB.get_player_stats db1 "Squishy") = 1%nat
    /\ List.length (RocketLeagueDB.get_player_stats db2 "Squishy") = 2%nat.
Proof.
  do 2 eexists.
  split; [vm_compute; reflexivity|].
  split; [vm_compute; reflexivity|].
  repeat split; vm_compute; reflexivity.
Qed.

Lemma reingest_is_idempotent_witness :
  let second :=
    RocketLeagueDB.add_match_history Fixtures.stored_squishy "Squishy"
      (Fixtures.history_of Fixtures.replay_shared "Squishy") 3 4 in
  snd second = Returns 1
  /\ RocketLeagueDB.tbl_match_history (fst second)
     = RocketLeagueDB.tbl_match_history Fixtures.stored_squishy
  /\ RocketLeagueDB.get_player_stats (fst second) "Squishy"
     = RocketLeagueDB.get_player_stats Fixtures.stored_squishy "Squishy"
  /\ RocketLeagueDB.stored_total_games (fst second) "Squishy"
     = RocketLeagueDB.stored_total_games Fixtures.stored_squishy "Squishy".
Proof.
  intros second.
  apply (reingest_is_idempotent Fixtures.fresh_db "Squishy"
           (Fixtures.history_of Fixtures.replay_shared "Squishy") 1 2 3 4
           Fixtures.stored_squishy (fst second) (Returns 1) (snd second)).
  - repeat constructor. discriminate.
  - vm_compute. reflexivity.
  - apply surjective_pairing.
Defined.

(** * Properties of the analytics engine *)

Section Analytics.

Import RocketLeagueDB PlayerAnalytics.

Context {F : Type} `{Float64Ops F} `{SortValues F}.

Implicit Types (df : DataFrame F).

Lemma len_nonempty {A : Type} (l : list A) : l <> [] -> (len l =? 0) = false.
Proof.
  intros Hl. apply Z.eqb_neq. unfold len.
  destruct l; [congruence | simpl; lia].
Qed.

(** The sum of the bitwise complements of a column. *)
Lemma sum_int_invert (col : list Z) :
  sum_int (invert col) = - len col - sum_int col.
Proof.
  unfold len. induction col as [|x col IH]; [reflexivity|].
  simpl List.length. rewrite Nat2Z.inj_succ.
  simpl. rewrite IH. unfold Z.lnot. lia.
Qed.

(** On a column of dtype [bool], [~] is the logical negation, and the two
    sums would add up to the number of rows. *)
Lemma sum_of_boolean_column_and_negation (col : list bool) :
  sum_int (map Z.b2z col) + sum_int (map (fun b => Z.b2z (negb b)) col)
  = len col.
Proof.
  unfold len, sum_int in *. induction col as [|b col IH]; [reflexivity|].
  simpl List.length. rewrite Nat2Z.inj_succ.
  cbn [map fold_right]. destruct b; cbn [negb Z.b2z]; lia.
Qed.

(** What [get_summary_stats] computes on a non-empty frame, as the store
    hands it over: [total_games] is the number of rows and [losses] is
    minus the sum of [total_games] and [wins], so [wins + losses] is
    [- total_games]. *)
Theorem summary_wins_plus_losses df :
  df <> [] ->
  exists summary,
    get_summary_stats df = Some summary
    /\ SummaryStats.total_games summary = len df
    /\ SummaryStats.losses summary
       = - (SummaryStats.total_games summary + SummaryStats.wins summary)
    /\ SummaryStats.wins summary + SummaryStats.losses summary
       = - SummaryStats.total_games summary.
Proof.
  intros Hdf. unfold get_summary_stats. rewrite (len_nonempty df Hdf).
  eexists. split; [reflexivity|]. simpl.
  rewrite sum_int_invert. unfold col_won, len. rewrite length_map. lia.
Qed.

(** The order of [sort_values] is the specification's order of dates. *)
Lemma date_asc_no_later (a b : match_history.row F) :
  date_asc a b = true -> no_later a b.
Proof.
  unfold date_asc, no_later.
  destruct (match_history.date a) as [x|], (match_history.date b) as [y|];
    try easy.
  unfold String.leb. now destruct (x ?= y)%string.
Qed.

(** In a list sorted throughout, every row of a front part is in order
    with every row behind it. *)
Lemma strongly_sorted_app {A : Type} (R : A -> A -> Prop) (l1 l2 : list A) :
  StronglySorted R (l1 ++ l2) ->
  forall a b, In a l1 -> In b l2 -> R a b.
Proof.
  induction l1 as [|x l1 IH]; simpl; intros Hsorted a b Ha Hb; [destruct Ha|].
  inversion Hsorted as [|? ? Hrest Hall]; subst.
  destruct Ha as [<- | Ha].
  - rewrite Forall_forall in Hall. apply Hall, in_or_app. now right.
  - now apply IH.
Qed.

(** The first [n] rows of the sorted frame are [n] earliest rows of the
    frame, and its last [n] rows are [n] latest rows. *)
Lemma head_of_sorted_is_earliest df (n : nat) :
  (n <= List.length df)%nat ->
  earliest_by_date n df (firstn n (sort_values_date df)).
Proof.
  intros Hn.
  assert (Hlen : List.length (sort_values_date df) = List.length df)
    by apply Permutation_length, sort_values_date_perm.
  split; [rewrite length_firstn; lia|].
  exists (skipn n (sort_values_date df)). split.
  - rewrite firstn_skipn. symmetry. apply sort_values_date_perm.
  - intros a b Ha Hb. apply date_asc_no_later.
    apply (strongly_sorted_app (fun a b => date_asc a b = true)
             (firstn n (sort_values_date df))
             (skipn n (sort_values_date df))); try assumption.
    rewrite firstn_skipn. apply sort_values_date_sorted.
Qed.

Lemma tail_of_sorted_is_latest df (n : nat) :
  (n <= List.length df)%nat ->
  latest_by_date n df (skipn (List.length df - n) (sort_values_date df)).
Proof.
  intros Hn.
  assert (Hlen : List.length (sort_values_date df) = List.length df)
    by apply Permutation_length, sort_values_date_perm.
  split; [rewrite length_skipn; lia|].
  exists (firstn (List.length df - n) (sort_values_date df)). split.
  - rewrite firstn_skipn. symmetry. apply sort_values_date_perm.
  - intros a b Ha Hb. apply date_asc_no_later.
    apply (strongly_sorted_app (fun a b => date_asc a b = true)
             (firstn (List.length df - n) (sort_values_date df))
             (skipn (List.length df - n) (sort_values_date df)));
      try assumption.
    rewrite firstn_skipn. apply sort_values_date_sorted.
Qed.

(** [Series.mean()] of an integer column is the specification's average. *)
Lemma fold_left_add_total (stat : match_history.row F -> Z)
    (rows : DataFrame F) (total : Z) :
  fold_left (fun total m => total + stat m) rows total
  = total + sum_int (map stat rows).
Proof.
  revert total. induction rows as [|m rows IH]; intros total; simpl.
  - lia.
  - rewrite IH. unfold sum_int. lia.
Qed.

Lemma mean_int_average (stat : match_history.row F -> Z) (rows : DataFrame F) :
  mean_int (map stat rows) = average stat rows.
Proof.
  unfold mean_int, average, len.
  now rewrite fold_left_add_total, length_map.
Qed.

(** [calc_stats] on a window of a frame that has rows. *)
Lemma calc_stats_int64 (window : DataFrame F) :
  exists stats,
    calc_stats int64 window = Returns stats
    /\ WindowStats.avg_goals stats = mean_int (col_goals window).
Proof. eexists. split; reflexivity. Qed.

Lemma dtype_of_nonempty df : df <> [] -> dtype_of df = int64.
Proof. intros Hdf. unfold dtype_of. now rewrite (len_nonempty df Hdf). Qed.

(** C5 (amended). Leaving aside the frame without rows when
    [first_n + last_n] is not positive: [compare_performance] returns the
    empty dictionary exactly when the frame has fewer than
    [first_n + last_n] rows; otherwise it returns a dictionary, and for two
    counts its [goals_change] is the average goals of [last_n] rows latest
    by date minus the average goals of [first_n] rows earliest by date. *)
Theorem compare_performance_spec df (first_n last_n : Z) :
  df <> [] \/ 0 < first_n + last_n ->
  (compare_performance df first_n last_n = Returns None
   <-> len df < first_n + last_n)
  /\
  (first_n + last_n <= len df ->
   exists comparison,
     compare_performance df first_n last_n = Returns (Some comparison)
     /\ (0 <= first_n -> 0 <= last_n ->
         exists early recent,
           earliest_by_date (Z.to_nat first_n) df early
           /\ latest_by_date (Z.to_nat last_n) df recent
           /\ Improvement.goals_change (Comparison.improvement comparison)
              = fsub (average_goals recent) (average_goals early))).
Proof.
  intros Hdomain. unfold compare_performance.
  destruct (Z.ltb_spec (len df) (first_n + last_n)) as [Hlt|Hge].
  - split; [tauto | lia].
  - assert (Hdf : df <> []).
    { destruct Hdomain as [Hdf | Hpos]; [exact Hdf|].
      intros ->. change (len ([] : DataFrame F)) with 0 in Hge. lia. }
    rewrite (dtype_of_nonempty df Hdf).
    destruct (calc_stats_int64 (head first_n (sort_values_date df)))
      as (early_stats & -> & Hearly).
    destruct (calc_stats_int64 (tail last_n (sort_values_date df)))
      as (recent_stats & -> & Hrecent).
    split; [split; [discriminate | lia]|].
    intros _. eexists. split; [reflexivity|].
    intros Hfirst Hlast.
    assert (Hlen : List.length (sort_values_date df) = List.length df)
      by apply Permutation_length, sort_values_date_perm.
    unfold len in Hge.
    exists (firstn (Z.to_nat first_n) (sort_values_date df)),
           (skipn (List.length df - Z.to_nat last_n) (sort_values_date df)).
    split; [apply head_of_sorted_is_earliest; lia|].
    split; [apply tail_of_sorted_is_latest; lia|].
    cbn [Improvement.goals_change Comparison.improvement improvements_of].
    rewrite Hearly, Hrecent.
    rewrite (head_firstn first_n _ Hfirst), (tail_skipn last_n _ Hlast), Hlen.
    unfold average_goals, col_goals. now rewrite !mean_int_average.
Qed.

(** What the operations do on the frame without rows.  [get_summary_stats],
    [get_stats_by_playlist], [get_recent_form],
    [get_strengths_and_weaknesses] and [get_performance_trend] test for it
    and return the empty result.  [compare_performance] has its guard on
    [first_n + last_n] alone: it returns the empty dictionary when that sum
    is positive, as it is with the defaults 10 and 10, and raises
    [ZeroDivisionError] when it is not. *)
Theorem empty_frame_gives_empty_results :
  get_summary_stats ([] : DataFrame F) = None
  /\ get_stats_by_playlist ([] : DataFrame F) = []
  /\ (forall num_games, get_recent_form ([] : DataFrame F) num_games = None)
  /\ get_strengths_and_weaknesses ([] : DataFrame F) = None
  /\ get_performance_trend ([] : DataFrame F) = []
  /\ (forall first_n last_n,
        0 < first_n + last_n ->
        compare_performance ([] : DataFrame F) first_n last_n = Returns None)
  /\ (forall first_n last_n,
        first_n + last_n <= 0 ->
        compare_performance ([] : DataFrame F) first_n last_n
        = Raises ZeroDivisionError).
Proof.
  repeat split; try reflexivity.
  - intros first_n last_n Hpos. unfold compare_performance.
    change (len ([] : DataFrame F)) with 0.
    destruct (Z.ltb_spec 0 (first_n + last_n)); [reflexivity | lia].
  - intros first_n last_n Hneg. unfold compare_performance.
    change (len ([] : DataFrame F)) with 0.
    destruct (Z.ltb_spec 0 (first_n + last_n)); [lia|].
    assert (Hempty : head first_n (sort_values_date ([] : DataFrame F)) = []).
    { pose proof (Permutation_length (sort_values_date_perm ([] : DataFrame F)))
        as Hlen.
      destruct (sort_values_date ([] : DataFrame F)); [|discriminate].
      unfold head, slice. simpl skipn. apply firstn_nil. }
    rewrite Hempty. reflexivity.
Qed.

(** [<] is irreflexive, and a value equal to one of two ordered thresholds
    is neither above the upper one nor below the lower one. *)
Lemma flt_irrefl (x : F) : flt x x = false.
Proof.
  destruct (flt x x) eqn:Hx; [|reflexivity].
  pose proof (flt_asym x x Hx). congruence.
Qed.

Lemma on_threshold_not_crossed (value hi lo : F) :
  flt lo hi = true ->
  feq value hi = true \/ feq value lo = true ->
  flt hi value = false /\ flt value lo = false.
Proof.
  intros Horder [Heq | Heq].
  - rewrite (feq_flt_r value hi hi Heq), (feq_flt_l value hi lo Heq).
    split; [apply flt_irrefl | now apply flt_asym].
  - rewrite (feq_flt_r value lo hi Heq), (feq_flt_l value lo lo Heq).
    split; [now apply flt_asym | apply flt_irrefl].
Qed.

(** The two lists that the four tests build, test by test. *)
Lemma classify_all_eq (percentiles : Metrics.t F) :
  classify_all percentiles =
  let above (value hi : F) (label : string) :=
    if flt hi value then [label] else [] in
  let below (value hi lo : F) (label : string) :=
    if (negb (flt hi value) && flt value lo)%bool then [label] else [] in
  ((above (Metrics.goals percentiles) (of_decimal 15 1) "Goal scoring"
    ++ above (Metrics.assists percentiles) (of_decimal 12 1) "Playmaking"
    ++ above (Metrics.saves percentiles) (of_decimal 15 1) "Defense"
    ++ above (Metrics.shooting_pct percentiles) (of_int 40) "Shot accuracy")%list,
   (below (Metrics.goals percentiles) (of_decimal 15 1) (of_decimal 8 1)
          "Goal scoring"
    ++ below (Metrics.assists percentiles) (of_decimal 12 1) (of_decimal 6 1)
             "Playmaking"
    ++ below (Metrics.saves percentiles) (of_decimal 15 1) (of_decimal 8 1)
             "Defense"
    ++ below (Metrics.shooting_pct percentiles) (of_int 40) (of_int 25)
             "Shot accuracy")%list).
Proof.
  unfold classify_all, classify. cbv zeta.
  destruct (flt (of_decimal 15 1) (Metrics.goals percentiles)),
           (flt (Metrics.goals percentiles) (of_decimal 8 1)),
           (flt (of_decimal 12 1) (Metrics.assists percentiles)),
           (flt (Metrics.assists percentiles) (of_decimal 6 1)),
           (flt (of_decimal 15 1) (Metrics.saves percentiles)),
           (flt (Metrics.saves percentiles) (of_decimal 8 1)),
           (flt (of_int 40) (Metrics.shooting_pct percentiles)),
           (flt (Metrics.shooting_pct percentiles) (of_int 25));
    reflexivity.
Qed.

(** C10. On a non-empty frame [get_strengths_and_weaknesses] returns a
    dictionary in which a metric whose mean equals one of its two
    thresholds is listed neither among the strengths nor among the
    weaknesses; when no mean is above its strength threshold the strengths
    are exactly ["Consistent all-around player"], and when no mean is below
    its weakness threshold the weaknesses are exactly
    ["Well-rounded performance"]. *)
Theorem thresholds_are_strict df :
  df <> [] ->
  exists profile,
    get_strengths_and_weaknesses df = Some profile
    /\ (forall label value hi lo,
          In (label, value, hi, lo) (threshold_table df) ->
          feq value hi = true \/ feq value lo = true ->
          ~ In label (Profile.strengths profile)
          /\ ~ In label (Profile.weaknesses profile))
    /\ ((forall label value hi lo,
           In (label, value, hi, lo) (threshold_table df) ->
           flt hi value = false) ->
        Profile.strengths profile = ["Consistent all-around player"])
    /\ ((forall label value hi lo,
           In (label, value, hi, lo) (threshold_table df) ->
           flt value lo = false) ->
        Profile.weaknesses profile = ["Well-rounded performance"]).
Proof.
  intros Hdf. unfold get_strengths_and_weaknesses.
  rewrite (len_nonempty df Hdf), classify_all_eq. cbv zeta.
  eexists. split; [reflexivity|].
  cbn [Profile.strengths Profile.weaknesses Metrics.goals Metrics.assists
       Metrics.saves Metrics.shooting_pct].
  destruct literals_ordered as (Hgoals & Hassists & Hshots).
  split; [|split].
  - intros label value hi lo Hin Heq.
    assert (Hnot : flt hi value = false /\ flt value lo = false).
    { simpl in Hin.
      destruct Hin as [Hin | [Hin | [Hin | [Hin | []]]]];
        injection Hin as <- <- <- <-;
        now apply on_threshold_not_crossed. }
    destruct Hnot as (Hhi & Hlo).
    simpl in Hin.
    destruct Hin as [Hin | [Hin | [Hin | [Hin | []]]]];
      injection Hin as <- Hvalue <- <-; rewrite <- Hvalue in Hhi, Hlo;
      rewrite Hhi, Hlo; rewrite ?andb_false_r;
      split;
      repeat match goal with
             | |- context [if ?b then _ else _] => destruct b
             end;
      simpl; intuition discriminate.
  - intros Hnone.
    rewrite (Hnone _ _ _ _ (or_introl eq_refl)),
            (Hnone _ _ _ _ (or_intror (or_introl eq_refl))),
            (Hnone _ _ _ _ (or_intror (or_intror (or_introl eq_refl)))),
            (Hnone _ _ _ _
               (or_intror (or_intror (or_intror (or_introl eq_refl))))).
    reflexivity.
  - intros Hnone.
    rewrite (Hnone _ _ _ _ (or_introl eq_refl)),
            (Hnone _ _ _ _ (or_intror (or_introl eq_refl))),
            (Hnone _ _ _ _ (or_intror (or_intror (or_introl eq_refl)))),
            (Hnone _ _ _ _
               (or_intror (or_intror (or_intror (or_introl eq_refl))))).
    rewrite !andb_false_r. reflexivity.
Qed.

End Analytics.

(** The analytics at the fixtures. *)

(** C4 (the failing input). One won game is ingested and read back: the
    summary of that frame has [total_games = 1], [wins = 1] and
    [losses = -2], because [~] on the [int64] column [won] is the bitwise
    complement; [wins + losses] is [-1], not [total_games]. *)
Lemma summary_of_one_stored_win :
  exists db summary,
    RocketLeagueDB.add_match_history Fixtures.fresh_db "Foo"
      (Fixtures.history_of Fixtures.replay_3_1 "foo") 1 2
    = (db, Returns 1)
    /\ PlayerAnalytics.get_summary_stats
         (RocketLeagueDB.get_player_stats db "Foo")
       = Some summary
    /\ PlayerAnalytics.SummaryStats.total_games summary = 1
    /\ PlayerAnalytics.SummaryStats.wins summary = 1
    /\ PlayerAnalytics.SummaryStats.losses summary = -2.
Proof.
  do 2 eexists.
  split; [vm_compute; reflexivity|].
  split; [vm_compute; reflexivity|].
  repeat split.
Qed.

(** C5 (counterexample). The frame without rows has not fewer than
    [0 + 0] rows, and [compare_performance(first_n=0, last_n=0)] returns
    nothing on it, neither the empty dictionary nor another: the division
    of [calc_stats] raises. *)
Lemma compare_performance_returns_nothing_on_no_rows :
  ~ len ([] : PlayerAnalytics.DataFrame float) < 0 + 0
  /\ forall value,
       PlayerAnalytics.compare_performance
         ([] : PlayerAnalytics.DataFrame float) 0 0 <> Returns value.
Proof.
  split; [unfold len; simpl; lia|].
  intros value. vm_compute. discriminate.
Qed.

Lemma compare_performance_spec_witness :
  exists comparison early recent,
    PlayerAnalytics.compare_performance Fixtures.frame_on_thresholds 2 2
    = Returns (Some comparison)
    /\ earliest_by_date 2 Fixtures.frame_on_thresholds early
    /\ latest_by_date 2 Fixtures.frame_on_thresholds recent
    /\ PlayerAnalytics.Improvement.goals_change
         (PlayerAnalytics.Comparison.improvement comparison)
       = fsub (average_goals recent) (average_goals early).
Proof.
  destruct (proj2 (compare_performance_spec Fixtures.frame_on_thresholds 2 2
                     (or_intror eq_refl)))
    as (comparison & Hget & Hchange).
  - vm_compute. discriminate.
  - destruct Hchange as (early & recent & Hearly & Hrecent & Hgoals);
      [lia | lia |].
    exists comparison, early, recent. auto.
Defined.

(** The early window of that comparison averages 0.5 goals, the recent one
    1, and the change is 0.5. *)
Example compare_performance_on_fixture :
  match PlayerAnalytics.compare_performance Fixtures.frame_on_thresholds 2 2
  with
  | Returns (Some comparison) =>
      Some (PlayerAnalytics.Improvement.goals_change
              (PlayerAnalytics.Comparison.improvement comparison))
  | _ => None
  end
  = Some 0.5%float.
Proof. vm_compute. reflexivity. Qed.

(** C8 (the failing input). A player without a stored game has the frame
    without rows, and [compare_performance(first_n=0, last_n=0)] on that
    frame raises [ZeroDivisionError]: the guard [len(df) < first_n + last_n]
    is [0 < 0], and the function goes on to divide by the number of rows of
    an empty window. *)
Lemma compare_performance_of_empty_frame_raises :
  RocketLeagueDB.get_player_stats Fixtures.fresh_db "Squishy" = []
  /\ PlayerAnalytics.compare_performance
       (RocketLeagueDB.get_player_stats Fixtures.fresh_db "Squishy") 0 0
     = Raises ZeroDivisionError.
Proof. split; vm_compute; reflexivity. Qed.

Lemma thresholds_are_strict_witness :
  exists profile,
    PlayerAnalytics.get_strengths_and_weaknesses Fixtures.frame_on_thresholds
    = Some profile
    /\ (~ In "Goal scoring" (PlayerAnalytics.Profile.strengths profile)
        /\ ~ In "Goal scoring" (PlayerAnalytics.Profile.weaknesses profile))
    /\ PlayerAnalytics.Profile.strengths profile
       = ["Consistent all-around player"]
    /\ PlayerAnalytics.Profile.weaknesses profile
       = ["Well-rounded performance"].
Proof.
  destruct (thresholds_are_strict Fixtures.frame_on_thresholds)
    as (profile & Hget & Hon & Hstrengths & Hweaknesses).
  - discriminate.
  - exists profile. split; [exact Hget|]. split; [|split].
    + apply (Hon "Goal scoring" _ _ _ (or_introl eq_refl)).
      right. vm_compute. reflexivity.
    + apply Hstrengths. intros label value hi lo Hin. simpl in Hin.
      destruct Hin as [Hin | [Hin | [Hin | [Hin | []]]]];
        injection Hin as <- <- <- <-; vm_compute; reflexivity.
    + apply Hweaknesses. intros label value hi lo Hin. simpl in Hin.
      destruct Hin as [Hin | [Hin | [Hin | [Hin | []]]]];
        injection Hin as <- <- <- <-; vm_compute; reflexivity.
Defined.

(** On that frame every mean equals a threshold: goals 0.8, assists 1.2,
    saves 0.8 and shooting percentage 40. *)
Example means_on_thresholds :
  map (fun '(label, value, hi, lo) => (feq value hi, feq value lo))
      (threshold_table Fixtures.frame_on_thresholds)
  = [(false, true); (true, false); (false, true); (true, false)].
Proof. vm_compute. reflexivity. Qed.

(** * Further properties of the replay client *)

Section ReplayClientExtraction.

Import BallchasingAPI.

Context {F : Type} `{Float64Ops F}.

Implicit Types (replay_data : Replay F).

(** X1. The extraction returns nothing exactly when no entry of the blue
    roster and no entry of the orange roster has the lookup name, case
    apart. *)
Theorem extraction_none_iff_absent replay_data (player_name : string) :
  get_player_stats_from_replay replay_data player_name = None
  <-> (forall team_color player,
         team_color = "blue" \/ team_color = "orange" ->
         In player (players_of replay_data team_color) ->
         name_matches player player_name = false).
Proof.
  rewrite get_player_stats_from_replay_unfold. split.
  - intros Hnone team_color player Hcolor Hin.
    destruct (scan_players replay_data "blue" _ player_name) eqn:Hblue;
      [discriminate|].
    rewrite scan_players_none in Hblue, Hnone.
    destruct Hcolor as [-> | ->]; auto.
  - intros Habsent.
    assert (Hside : forall c, c = "blue" \/ c = "orange" ->
              scan_players replay_data c (players_of replay_data c)
                           player_name = None).
    { intros c Hc. apply scan_players_none. intros q Hq.
      exact (Habsent c q Hc Hq). }
    rewrite (Hside "blue"), (Hside "orange"); auto.
Qed.

(** X2. A record that the extraction returns carries the id, date, duration
    and playlist of the replay, the side "blue" or "orange", and the name
    of a roster entry which equals the lookup name once both are
    lower-cased. *)
Theorem extracted_record_identity replay_data (player_name : string)
    (stats : MatchStats F) :
  get_player_stats_from_replay replay_data player_name = Some stats ->
  replay_id stats = rp_id replay_data
  /\ date stats = rp_date replay_data
  /\ duration stats = rp_duration replay_data
  /\ playlist stats = rp_playlist_name replay_data
  /\ (team stats = "blue" \/ team stats = "orange")
  /\ lower (dict_get (BallchasingAPI.player_name stats) "")
     = lower player_name.
Proof.
  intros Hget.
  destruct (get_player_stats_from_replay_some _ _ _ Hget)
    as (c & p & Hc & _ & Hm & ->).
  repeat split; try reflexivity; [exact Hc|].
  simpl. unfold name_matches in Hm. now apply String.eqb_eq in Hm.
Qed.

(** X3. In one replay the players of one side share the outcome, and two
    players of opposite sides never both have [won]; when the two goal
    totals differ, exactly one of the two has. *)
Theorem one_winner_per_replay replay_data (name1 name2 : string)
    (stats1 stats2 : MatchStats F) :
  get_player_stats_from_replay replay_data name1 = Some stats1 ->
  get_player_stats_from_replay replay_data name2 = Some stats2 ->
  (team stats1 = team stats2 -> won stats1 = won stats2)
  /\ (team stats1 <> team stats2 ->
      (won stats1 && won stats2)%bool = false
      /\ (team_goals replay_data "blue" <> team_goals replay_data "orange" ->
          won stats1 = negb (won stats2))).
Proof.
  intros Hget1 Hget2.
  destruct (get_player_stats_from_replay_some _ _ _ Hget1)
    as (c1 & p1 & [-> | ->] & _ & _ & ->);
    destruct (get_player_stats_from_replay_some _ _ _ Hget2)
      as (c2 & p2 & [-> | ->] & _ & _ & ->);
    rewrite ?won_extract_blue, ?won_extract_orange; simpl team;
    (split; [intros Hsame | intros Hdiff]);
    try reflexivity; try discriminate; try congruence;
    rewrite !Z.gtb_ltb;
    (split; [| intros Hgoals]);
    destruct (Z.ltb_spec (team_goals replay_data "orange")
                         (team_goals replay_data "blue"));
    destruct (Z.ltb_spec (team_goals replay_data "blue")
                         (team_goals replay_data "orange"));
    simpl; try reflexivity; lia.
Qed.

Lemma lower_ascii_idempotent (c : ascii) :
  lower_ascii (lower_ascii c) = lower_ascii c.
Proof. destruct c as [[] [] [] [] [] [] [] []]; reflexivity. Qed.

Lemma lower_idempotent (s : string) : lower (lower s) = lower s.
Proof.
  induction s as [|c s IH]; simpl; [reflexivity|].
  now rewrite lower_ascii_idempotent, IH.
Qed.

Lemma scan_players_up_to_case replay_data (team_color : string)
    (players : list (Player F)) (name1 name2 : string) :
  lower name1 = lower name2 ->
  scan_players replay_data team_color players name1
  = scan_players replay_data team_color players name2.
Proof.
  intros Hcase. induction players as [|p players IH]; simpl; [reflexivity|].
  unfold name_matches. now rewrite Hcase, IH.
Qed.

(** X4. The extraction depends on the lookup name only up to case: two
    names with the same lower-casing give the same result, and so does the
    lower-cased name itself. *)
Theorem extraction_up_to_case replay_data (name1 name2 : string) :
  (lower name1 = lower name2 ->
   get_player_stats_from_replay replay_data name1
   = get_player_stats_from_replay replay_data name2)
  /\ get_player_stats_from_replay replay_data (lower name1)
     = get_player_stats_from_replay replay_data name1.
Proof.
  assert (Hcase : forall n1 n2, lower n1 = lower n2 ->
            get_player_stats_from_replay replay_data n1
            = get_player_stats_from_replay replay_data n2).
  { intros n1 n2 Hn. rewrite !get_player_stats_from_replay_unfold.
    now rewrite !(scan_players_up_to_case _ _ _ n1 n2 Hn). }
  split; [apply Hcase|].
  apply Hcase, lower_idempotent.
Qed.

End ReplayClientExtraction.

Section ReplayClientHistory.

Import BallchasingAPI.

Context {F : Type} `{Float64Ops F}.

Implicit Types (api : @Service F).

(** The search for the exact name finds a player exactly when the
    extraction does. *)
Lemma player_found_iff_extracted (detailed_replay : Replay F)
    (player_name : string) :
  player_found detailed_replay ["blue"; "orange"] player_name = true
  <-> get_player_stats_from_replay detailed_replay player_name <> None.
Proof.
  rewrite get_player_stats_from_replay_unfold. simpl.
  destruct (existsb _ (players_of detailed_replay "blue")) eqn:Hblue.
  - apply existsb_exists in Hblue.
    destruct (scan_players_found detailed_replay "blue" _ player_name Hblue)
      as (p & _ & _ & ->). split; [discriminate | reflexivity].
  - assert (Hnone : scan_players detailed_replay "blue"
                      (players_of detailed_replay "blue") player_name = None).
    { apply scan_players_none. intros q Hq.
      destruct (name_matches q player_name) eqn:Hm; [|reflexivity].
      assert (existsb (fun player => name_matches player player_name)
                      (players_of detailed_replay "blue") = true)
        by (apply existsb_exists; eauto).
      congruence. }
    rewrite Hnone.
    destruct (existsb _ (players_of detailed_replay "orange")) eqn:Horange.
    + apply existsb_exists in Horange.
      destruct (scan_players_found detailed_replay "orange" _ player_name
                  Horange) as (p & _ & _ & ->).
      split; [discriminate | reflexivity].
    + assert (Hnone' : scan_players detailed_replay "orange"
                         (players_of detailed_replay "orange") player_name
                       = None).
      { apply scan_players_none. intros q Hq.
        destruct (name_matches q player_name) eqn:Hm; [|reflexivity].
        assert (existsb (fun player => name_matches player player_name)
                        (players_of detailed_replay "orange") = true)
          by (apply existsb_exists; eauto).
        congruence. }
      rewrite Hnone'. split; [discriminate | congruence].
Qed.

(** What one replay of the search result contributes to the history: the
    record that the extraction returns from its details, when the details
    were fetched and hold the player, and nothing otherwise. *)
Lemma process_replay_extraction api (replay : ReplaySummary)
    (player_name : string) :
  match process_replay api replay player_name with
  | Extracted player_stats =>
      exists detailed,
        get_replay_details api (rs_id replay) = Some detailed
        /\ get_player_stats_from_replay detailed player_name
           = Some player_stats
  | ExtractionFoundNothing => False
  | _ =>
      match get_replay_details api (rs_id replay) with
      | Some detailed =>
          get_player_stats_from_replay detailed player_name = None
      | None => True
      end
  end.
Proof.
  unfold process_replay.
  destruct (get_replay_details api (rs_id replay)) as [detailed|];
    [|exact I].
  pose proof (player_found_iff_extracted detailed player_name) as Hiff.
  destruct (player_found detailed ["blue"; "orange"] player_name);
    cbn [negb];
    destruct (get_player_stats_from_replay detailed player_name) eqn:Hget.
  - eauto.
  - apply (proj1 Hiff); reflexivity.
  - assert (false = true) by (apply (proj2 Hiff); discriminate).
    discriminate.
  - reflexivity.
Qed.

(** X5. The branch of [get_player_match_history] that warns that the
    extraction did not find the player is never taken: once the search for
    the exact name has found the player in the details, the extraction
    returns a record. *)
Theorem extraction_never_fails_after_check api (replay : ReplaySummary)
    (player_name : string) :
  process_replay api replay player_name <> ExtractionFoundNothing.
Proof.
  intros Hwarn.
  pose proof (process_replay_extraction api replay player_name) as Hcase.
  now rewrite Hwarn in Hcase.
Qed.

(** The record, if any, that a replay of the search result yields. *)
Lemma collect_flat_map api (replays : list ReplaySummary)
    (player_name : string) :
  forall match_history,
    collect api replays player_name match_history
    = (match_history
       ++ flat_map
            (fun replay =>
               match get_replay_details api (rs_id replay) with
               | Some detailed =>
                   match get_player_stats_from_replay detailed player_name
                   with
                   | Some player_stats => [player_stats]
                   | None => []
                   end
               | None => []
               end)
            replays)%list.
Proof.
  induction replays as [|replay rest IH]; intros match_history; simpl.
  - now rewrite app_nil_r.
  - pose proof (process_replay_extraction api replay player_name) as Hcase.
    destruct (process_replay api replay player_name) as [| |stats|];
      rewrite IH.
    + destruct (get_replay_details api (rs_id replay)); [|reflexivity].
      now rewrite Hcase.
    + destruct (get_replay_details api (rs_id replay)); [|reflexivity].
      now rewrite Hcase.
    + destruct Hcase as (detailed & -> & ->). simpl.
      now rewrite <- app_assoc.
    + destruct Hcase.
Qed.

(** X6. The match history is, replay by replay in the order of the search
    result, the record extracted from the details of the replay when the
    details could be fetched and hold the player, and nothing for a replay
    whose details could not be fetched or do not hold the player: a failing
    replay costs its own record and no other.  So the history has at most
    as many records as the search found replays. *)
Theorem match_history_is_per_replay api (player_name : string)
    (num_games : Z) :
  get_player_match_history api player_name num_games
  = flat_map
      (fun replay =>
         match get_replay_details api (rs_id replay) with
         | Some detailed =>
             match get_player_stats_from_replay detailed player_name with
             | Some player_stats => [player_stats]
             | None => []
             end
         | None => []
         end)
      (search_replays api player_name num_games)
  /\ (List.length (get_player_match_history api player_name num_games)
      <= List.length (search_replays api player_name num_games))%nat.
Proof.
  assert (Heq : get_player_match_history api player_name num_games
                = flat_map
                    (fun replay =>
                       match get_replay_details api (rs_id replay) with
                       | Some detailed =>
                           match get_player_stats_from_replay detailed
                                   player_name with
                           | Some player_stats => [player_stats]
                           | None => []
                           end
                       | None => []
                       end)
                    (search_replays api player_name num_games)).
  { unfold get_player_match_history.
    destruct (search_replays api player_name num_games) as [|r rs] eqn:Hs;
      [reflexivity|].
    now rewrite collect_flat_map. }
  split; [exact Heq|]. rewrite Heq. clear Heq.
  induction (search_replays api player_name num_games) as [|r rs IH];
    [reflexivity|].
  cbn [flat_map]. rewrite length_app.
  destruct (get_replay_details api (rs_id r)) as [detailed|];
    [|cbn [List.length]; lia].
  destruct (get_player_stats_from_replay detailed player_name);
    cbn [List.length]; lia.
Qed.

(** Every record of the history was extracted from the details of a replay
    of the search result. *)
Lemma match_history_origin api (player_name : string) (num_games : Z)
    (stats : MatchStats F) :
  In stats (get_player_match_history api player_name num_games) ->
  exists replay detailed,
    In replay (search_replays api player_name num_games)
    /\ get_replay_details api (rs_id replay) = Some detailed
    /\ get_player_stats_from_replay detailed player_name = Some stats.
Proof.
  unfold get_player_match_history.
  destruct (search_replays api player_name num_games) as [|r rs] eqn:Hs;
    [intros []|].
  rewrite collect_flat_map, app_nil_l, in_flat_map.
  intros (replay & Hin & Hstats). exists replay.
  destruct (get_replay_details api (rs_id replay)) as [detailed|];
    [|destruct Hstats].
  exists detailed.
  destruct (get_player_stats_from_replay detailed player_name) as [s|];
    [|destruct Hstats].
  destruct Hstats as [<- | []]. auto.
Qed.

(** X7. Every record of the match history is a record of the requested
    player: its name equals the requested name once both are lower-cased,
    its side is "blue" or "orange", and its [replay_id] is the id found in
    the details of a replay of the search result. *)
Theorem match_history_is_of_the_player api (player_name : string)
    (num_games : Z) (stats : MatchStats F) :
  In stats (get_player_match_history api player_name num_games) ->
  lower (dict_get (BallchasingAPI.player_name stats) "") = lower player_name
  /\ (team stats = "blue" \/ team stats = "orange")
  /\ exists replay detailed,
       In replay (search_replays api player_name num_games)
       /\ get_replay_details api (rs_id replay) = Some detailed
       /\ replay_id stats = rp_id detailed.
Proof.
  intros Hin.
  destruct (match_history_origin api player_name num_games stats Hin)
    as (replay & detailed & Hr & Hd & Hget).
  destruct (get_player_stats_from_replay_some _ _ _ Hget)
    as (c & p & Hc & _ & Hm & ->).
  split; [|split].
  - simpl. unfold name_matches in Hm. now apply String.eqb_eq in Hm.
  - exact Hc.
  - exists replay, detailed. auto.
Qed.

(** X8. A search that fails, or whose answer has no list, gives the empty
    history without any detail request mattering; and asking for more than
    200 games is asking for 200, the most the request ever carries. *)
Theorem match_history_of_failed_or_capped_search api (player_name : string)
    (num_games : Z) :
  (sv_search api player_name (Z.min num_games 200) = None
   \/ sv_search api player_name (Z.min num_games 200)
      = Some {| sr_list := None |} ->
   get_player_match_history api player_name num_games = [])
  /\ (200 <= num_games ->
      get_player_match_history api player_name num_games
      = get_player_match_history api player_name 200).
Proof.
  split.
  - unfold get_player_match_history, search_replays.
    now intros [-> | ->].
  - intros Hcap. unfold get_player_match_history, search_replays.
    now rewrite (Z.min_r num_games 200), (Z.min_r 200 200) by lia.
Qed.

End ReplayClientHistory.

(** * Further properties of the match store *)

Section MatchStoreInvariants.

Import RocketLeagueDB.

Context {F : Type}.

Implicit Types (db : DB F).

Lemma player_name_taken_spec db (name : string) :
  player_name_taken db name = true
  <-> In name (map players.player_name (tbl_players db)).
Proof.
  unfold player_name_taken. rewrite existsb_exists, in_map_iff.
  split; intros (p & Hp1 & Hp2).
  - apply String.eqb_eq in Hp2. eauto.
  - exists p. split; [assumption|]. now apply String.eqb_eq.
Qed.

Lemma NoDup_snoc {A : Type} (l : list A) (x : A) :
  NoDup l -> ~ In x l -> NoDup (l ++ [x]).
Proof.
  intros Hl Hx. apply NoDup_app; [assumption | repeat constructor; easy |].
  intros y Hy [<- | []]. contradiction.
Qed.

Lemma well_formed_create_tables : well_formed (@create_tables F).
Proof. constructor; simpl; constructor. Qed.

(** The INSERT OR IGNORE of [add_player] keeps the store well formed. *)
Lemma well_formed_insert_player db (name : string) (now : Z) :
  well_formed db -> well_formed (insert_or_ignore_player db name now).
Proof.
  intros [Hnames Hids Hbound Hmids Hmbound Hrids Hwon Hfk].
  unfold insert_or_ignore_player.
  destruct (player_name_taken db name) eqn:Htaken; constructor; simpl;
    rewrite ?Htaken; try assumption.
  - eapply Forall_impl; [|exact Hbound]. simpl. intros p Hp. lia.
  - rewrite map_app. apply NoDup_snoc; [assumption|].
    intros Hin. apply player_name_taken_spec in Hin. simpl in Hin.
    congruence.
  - rewrite map_app. apply NoDup_snoc; [assumption|]. simpl.
    intros Hin. apply in_map_iff in Hin. destruct Hin as (p & Hp & Hin).
    rewrite Forall_forall in Hbound. specialize (Hbound p Hin). lia.
  - apply Forall_app. split.
    + eapply Forall_impl; [|exact Hbound]. simpl. intros p Hp. lia.
    + repeat constructor. simpl. lia.
  - eapply Forall_impl; [|exact Hfk]. simpl. intros m Hm.
    rewrite map_app. apply in_or_app. now left.
Qed.

(** One INSERT OR IGNORE into [match_history] for a player of the store
    keeps it well formed. *)
Lemma well_formed_insert_match db (player_id : Z)
    (m : BallchasingAPI.MatchStats F) :
  In player_id (map players.player_id (tbl_players db)) ->
  well_formed db -> well_formed (insert_or_ignore_match db player_id m).
Proof.
  intros Hpid Hwf.
  pose proof (insert_or_ignore_match_unique db player_id m (wf_replay_ids _ Hwf))
    as Hrids'.
  destruct Hwf as [Hnames Hids Hbound Hmids Hmbound Hrids Hwon Hfk].
  assert (Hmbound' : Forall (fun r : match_history.row F =>
                               match_history.match_id r
                               <= seq_match_history db + 1)
                            (tbl_match_history db)).
  { eapply Forall_impl; [|exact Hmbound]. simpl. intros r Hr. lia. }
  unfold insert_or_ignore_match in *.
  destruct (replay_id_taken db (BallchasingAPI.replay_id m)).
  - constructor; simpl; assumption.
  - constructor; simpl; try assumption.
    + rewrite map_app. apply NoDup_snoc; [assumption|]. simpl.
      intros Hin. apply in_map_iff in Hin. destruct Hin as (r & Hr & Hin).
      rewrite Forall_forall in Hmbound. specialize (Hmbound r Hin). lia.
    + apply Forall_app. split; [assumption|].
      constructor; [simpl; lia | constructor].
    + apply Forall_app. split; [assumption|].
      constructor; [|constructor]. simpl.
      destruct (BallchasingAPI.won m); auto.
    + apply Forall_app. split; [assumption|]. repeat constructor. exact Hpid.
Qed.

Lemma well_formed_insert_rows
    (match_data : list (BallchasingAPI.MatchStats F)) :
  forall db player_id games_added,
    In player_id (map players.player_id (tbl_players db)) ->
    well_formed db ->
    well_formed (fst (insert_rows db player_id match_data games_added)).
Proof.
  induction match_data as [|m rest IH]; intros db player_id games_added Hpid Hwf;
    [exact Hwf|].
  simpl. apply IH; [exact Hpid | now apply well_formed_insert_match].
Qed.

Lemma update_player_names db (player_id now : Z) :
  map players.player_name (tbl_players (update_player db player_id now))
  = map players.player_name (tbl_players db).
Proof.
  unfold update_player; simpl. rewrite map_map. apply map_ext.
  intros p. now destruct (players.player_id p =? player_id).
Qed.

Lemma update_player_ids db (player_id now : Z) :
  map players.player_id (tbl_players (update_player db player_id now))
  = map players.player_id (tbl_players db).
Proof.
  unfold update_player; simpl. rewrite map_map. apply map_ext.
  intros p. now destruct (players.player_id p =? player_id).
Qed.

(** The UPDATE of [add_match_history] keeps the store well formed. *)
Lemma well_formed_update_player db (player_id now : Z) :
  well_formed db -> well_formed (update_player db player_id now).
Proof.
  intros [Hnames Hids Hbound Hmids Hmbound Hrids Hwon Hfk].
  constructor; try assumption.
  - now rewrite update_player_names.
  - now rewrite update_player_ids.
  - unfold update_player; simpl. rewrite Forall_map.
    eapply Forall_impl; [|exact Hbound]. simpl. intros p Hp.
    now destruct (players.player_id p =? player_id).
  - rewrite update_player_ids. exact Hfk.
Qed.

(** The id that the SELECT of [add_player] returns is an id of the table. *)
Lemma select_player_id_in db (name : string) (player_id : Z) :
  select_player_id db name = Some player_id ->
  exists p, In p (tbl_players db)
            /\ players.player_name p = name
            /\ players.player_id p = player_id.
Proof.
  unfold select_player_id.
  destruct (find _ (tbl_players db)) as [p|] eqn:Hfind; [|discriminate].
  intros [= <-]. apply find_some in Hfind. destruct Hfind as (Hin & Hname).
  apply String.eqb_eq in Hname. eauto.
Qed.

Lemma add_player_select db (name : string) (now : Z) (db' : DB F)
    (player_id : Z) :
  add_player db name now = Some (db', player_id) ->
  db' = insert_or_ignore_player db name now
  /\ select_player_id db' name = Some player_id.
Proof.
  unfold add_player.
  destruct (select_player_id (insert_or_ignore_player db name now) name)
    eqn:Hsel; [|discriminate].
  intros [= <- <-]. auto.
Qed.

(** [add_match_history] keeps the store well formed, whether it returns
    or raises. *)
Lemma well_formed_add_match_history db (name : string)
    (match_data : list (BallchasingAPI.MatchStats F)) (now_add now_upd : Z)
    (db' : DB F) (outcome : result Z) :
  well_formed db ->
  add_match_history db name match_data now_add now_upd = (db', outcome) ->
  well_formed db'.
Proof.
  intros Hwf Hcall.
  destruct (add_match_history_spec db name match_data now_add now_upd)
    as (pid & added & Hadd & Hcall' & _).
  rewrite Hcall' in Hcall.
  destruct (batch_binds match_data); injection Hcall as <- _.
  - apply well_formed_update_player, well_formed_insert_rows.
    + destruct (add_player_select _ _ _ _ _ Hadd) as (_ & Hsel).
      destruct (select_player_id_in _ _ _ Hsel) as (p & Hin & _ & <-).
      now apply in_map.
    + now apply well_formed_insert_player.
  - now apply well_formed_insert_player.
Qed.

Lemma reachable_well_formed_aux db : reachable db -> well_formed db.
Proof.
  induction 1 as [|db name now db' pid _ IH Hadd
                  |db name match_data now_add now_upd db' outcome _ IH Hcall].
  - apply well_formed_create_tables.
  - destruct (add_player_select _ _ _ _ _ Hadd) as (-> & _).
    now apply well_formed_insert_player.
  - exact (well_formed_add_match_history _ _ _ _ _ _ _ IH Hcall).
Qed.

(** X9. Every state that [add_player] and [add_match_history] reach from a
    fresh file, the states that a raising [add_match_history] leaves
    included, is well formed: player names and player ids are keys of
    [players], match ids are keys of [match_history], no id exceeds its
    AUTOINCREMENT counter, no [replay_id] occurs twice, every [won] cell is
    0 or 1, and every row of [match_history] references a row of
    [players]. *)
Theorem reachable_well_formed db : reachable db -> well_formed db.
Proof.
  induction 1 as [|db name now db' pid _ IH Hadd
                  |db name match_data now_add now_upd db' outcome _ IH Hcall].
  - apply well_formed_create_tables.
  - destruct (add_player_select _ _ _ _ _ Hadd) as (-> & _).
    now apply well_formed_insert_player.
  - exact (well_formed_add_match_history _ _ _ _ _ _ _ IH Hcall).
Qed.

End MatchStoreInvariants.

Section MatchStoreReads.

Import RocketLeagueDB.

Context {F : Type}.

Implicit Types (db : DB F).

Lemma filter_absent_name (g : players.row -> bool) (name : string)
    (l : list players.row) :
  ~ In name (map players.player_name l) ->
  filter (fun p => g p && (players.player_name p =? name)%string) l = [].
Proof.
  induction l as [|q l IH]; simpl; [reflexivity|]. intros Hnotin.
  destruct (players.player_name q =? name)%string eqn:Hq.
  - apply String.eqb_eq in Hq. exfalso. apply Hnotin. now left.
  - rewrite andb_false_r. apply IH. intros Hin. apply Hnotin. now right.
Qed.

(** Among rows with distinct names, the rows of one name that pass a
    further test are the first row of that name, if it passes. *)
Lemma filter_by_unique_name (g : players.row -> bool) (name : string)
    (l : list players.row) :
  NoDup (map players.player_name l) ->
  filter (fun p => g p && (players.player_name p =? name)%string) l
  = match find (fun p => (players.player_name p =? name)%string) l with
    | Some p => if g p then [p] else []
    | None => []
    end.
Proof.
  induction l as [|p l IH]; simpl; [reflexivity|].
  intros Hnodup. inversion Hnodup as [|? ? Hnotin Hrest]; subst.
  destruct (players.player_name p =? name)%string eqn:Hname.
  - apply String.eqb_eq in Hname.
    rewrite andb_true_r, (filter_absent_name g name l) by congruence.
    now destruct (g p).
  - rewrite andb_false_r. now apply IH.
Qed.

Lemma flat_map_singleton_filter {A : Type} (f : A -> bool) (l : list A) :
  flat_map (fun x => if f x then [x] else []) l = filter f l.
Proof.
  induction l as [|x l IH]; simpl; [reflexivity|].
  rewrite IH. now destruct (f x).
Qed.

(** When player names are a key, the join of [get_player_stats] selects
    the rows of the player's id. *)
Lemma get_player_stats_rows db (name : string) :
  NoDup (map players.player_name (tbl_players db)) ->
  get_player_stats db name = sort_by date_desc (rows_of_name db name).
Proof.
  intros Hnames. unfold get_player_stats, rows_of_name, select_player_id.
  f_equal.
  rewrite (flat_map_ext _
             (fun m => match find (fun p => (players.player_name p =? name)%string)
                                  (tbl_players db) with
                       | Some p =>
                           if match_history.player_id m =? players.player_id p
                           then [m] else []
                       | None => []
                       end)).
  - destruct (find _ (tbl_players db)) as [p|]; simpl.
    + apply flat_map_singleton_filter.
    + induction (tbl_match_history db); [reflexivity | assumption].
  - intros m.
    rewrite (filter_by_unique_name
               (fun p => match_history.player_id m =? players.player_id p)
               name (tbl_players db) Hnames).
    destruct (find _ (tbl_players db)) as [p|]; [|reflexivity].
    now destruct (match_history.player_id m =? players.player_id p).
Qed.

Lemma date_desc_total (a b : match_history.row F) :
  date_desc a b = true \/ date_desc b a = true.
Proof.
  unfold date_desc.
  destruct (match_history.date a), (match_history.date b); auto.
  apply String.leb_total.
Qed.

(** X10. On a store whose player names are a key, as every reachable store
    is, [get_player_stats] returns the rows of [match_history] that carry
    the player's id, each once, ordered by date from the most recent to the
    oldest with the undated rows last; for a name without a row in
    [players] it returns no row. *)
Theorem get_player_stats_is_the_players_rows db (name : string) :
  reachable db ->
  Permutation (get_player_stats db name) (rows_of_name db name)
  /\ Sorted date_ge (get_player_stats db name)
  /\ (player_exists db name = false -> get_player_stats db name = []).
Proof.
  intros Hreach.
  pose proof (wf_names _ (reachable_well_formed_aux db Hreach)) as Hnames.
  rewrite (get_player_stats_rows db name Hnames).
  split; [apply sort_by_perm|].
  split; [apply (sort_by_sorted date_desc), date_desc_total|].
  unfold player_exists, rows_of_name, select_player_id. intros Habsent.
  destruct (find _ (tbl_players db)) as [p|] eqn:Hfind; [|reflexivity].
  exfalso. apply Z.ltb_ge in Habsent. apply find_some in Hfind.
  destruct Hfind as (Hin & Hname).
  assert (Hp : In p (filter (fun p => (players.player_name p =? name)%string)
                            (tbl_players db)))
    by (apply filter_In; auto).
  unfold len in Habsent.
  destruct (filter _ (tbl_players db)); [destruct Hp | simpl in Habsent; lia].
Qed.

End MatchStoreReads.

Section MatchStoreWrites.

Import RocketLeagueDB.

Context {F : Type}.

Implicit Types (db : DB F).

(** [player_exists] is the test of the UNIQUE constraint on the name. *)
Lemma player_exists_taken db (name : string) :
  player_exists db name = player_name_taken db name.
Proof.
  unfold player_exists, player_name_taken, len.
  induction (tbl_players db) as [|p l IH]; simpl; [reflexivity|].
  destruct (players.player_name p =? name)%string; simpl; [|exact IH].
  apply Z.ltb_lt. lia.
Qed.

Lemma player_name_taken_insert_mono db (name other : string) (now : Z) :
  player_name_taken db other = true ->
  player_name_taken (insert_or_ignore_player db name now) other = true.
Proof.
  unfold player_name_taken at 2, insert_or_ignore_player; simpl.
  destruct (player_name_taken db name); [auto|].
  intros Hother. rewrite existsb_app. unfold player_name_taken in Hother.
  now rewrite Hother.
Qed.

(** The keys of [players] after [add_match_history] are those that its
    [add_player] left, however the call ends; when it returns, the store is
    the one that the loop and the UPDATE leave. *)
Lemma add_match_history_keys db (name : string)
    (match_data : list (BallchasingAPI.MatchStats F)) (now_add now_upd : Z)
    (db' : DB F) (outcome : result Z) :
  add_match_history db name match_data now_add now_upd = (db', outcome) ->
  exists player_id,
    select_player_id (insert_or_ignore_player db name now_add) name
    = Some player_id
    /\ map player_key (tbl_players db')
       = map player_key (tbl_players (insert_or_ignore_player db name now_add))
    /\ (forall n, outcome = Returns n ->
          n = len match_data
          /\ db' = update_player
                     (fst (insert_rows
                             (insert_or_ignore_player db name now_add)
                             player_id match_data 0))
                     player_id now_upd).
Proof.
  intros Hcall.
  destruct (add_match_history_spec db name match_data now_add now_upd)
    as (pid & added & Hadd & Hcall' & _).
  destruct (add_player_select _ _ _ _ _ Hadd) as (_ & Hsel).
  exists pid. split; [exact Hsel|].
  rewrite Hcall' in Hcall.
  destruct (batch_binds match_data); injection Hcall as <- <-.
  - split; [now rewrite update_player_keys, insert_rows_players|].
    intros n [= <-]. auto.
  - split; [reflexivity | discriminate].
Qed.

(** X11. After [add_match_history] for a name, whether the call returned
    or raised, [player_exists] answers true for the name, and every player
    that existed before still exists; the same holds after [add_player],
    which returns for every name; in a fresh store no player exists. *)
Theorem player_exists_after_writes db (name : string)
    (match_data : list (BallchasingAPI.MatchStats F))
    (now now_add now_upd : Z) :
  (let db' := fst (add_match_history db name match_data now_add now_upd) in
   player_exists db' name = true
   /\ forall other, player_exists db other = true ->
                    player_exists db' other = true)
  /\ (exists db' player_id,
        add_player db name now = Some (db', player_id)
        /\ player_exists db' name = true
        /\ forall other, player_exists db other = true ->
                         player_exists db' other = true)
  /\ player_exists (@create_tables F) name = false.
Proof.
  split; [|split; [|reflexivity]].
  - destruct (add_match_history db name match_data now_add now_upd)
      as [db' outcome] eqn:Hcall.
    destruct (add_match_history_keys _ _ _ _ _ _ _ Hcall)
      as (pid & _ & Hkeys & _).
    cbn [fst].
    split; [|intros other Hother];
      rewrite player_exists_taken in *;
      rewrite (player_name_taken_keys _ _ _ Hkeys).
    + apply player_name_taken_after_insert.
    + now apply player_name_taken_insert_mono.
  - destruct (add_player_total db name now) as (pid & Hadd).
    exists (insert_or_ignore_player db name now), pid.
    split; [exact Hadd|].
    split; [|intros other Hother]; rewrite player_exists_taken in *.
    + apply player_name_taken_after_insert.
    + now apply player_name_taken_insert_mono.
Qed.

(** X12. [add_player] is idempotent: a second call for the same name
    returns the same [player_id] and leaves both tables as the first call
    left them. *)
Theorem add_player_twice db (name : string) (now now' : Z) :
  exists db1 db2 player_id,
    add_player db name now = Some (db1, player_id)
    /\ add_player db1 name now' = Some (db2, player_id)
    /\ tbl_players db2 = tbl_players db1
    /\ tbl_match_history db2 = tbl_match_history db1.
Proof.
  destruct (add_player_total db name now) as (pid & Hadd).
  destruct (add_player_total (insert_or_ignore_player db name now) name now')
    as (pid' & Hadd').
  assert (Hplayers : tbl_players (insert_or_ignore_player
                                    (insert_or_ignore_player db name now)
                                    name now')
                     = tbl_players (insert_or_ignore_player db name now)).
  { apply insert_or_ignore_player_taken, player_name_taken_after_insert. }
  assert (Hpid : pid' = pid).
  { destruct (add_player_select _ _ _ _ _ Hadd) as (_ & Hsel).
    destruct (add_player_select _ _ _ _ _ Hadd') as (_ & Hsel').
    unfold select_player_id in Hsel'. rewrite Hplayers in Hsel'.
    unfold select_player_id in Hsel. congruence. }
  subst pid'. eexists _, _, pid.
  split; [exact Hadd|]. split; [exact Hadd'|]. split; [exact Hplayers|].
  reflexivity.
Qed.

End MatchStoreWrites.

Section MatchStoreConsistency.

Import RocketLeagueDB.

Context {F : Type}.

Implicit Types (db : DB F).

Lemma len_sort_by {A : Type} (leb : A -> A -> bool) (l : list A) :
  len (sort_by leb l) = len l.
Proof. unfold len. now rewrite sort_by_length. Qed.

Lemma select_player_id_find db (name : string) (player_id : Z) :
  select_player_id db name = Some player_id ->
  exists p,
    find (fun p => (players.player_name p =? name)%string) (tbl_players db)
    = Some p
    /\ players.player_id p = player_id.
Proof.
  unfold select_player_id.
  destruct (find _ (tbl_players db)) as [p|]; [|discriminate].
  intros [= <-]. eauto.
Qed.

(** The number of rows that [get_player_stats] returns on a store whose
    names are a key. *)
Lemma len_get_player_stats db (name : string) :
  NoDup (map players.player_name (tbl_players db)) ->
  len (get_player_stats db name)
  = match select_player_id db name with
    | Some player_id => count_matches db player_id
    | None => 0
    end.
Proof.
  intros Hnames. rewrite (get_player_stats_rows db name Hnames), len_sort_by.
  unfold rows_of_name. now destruct (select_player_id db name).
Qed.

(** X13. After a call of [add_match_history] that returns, on a
    reachable store, the [total_games] stored for the player is the number
    of rows that [get_player_stats] returns for the player. *)
Theorem total_games_counts_the_players_rows db (name : string)
    (match_data : list (BallchasingAPI.MatchStats F)) (now_add now_upd : Z)
    (db' : DB F) (games_added : Z) :
  reachable db ->
  add_match_history db name match_data now_add now_upd
  = (db', Returns games_added) ->
  stored_total_games db' name = Some (len (get_player_stats db' name)).
Proof.
  intros Hreach Hcall.
  destruct (add_match_history_keys _ _ _ _ _ _ _ Hcall)
    as (pid & Hsel & Hkeys & Hreturned).
  destruct (Hreturned games_added eq_refl) as (_ & Hdb').
  pose proof (well_formed_add_match_history _ _ _ _ _ _ _
                (reachable_well_formed_aux db Hreach) Hcall) as Hwf.
  rewrite (len_get_player_stats db' name (wf_names _ Hwf)).
  rewrite (select_player_id_keys db' _ name Hkeys), Hsel.
  destruct (select_player_id_find _ _ _ Hsel) as (p & Hfind & Hp).
  subst db'. rewrite stored_total_games_update, insert_rows_players, Hfind.
  simpl. rewrite Hp, Z.eqb_refl. reflexivity.
Qed.

Lemma NoDup_map_eq {A B : Type} (f : A -> B) (l : list A) (a b : A) :
  NoDup (map f l) -> In a l -> In b l -> f a = f b -> a = b.
Proof.
  induction l as [|x l IH]; simpl; [intros _ []|].
  intros Hnodup Ha Hb Hab. inversion Hnodup as [|? ? Hnotin Hrest]; subst.
  destruct Ha as [<- | Ha], Hb as [<- | Hb]; auto.
  - exfalso. apply Hnotin. rewrite Hab. now apply in_map.
  - exfalso. apply Hnotin. rewrite <- Hab. now apply in_map.
Qed.

Lemma find_app_none {A : Type} (f : A -> bool) (l1 l2 : list A) :
  (forall x, In x l2 -> f x = false) -> find f (l1 ++ l2) = find f l1.
Proof.
  intros Hl2. induction l1 as [|x l1 IH]; simpl.
  - destruct (find f l2) as [y|] eqn:Hfind; [|reflexivity].
    apply find_some in Hfind. destruct Hfind as (Hin & Hy).
    rewrite (Hl2 y Hin) in Hy. discriminate.
  - now rewrite IH.
Qed.

(** Looking up another name is not affected by the INSERT OR IGNORE of
    [add_player]. *)
Lemma find_insert_other db (name other : string) (now : Z) :
  other <> name ->
  find (fun p => (players.player_name p =? other)%string)
       (tbl_players (insert_or_ignore_player db name now))
  = find (fun p => (players.player_name p =? other)%string) (tbl_players db).
Proof.
  intros Hother. unfold insert_or_ignore_player; simpl.
  destruct (player_name_taken db name); [reflexivity|].
  apply find_app_none. intros x [<- | []]. simpl.
  apply String.eqb_neq. congruence.
Qed.

(** X14. [add_match_history] for one name on a reachable store changes
    nothing for any other name, whether it returns or raises: the rows that
    [get_player_stats] returns for the other name and the [total_games]
    stored for it are as before. *)
Theorem ingest_leaves_other_players_alone db (name other : string)
    (match_data : list (BallchasingAPI.MatchStats F)) (now_add now_upd : Z)
    (db' : DB F) (outcome : result Z) :
  reachable db ->
  other <> name ->
  add_match_history db name match_data now_add now_upd = (db', outcome) ->
  get_player_stats db' other = get_player_stats db other
  /\ stored_total_games db' other = stored_total_games db other.
Proof.
  intros Hreach Hother Hcall.
  pose proof (reachable_well_formed_aux db Hreach) as Hwf.
  pose proof (well_formed_add_match_history _ _ _ _ _ _ _ Hwf Hcall) as Hwf'.
  destruct (add_match_history_spec db name match_data now_add now_upd)
    as (pid & added & Hadd & Hcall' & Htbl & Hadded).
  rewrite Hcall' in Hcall. clear Hcall'.
  destruct (add_player_select _ _ _ _ _ Hadd) as (_ & Hsel).
  set (dbA := insert_or_ignore_player db name now_add) in *.
  set (dbB := fst (insert_rows dbA pid match_data 0)) in *.
  pose proof (well_formed_insert_player db name now_add Hwf) as HwfA.
  fold dbA in HwfA.
  (* the row of [other], if any, is the same before and after, and its id
     is not the id of [name] *)
  assert (HfindA : find (fun p => (players.player_name p =? other)%string)
                        (tbl_players dbA)
                   = find (fun p => (players.player_name p =? other)%string)
                          (tbl_players db))
    by (apply find_insert_other; exact Hother).
  assert (Hfresh : forall p,
             find (fun p => (players.player_name p =? other)%string)
                  (tbl_players dbA) = Some p ->
             players.player_id p <> pid).
  { intros p Hp Hid. apply find_some in Hp. destruct Hp as (Hin & Hname).
    apply String.eqb_eq in Hname.
    destruct (select_player_id_in _ _ _ Hsel) as (q & Hq & Hqname & Hqid).
    assert (p = q)
      by (apply (NoDup_map_eq players.player_id (tbl_players dbA));
          [exact (wf_ids _ HwfA) | assumption | assumption | congruence]).
    subst q. congruence. }
  assert (HplayersB : tbl_players dbB = tbl_players dbA)
    by (unfold dbB; apply insert_rows_players).
  destruct (batch_binds match_data); injection Hcall as <- _.
  - (* the call returns *)
    set (db' := update_player dbB pid now_upd) in *.
    split.
    + rewrite (get_player_stats_rows db' other (wf_names _ Hwf')),
              (get_player_stats_rows db other (wf_names _ Hwf)).
      f_equal. unfold rows_of_name.
      assert (Hselect : select_player_id db' other = select_player_id db other).
      { transitivity (select_player_id dbA other).
        - apply select_player_id_keys. unfold db'.
          now rewrite update_player_keys, HplayersB.
        - unfold select_player_id. now rewrite HfindA. }
      rewrite Hselect.
      destruct (select_player_id db other) as [pid_o|] eqn:Hsel_o;
        [|reflexivity].
      unfold rows_of_player.
      change (tbl_match_history db') with (tbl_match_history dbB).
      rewrite Htbl, filter_app.
      assert (Hnone : filter (fun m : match_history.row F =>
                                match_history.player_id m =? pid_o) added = []).
      { assert (Hpid : pid_o <> pid).
        { unfold select_player_id in Hsel_o. rewrite <- HfindA in Hsel_o.
          destruct (find _ (tbl_players dbA)) as [p|] eqn:Hp; [|discriminate].
          injection Hsel_o as <-. now apply Hfresh. }
        clear - Hadded Hpid. induction Hadded as [|row rest (Hrow & _) _ IH];
          simpl; [reflexivity|].
        rewrite Hrow. destruct (Z.eqb_spec pid pid_o); [congruence | exact IH]. }
      rewrite Hnone. apply app_nil_r.
    + unfold db'. rewrite stored_total_games_update, HplayersB, HfindA.
      unfold stored_total_games.
      rewrite <- HfindA.
      destruct (find _ (tbl_players dbA)) as [p|] eqn:Hp; [|reflexivity].
      simpl. destruct (Z.eqb_spec (players.player_id p) pid) as [Hid|_];
        [|reflexivity].
      exfalso. exact (Hfresh p eq_refl Hid).
  - (* the call raises: the store is the one that [add_player] left *)
    split.
    + rewrite (get_player_stats_rows dbA other (wf_names _ HwfA)),
              (get_player_stats_rows db other (wf_names _ Hwf)).
      f_equal. unfold rows_of_name, select_player_id. rewrite HfindA.
      reflexivity.
    + unfold stored_total_games. now rewrite HfindA.
Qed.

End MatchStoreConsistency.

Section MatchStoreFreshBatch.

Import RocketLeagueDB.

Context {F : Type}.

Implicit Types (db : DB F).

(** A batch whose ids are pairwise distinct and absent from the table is
    inserted whole. *)
Lemma insert_rows_fresh (match_data : list (BallchasingAPI.MatchStats F)) :
  forall db player_id games_added,
    NoDup (batch_ids match_data) ->
    (forall r, In r (batch_ids match_data) ->
               ~ In r (replay_ids (tbl_match_history db))) ->
    exists added,
      tbl_match_history (fst (insert_rows db player_id match_data
                                             games_added))
      = (tbl_match_history db ++ added)%list
      /\ List.length added = List.length match_data
      /\ Forall (fun row => match_history.player_id row = player_id) added.
Proof.
  induction match_data as [|m rest IH];
    intros db player_id games_added Hnodup Hfresh.
  - exists []. simpl. now rewrite app_nil_r.
  - assert (Hfree : replay_id_taken db (BallchasingAPI.replay_id m) = false).
    { destruct (BallchasingAPI.replay_id m) as [r|] eqn:Hr; [|reflexivity].
      destruct (replay_id_taken db (Some r)) eqn:Htaken; [|reflexivity].
      apply replay_id_taken_spec in Htaken. exfalso.
      apply (Hfresh r); [|exact Htaken].
      unfold batch_ids; simpl. rewrite Hr. now left. }
    simpl insert_rows.
    destruct (IH (insert_or_ignore_match db player_id m) player_id
                 (games_added + 1)) as (added & Htbl & Hlen & Hpid).
    + unfold batch_ids in Hnodup; simpl in Hnodup.
      destruct (BallchasingAPI.replay_id m); simpl in Hnodup;
        [now inversion Hnodup | exact Hnodup].
    + intros r Hr. unfold insert_or_ignore_match; simpl. rewrite Hfree.
      rewrite replay_ids_app, in_app_iff. intros [Hold | Hnew].
      * apply (Hfresh r); [|exact Hold].
        unfold batch_ids; simpl. apply in_or_app. now right.
      * unfold replay_ids in Hnew; simpl in Hnew.
        unfold batch_ids in Hnodup; simpl in Hnodup.
        destruct (BallchasingAPI.replay_id m) as [r0|]; simpl in *;
          [|destruct Hnew].
        destruct Hnew as [<- | []]. now inversion Hnodup.
    + exists (new_row (seq_match_history db + 1) player_id m :: added).
      rewrite Htbl. unfold insert_or_ignore_match; simpl. rewrite Hfree.
      split; [now rewrite <- app_assoc|]. split; [simpl; congruence|].
      constructor; [reflexivity | exact Hpid].
Qed.

Lemma find_app_first_none {A : Type} (f : A -> bool) (l1 l2 : list A) :
  find f l1 = None -> find f (l1 ++ l2) = find f l2.
Proof.
  induction l1 as [|x l1 IH]; simpl; [reflexivity|].
  destruct (f x); [discriminate | exact IH].
Qed.

Lemma existsb_false_find {A : Type} (f : A -> bool) (l : list A) :
  existsb f l = false -> find f l = None.
Proof.
  induction l as [|x l IH]; simpl; [reflexivity|].
  destruct (f x); [discriminate | exact IH].
Qed.

Lemma len_filter_all {A : Type} (f : A -> bool) (l : list A) :
  Forall (fun x => f x = true) l -> filter f l = l.
Proof.
  induction 1 as [|x l Hx _ IH]; simpl; [reflexivity|].
  now rewrite Hx, IH.
Qed.

(** No row of [match_history] carries a [player_id] that [players] has
    not handed out yet. *)
Lemma count_matches_unused_id db (player_id : Z) :
  well_formed db -> seq_players db < player_id ->
  count_matches db player_id = 0.
Proof.
  intros Hwf Hnew. unfold count_matches.
  assert (Hnone : forall row, In row (tbl_match_history db) ->
                    (match_history.player_id row =? player_id) = false).
  { intros row Hin. apply Z.eqb_neq. intros Heq.
    pose proof (wf_foreign_key _ Hwf) as Hfk.
    pose proof (wf_ids_bound _ Hwf) as Hbound.
    rewrite Forall_forall in Hfk, Hbound.
    specialize (Hfk row Hin). apply in_map_iff in Hfk.
    destruct Hfk as (p & Hp & Hpin). specialize (Hbound p Hpin). lia. }
  induction (tbl_match_history db) as [|row rows IH]; [reflexivity|].
  simpl. rewrite (Hnone row (or_introl eq_refl)).
  apply IH. intros r Hr. apply Hnone. now right.
Qed.

(** X15. On a reachable store, a batch whose [replay_id]s are pairwise
    distinct and not yet in [match_history] is stored whole by a call that
    returns: the player gains as many rows as the batch has records, which
    is then also the number of games that [add_match_history] reports. *)
Theorem fresh_batch_is_stored_whole db (name : string)
    (match_data : list (BallchasingAPI.MatchStats F)) (now_add now_upd : Z)
    (db' : DB F) (games_added : Z) :
  reachable db ->
  NoDup (batch_ids match_data) ->
  (forall r, In r (batch_ids match_data) ->
             ~ In r (replay_ids (tbl_match_history db))) ->
  add_match_history db name match_data now_add now_upd
  = (db', Returns games_added) ->
  games_added = len match_data
  /\ len (get_player_stats db' name)
     = len (get_player_stats db name) + games_added.
Proof.
  intros Hreach Hnodup Hfresh Hcall.
  pose proof (reachable_well_formed_aux db Hreach) as Hwf.
  destruct (add_match_history_keys _ _ _ _ _ _ _ Hcall)
    as (pid & Hsel & Hkeys & Hreturned).
  destruct (Hreturned games_added eq_refl) as (-> & Hdb').
  pose proof (well_formed_add_match_history _ _ _ _ _ _ _ Hwf Hcall) as Hwf'.
  split; [reflexivity|].
  destruct (insert_rows_fresh match_data
              (insert_or_ignore_player db name now_add) pid 0 Hnodup Hfresh)
    as (added & Htbl & Hlen & Hpid).
  rewrite (len_get_player_stats db' name (wf_names _ Hwf')),
          (len_get_player_stats db name (wf_names _ Hwf)).
  rewrite (select_player_id_keys db' _ name Hkeys), Hsel.
  (* the rows of the player after the call *)
  assert (Hcount : count_matches db' pid
                   = count_matches db pid + len match_data).
  { subst db'. unfold count_matches. simpl tbl_match_history.
    rewrite Htbl. simpl tbl_match_history. rewrite filter_app.
    rewrite (len_filter_all _ added).
    - unfold len. rewrite length_app. lia.
    - eapply Forall_impl; [|exact Hpid]. intros row ->. apply Z.eqb_refl. }
  rewrite Hcount.
  (* the rows of the player before the call *)
  unfold select_player_id, insert_or_ignore_player in Hsel; simpl in Hsel.
  unfold select_player_id.
  destruct (player_name_taken db name) eqn:Htaken.
  - destruct (find _ (tbl_players db)) as [p|]; [|discriminate].
    simpl in *. injection Hsel as ->. reflexivity.
  - unfold player_name_taken in Htaken.
    rewrite (existsb_false_find _ _ Htaken).
    rewrite (find_app_first_none _ _ _ (existsb_false_find _ _ Htaken)) in Hsel.
    simpl in Hsel. rewrite String.eqb_refl in Hsel. simpl in Hsel.
    injection Hsel as <-.
    rewrite (count_matches_unused_id db (seq_players db + 1) Hwf) by lia.
    reflexivity.
Qed.

End MatchStoreFreshBatch.

(** * Further properties of the analytics engine *)

Section AnalyticsWindows.

Import RocketLeagueDB PlayerAnalytics.

Context {F : Type} `{Float64Ops F} `{SortValues F}.

Implicit Types (df : DataFrame F).

Lemma len_firstn {A : Type} (n : nat) (l : list A) :
  len (firstn n l) = Z.min (Z.of_nat n) (len l).
Proof. unfold len. rewrite length_firstn. lia. Qed.

(** X16. On a non-empty frame and for a count [num_games],
    [get_recent_form] reports as [games] the smaller of [num_games] and the
    number of rows; when the frame has no more than [num_games] rows the
    window is the whole frame, and wins, win rate and the averages of
    goals, assists, saves and score are those of [get_summary_stats]. *)
Theorem recent_form_of_short_frame df (num_games : Z) :
  df <> [] ->
  0 <= num_games ->
  exists form summary,
    get_recent_form df num_games = Some form
    /\ get_summary_stats df = Some summary
    /\ RecentForm.games form = Z.min num_games (len df)
    /\ (len df <= num_games ->
        RecentForm.games form = SummaryStats.total_games summary
        /\ RecentForm.wins form = SummaryStats.wins summary
        /\ RecentForm.win_rate form = SummaryStats.win_rate summary
        /\ RecentForm.avg_goals form = SummaryStats.avg_goals summary
        /\ RecentForm.avg_assists form = SummaryStats.avg_assists summary
        /\ RecentForm.avg_saves form = SummaryStats.avg_saves summary
        /\ RecentForm.avg_score form = SummaryStats.avg_score summary).
Proof.
  intros Hdf Hn. unfold get_recent_form, get_summary_stats.
  rewrite (len_nonempty df Hdf). do 2 eexists.
  split; [reflexivity|]. split; [reflexivity|]. simpl.
  rewrite (head_firstn num_games df Hn). split.
  - rewrite len_firstn. lia.
  - intros Hshort. rewrite firstn_all2 by (unfold len in Hshort; lia).
    repeat split.
Qed.

(** X17. When [compare_performance] returns a dictionary for two counts,
    the date-sorted frame is the early window, followed by the games in
    between, followed by the recent window: the two windows have [first_n]
    and [last_n] rows and share none, and the two halves of the dictionary
    are the statistics that [calc_stats] returns for these windows. *)
Theorem comparison_windows_do_not_overlap df (first_n last_n : Z)
    (comparison : Comparison.t F) :
  0 <= first_n -> 0 <= last_n ->
  compare_performance df first_n last_n = Returns (Some comparison) ->
  exists early_games between recent_games,
    sort_values_date df = (early_games ++ between ++ recent_games)%list
    /\ len early_games = first_n
    /\ len recent_games = last_n
    /\ calc_stats (dtype_of df) early_games
       = Returns (Comparison.early comparison)
    /\ calc_stats (dtype_of df) recent_games
       = Returns (Comparison.recent comparison).
Proof.
  intros Hfirst Hlast. unfold compare_performance.
  destruct (Z.ltb_spec (len df) (first_n + last_n)) as [|Hlen];
    [discriminate|].
  rewrite (head_firstn first_n _ Hfirst), (tail_skipn last_n _ Hlast).
  set (sorted := sort_values_date df).
  assert (Hsorted : List.length sorted = List.length df)
    by apply Permutation_length, sort_values_date_perm.
  destruct (calc_stats (dtype_of df) (firstn (Z.to_nat first_n) sorted))
    as [early_stats|] eqn:Hearly; [|discriminate].
  destruct (calc_stats (dtype_of df)
              (skipn (List.length sorted - Z.to_nat last_n) sorted))
    as [recent_stats|] eqn:Hrecent; [|discriminate].
  intros [= <-]. simpl.
  unfold len in Hlen.
  exists (firstn (Z.to_nat first_n) sorted),
         (firstn (List.length sorted - Z.to_nat first_n - Z.to_nat last_n)
                 (skipn (Z.to_nat first_n) sorted)),
         (skipn (List.length sorted - Z.to_nat last_n) sorted).
  split; [|split; [|split; [|split]]]; try assumption.
  - rewrite <- (firstn_skipn (Z.to_nat first_n) sorted) at 1. f_equal.
    rewrite <- (firstn_skipn
                  (List.length sorted - Z.to_nat first_n - Z.to_nat last_n)
                  (skipn (Z.to_nat first_n) sorted)) at 1.
    f_equal. rewrite skipn_skipn. f_equal. lia.
  - unfold len. rewrite length_firstn. lia.
  - unfold len. rewrite length_skipn. lia.
Qed.

Lemma fold_left_max_ge (l : list Z) (x : Z) :
  x <= fold_left Z.max l x
  /\ (forall y, In y l -> y <= fold_left Z.max l x)
  /\ (fold_left Z.max l x = x \/ In (fold_left Z.max l x) l).
Proof.
  revert x. induction l as [|a l IH]; intros x; simpl.
  - split; [lia|]. split; [intros y []|]. now left.
  - destruct (IH (Z.max x a)) as (Hge & Hall & Hin).
    split; [lia|]. split.
    + intros y [<- | Hy]; [lia | now apply Hall].
    + destruct Hin as [Heq | Hin]; [|right; now right].
      rewrite Heq. destruct (Z.max_spec x a) as [(_ & ->) | (_ & ->)];
        [right; now left | now left].
Qed.

(** [Series.max()] of a non-empty column is its greatest cell. *)
Lemma max_int_spec (col : list Z) :
  col <> [] ->
  (forall y, In y col -> y <= max_int col) /\ In (max_int col) col.
Proof.
  destruct col as [|x col]; [congruence|]. intros _. simpl max_int.
  destruct (fold_left_max_ge col x) as (Hge & Hall & Hin). split.
  - intros y [<- | Hy]; [exact Hge | now apply Hall].
  - destruct Hin as [-> | Hin]; [now left | now right].
Qed.

(** X18. On a non-empty frame the "best" entries of [get_summary_stats]
    are attained maxima: no game of the frame has more goals than
    [best_goals] and some game has exactly as many, and likewise for
    assists, saves and score. *)
Theorem summary_best_is_attained_maximum df :
  df <> [] ->
  exists summary,
    get_summary_stats df = Some summary
    /\ (forall m, In m df ->
          match_history.goals m <= SummaryStats.best_goals summary
          /\ match_history.assists m <= SummaryStats.best_assists summary
          /\ match_history.saves m <= SummaryStats.best_saves summary
          /\ match_history.score m <= SummaryStats.best_score summary)
    /\ (exists m, In m df
                  /\ match_history.goals m = SummaryStats.best_goals summary)
    /\ (exists m, In m df
                  /\ match_history.assists m
                     = SummaryStats.best_assists summary)
    /\ (exists m, In m df
                  /\ match_history.saves m = SummaryStats.best_saves summary)
    /\ (exists m, In m df
                  /\ match_history.score m = SummaryStats.best_score summary).
Proof.
  intros Hdf. unfold get_summary_stats. rewrite (len_nonempty df Hdf).
  eexists. split; [reflexivity|]. simpl.
  assert (Hcol : forall f : match_history.row F -> Z, map f df <> [])
    by (intros f; destruct df; [congruence | discriminate]).
  assert (Hmax : forall f : match_history.row F -> Z,
             (forall m, In m df -> f m <= max_int (map f df))
             /\ exists m, In m df /\ f m = max_int (map f df)).
  { intros f. destruct (max_int_spec (map f df) (Hcol f)) as (Hall & Hin).
    split.
    - intros m Hm. apply Hall. now apply in_map.
    - apply in_map_iff in Hin. destruct Hin as (m & Hm & Hin). eauto. }
  unfold col_goals, col_assists, col_saves, col_score.
  split; [|repeat split].
  - intros m Hm. repeat split.
    + apply (proj1 (Hmax (fun m => match_history.goals m))), Hm.
    + apply (proj1 (Hmax (fun m => match_history.assists m))), Hm.
    + apply (proj1 (Hmax (fun m => match_history.saves m))), Hm.
    + apply (proj1 (Hmax (fun m => match_history.score m))), Hm.
  - apply (proj2 (Hmax (fun m => match_history.goals m))).
  - apply (proj2 (Hmax (fun m => match_history.assists m))).
  - apply (proj2 (Hmax (fun m => match_history.saves m))).
  - apply (proj2 (Hmax (fun m => match_history.score m))).
Qed.

End AnalyticsWindows.

Section AnalyticsPlaylists.

Import RocketLeagueDB PlayerAnalytics.

Context {F : Type} `{Float64Ops F}.

Implicit Types (df : DataFrame F).

Lemma cell_eqb_eq (x y : option string) : cell_eqb x y = true <-> x = y.
Proof.
  destruct x as [a|], y as [b|]; simpl; split; try congruence; try reflexivity.
  - intros Hab. apply String.eqb_eq in Hab. congruence.
  - intros [= ->]. apply String.eqb_refl.
Qed.

Lemma existsb_cell_eqb (x : option string) (seen : list (option string)) :
  existsb (cell_eqb x) seen = true <-> In x seen.
Proof.
  rewrite existsb_exists. split.
  - intros (y & Hy & Hxy). apply cell_eqb_eq in Hxy. now subst.
  - intros Hx. exists x. split; [assumption | now apply cell_eqb_eq].
Qed.

(** [unique] keeps every cell that occurs and was not seen, once. *)
Lemma unique_spec (col : list (option string)) :
  forall seen,
    NoDup (unique seen col)
    /\ (forall x, In x (unique seen col) <-> In x col /\ ~ In x seen).
Proof.
  induction col as [|c col IH]; intros seen; simpl.
  - split; [constructor | intros x; tauto].
  - destruct (existsb (cell_eqb c) seen) eqn:Hseen.
    + apply existsb_cell_eqb in Hseen. destruct (IH seen) as (Hnodup & Hin).
      split; [exact Hnodup|]. intros x. rewrite Hin. split.
      * intros (Hx & Hns). auto.
      * intros ([<- | Hx] & Hns); [contradiction | auto].
    + assert (Hnotseen : ~ In c seen).
      { intros Hc. apply existsb_cell_eqb in Hc. congruence. }
      destruct (IH (c :: seen)) as (Hnodup & Hin). split.
      * constructor; [|exact Hnodup]. rewrite Hin. simpl. tauto.
      * intros x. simpl. rewrite Hin. simpl. split.
        -- intros [<- | (Hx & Hns)]; [auto | split; [auto | tauto]].
        -- intros ([<- | Hx] & Hns); [now left|].
           destruct (cell_eqb c x) eqn:Hcx.
           ++ apply cell_eqb_eq in Hcx. now left.
           ++ right. split; [exact Hx|]. intros [-> | Hs]; [|tauto].
              assert (cell_eqb x x = true) by now apply cell_eqb_eq.
              congruence.
Qed.

(** The keys that the loop of [get_stats_by_playlist] inserts. *)
Lemma playlist_items_keys df (playlists : list (option string)) :
  map fst (playlist_items df playlists)
  = flat_map (fun o => match o with Some k => [k] | None => [] end) playlists.
Proof.
  induction playlists as [|[k|] rest IH]; simpl; [reflexivity | | exact IH].
  now rewrite IH.
Qed.

Lemma playlist_items_games df (playlists : list (option string))
    (k : string) (stats : PlaylistStats.t F) :
  In (k, stats) (playlist_items df playlists) ->
  PlaylistStats.games stats = len (rows_of_playlist df k).
Proof.
  induction playlists as [|[k0|] rest IH]; simpl; [intros [] | | exact IH].
  intros [[= <- <-] | Hin]; [reflexivity | now apply IH].
Qed.

Lemma get_stats_by_playlist_items df :
  get_stats_by_playlist df
  = playlist_items df (unique [] (map (fun m => match_history.playlist m) df)).
Proof.
  unfold get_stats_by_playlist. destruct df; reflexivity.
Qed.

Lemma somes_in (playlists : list (option string)) (k : string) :
  In k (flat_map (fun o => match o with Some k => [k] | None => [] end)
                 playlists)
  <-> In (Some k) playlists.
Proof.
  rewrite in_flat_map. split.
  - intros ([k'|] & Hin & Hk); [|destruct Hk].
    destruct Hk as [<- | []]. exact Hin.
  - intros Hin. exists (Some k). split; [exact Hin | now left].
Qed.

Lemma somes_nodup (playlists : list (option string)) :
  NoDup playlists ->
  NoDup (flat_map (fun o => match o with Some k => [k] | None => [] end)
                  playlists).
Proof.
  induction 1 as [|[k|] rest Hnotin _ IH]; simpl; [constructor | | exact IH].
  constructor; [|exact IH]. now rewrite somes_in.
Qed.

Lemma sum_int_cons (x : Z) (l : list Z) : sum_int (x :: l) = x + sum_int l.
Proof. reflexivity. Qed.

Lemma len_rows_of_playlist_cons (m : match_history.row F) (rows : DataFrame F)
    (k : string) :
  len (rows_of_playlist (m :: rows) k)
  = len (rows_of_playlist rows k)
    + (if cell_eqb (match_history.playlist m) (Some k) then 1 else 0).
Proof.
  unfold rows_of_playlist, len. simpl filter.
  destruct (cell_eqb (match_history.playlist m) (Some k));
    [simpl List.length; rewrite Nat2Z.inj_succ|]; lia.
Qed.

(** Each row counts once among the groups of distinct keys that include
    its playlist, and not at all when it has none. *)
Lemma sum_of_group_sizes (keys : list string) (rows : DataFrame F) :
  NoDup keys ->
  (forall m k, In m rows -> match_history.playlist m = Some k -> In k keys) ->
  sum_int (map (fun k => len (rows_of_playlist rows k)) keys)
  = len (filter has_playlist rows).
Proof.
  intros Hnodup. induction rows as [|m rows IH]; intros Hcover.
  - unfold rows_of_playlist, len. simpl.
    clear. induction keys; simpl; [reflexivity | assumption].
  - assert (Hstep : forall ks,
              sum_int (map (fun k => len (rows_of_playlist (m :: rows) k)) ks)
              = sum_int (map (fun k => len (rows_of_playlist rows k)) ks)
                + sum_int (map (fun k =>
                                  if cell_eqb (match_history.playlist m)
                                              (Some k)
                                  then 1 else 0) ks)).
    { induction ks as [|k ks IHks]; [reflexivity|].
      rewrite !map_cons, !sum_int_cons, IHks, len_rows_of_playlist_cons.
      lia. }
    rewrite Hstep, IH by (intros m' k Hm'; apply Hcover; now right).
    assert (Hone : forall k0 ks, NoDup ks ->
              sum_int (map (fun k => if cell_eqb (Some k0) (Some k)
                                     then 1 else 0) ks)
              = if in_dec string_dec k0 ks then 1 else 0).
    { intros k0 ks Hks. induction Hks as [|k ks Hnotin _ IHks];
        [reflexivity|].
      rewrite map_cons, sum_int_cons, IHks. simpl cell_eqb.
      destruct (String.eqb_spec k0 k) as [<- | Hneq].
      - destruct (in_dec string_dec k0 (k0 :: ks)) as [_|Hn];
          [|exfalso; apply Hn; now left].
        destruct (in_dec string_dec k0 ks); [contradiction | reflexivity].
      - destruct (in_dec string_dec k0 ks) as [Hin|Hn];
          destruct (in_dec string_dec k0 (k :: ks)) as [Hin'|Hn'];
          try reflexivity.
        + exfalso. apply Hn'. now right.
        + destruct Hin' as [-> | Hin']; [congruence | contradiction]. }
    assert (Hlen : len (filter has_playlist (m :: rows))
                   = len (filter has_playlist rows)
                     + (if has_playlist m then 1 else 0)).
    { unfold len. simpl filter. destruct (has_playlist m);
        [simpl List.length; rewrite Nat2Z.inj_succ|]; lia. }
    assert (Hhas : has_playlist m
                   = match match_history.playlist m with
                     | Some _ => true
                     | None => false
                     end) by reflexivity.
    rewrite Hlen, Hhas.
    destruct (match_history.playlist m) as [k0|] eqn:Hm.
    + rewrite (Hone k0 keys Hnodup).
      destruct (in_dec string_dec k0 keys) as [_|Hn]; [reflexivity|].
      exfalso. apply Hn. apply (Hcover m k0); [now left | exact Hm].
    + assert (Hzero : forall ks,
                sum_int (map (fun k : string =>
                                if cell_eqb None (Some k) then 1 else 0) ks)
                = 0)
        by (induction ks; simpl; [reflexivity | assumption]).
      now rewrite Hzero.
Qed.

Lemma sum_of_games df (playlists : list (option string)) :
  sum_int (map (fun item => PlaylistStats.games (snd item))
               (playlist_items df playlists))
  = sum_int (map (fun k => len (rows_of_playlist df k))
                 (flat_map (fun o => match o with
                                     | Some k => [k]
                                     | None => []
                                     end) playlists)).
Proof.
  induction playlists as [|[k|] rest IH]; simpl; [reflexivity | | exact IH].
  now rewrite IH.
Qed.

(** X19. The dictionary of [get_stats_by_playlist] has one key for each
    playlist that occurs in the frame and no other, its [games] are the
    number of rows of that playlist, so at least 1, and the [games] of all
    keys add up to the number of rows that have a playlist: a row without
    one is in no group, and a frame whose rows all lack one gives the empty
    dictionary. *)
Theorem playlist_groups_partition_the_frame df :
  NoDup (map fst (get_stats_by_playlist df))
  /\ (forall k, In k (map fst (get_stats_by_playlist df))
                <-> exists m, In m df /\ match_history.playlist m = Some k)
  /\ (forall k stats,
        In (k, stats) (get_stats_by_playlist df) ->
        PlaylistStats.games stats = len (rows_of_playlist df k)
        /\ 1 <= PlaylistStats.games stats)
  /\ sum_int (map (fun item => PlaylistStats.games (snd item))
                  (get_stats_by_playlist df))
     = len (filter has_playlist df)
  /\ (forallb (fun m => negb (has_playlist m)) df = true ->
      get_stats_by_playlist df = []).
Proof.
  rewrite get_stats_by_playlist_items.
  set (col := map (fun m => match_history.playlist m) df).
  destruct (unique_spec col []) as (Hnodup & Hin).
  assert (Hkeys : forall k,
             In k (map fst (playlist_items df (unique [] col)))
             <-> exists m, In m df /\ match_history.playlist m = Some k).
  { intros k. rewrite playlist_items_keys, somes_in, Hin.
    unfold col. rewrite in_map_iff. split.
    - intros ((m & Hm & Hdf) & _). eauto.
    - intros (m & Hdf & Hm). split; [eauto | intros []]. }
  split; [rewrite playlist_items_keys; now apply somes_nodup|].
  split; [exact Hkeys|]. split; [|split].
  - intros k stats Hitem.
    rewrite (playlist_items_games df _ k stats Hitem). split; [reflexivity|].
    assert (Hk : In k (map fst (playlist_items df (unique [] col))))
      by (apply in_map_iff; exists (k, stats); auto).
    apply Hkeys in Hk. destruct Hk as (m & Hdf & Hm).
    assert (Hrow : In m (rows_of_playlist df k)).
    { unfold rows_of_playlist. apply filter_In. split; [exact Hdf|].
      rewrite Hm. apply cell_eqb_eq. reflexivity. }
    unfold len. destruct (rows_of_playlist df k); [destruct Hrow | simpl; lia].
  - rewrite sum_of_games. apply sum_of_group_sizes.
    + now apply somes_nodup.
    + intros m k Hdf Hm. apply somes_in, Hin.
      split; [|intros []]. unfold col. apply in_map_iff. eauto.
  - intros Hnull.
    destruct (playlist_items df (unique [] col)) as [|[k stats] rest] eqn:Hitems;
      [reflexivity|].
    exfalso.
    assert (Hk : In k (map fst ((k, stats) :: rest))) by now left.
    apply Hkeys in Hk. destruct Hk as (m & Hdf & Hm).
    rewrite forallb_forall in Hnull. specialize (Hnull m Hdf).
    unfold has_playlist in Hnull. rewrite Hm in Hnull. discriminate.
Qed.

End AnalyticsPlaylists.

Section AnalyticsTrendAndProfile.

Import RocketLeagueDB PlayerAnalytics.

Context {F : Type} `{Float64Ops F} `{SortValues F}.

Implicit Types (df : DataFrame F).

Lemma rolling_mean_length (w : nat) (col : list Z) :
  List.length (rolling_mean (F:=F) w col) = List.length col.
Proof. unfold rolling_mean. now rewrite length_map, length_seq. Qed.

(** Zipping a frame with four columns of its length and unzipping gives the
    frame and the columns back. *)
Lemma trend_rows_unzip (rows : DataFrame F) :
  forall (g a s sc : list F),
    List.length g = List.length rows ->
    List.length a = List.length rows ->
    List.length s = List.length rows ->
    List.length sc = List.length rows ->
    let trend :=
      map (fun '(m, (g, (a, (s, sc)))) =>
             {| Trend.game := m;
                Trend.rolling_goals := g;
                Trend.rolling_assists := a;
                Trend.rolling_saves := s;
                Trend.rolling_score := sc |})
          (combine rows (combine g (combine a (combine s sc)))) in
    map (fun t => Trend.game t) trend = rows
    /\ map (fun t => Trend.rolling_goals t) trend = g
    /\ map (fun t => Trend.rolling_assists t) trend = a
    /\ map (fun t => Trend.rolling_saves t) trend = s
    /\ map (fun t => Trend.rolling_score t) trend = sc.
Proof.
  induction rows as [|m rows IH]; intros [|g0 g] [|a0 a] [|s0 s] [|sc0 sc];
    simpl; try discriminate; [repeat split|].
  intros [= Hg] [= Ha] [= Hs] [= Hsc].
  destruct (IH g a s sc Hg Ha Hs Hsc) as (-> & -> & -> & -> & ->).
  repeat split.
Qed.

(** The columns of the trend frame of a frame that has rows. *)
Lemma trend_columns df :
  df <> [] ->
  let trend := get_performance_trend df in
  map (fun t => Trend.game t) trend = sort_values_date df
  /\ map (fun t => Trend.rolling_goals t) trend
     = rolling_mean 5 (col_goals (sort_values_date df))
  /\ map (fun t => Trend.rolling_assists t) trend
     = rolling_mean 5 (col_assists (sort_values_date df))
  /\ map (fun t => Trend.rolling_saves t) trend
     = rolling_mean 5 (col_saves (sort_values_date df))
  /\ map (fun t => Trend.rolling_score t) trend
     = rolling_mean 5 (col_score (sort_values_date df)).
Proof.
  intros Hdf.
  assert (Hlen : forall f : match_history.row F -> Z,
             List.length (rolling_mean (F:=F) 5 (map f (sort_values_date df)))
             = List.length (sort_values_date df))
    by (intros f; now rewrite rolling_mean_length, length_map).
  unfold get_performance_trend. rewrite (len_nonempty df Hdf).
  apply trend_rows_unzip; apply Hlen.
Qed.

(** The rolling mean at position [k] of a column is the average over the
    game at [k] and the games before it, four of them at most. *)
Lemma rolling_mean_nth (stat : match_history.row F -> Z) (rows : DataFrame F)
    (k : nat) :
  (k < List.length rows)%nat ->
  nth_error (rolling_mean 5 (map stat rows)) k
  = Some (average stat (last_games 5 (firstn (S k) rows))).
Proof.
  intros Hk. unfold rolling_mean. rewrite length_map, nth_error_map.
  rewrite nth_error_seq.
  destruct (Nat.ltb_spec k (List.length rows)) as [_|]; [|lia].
  cbn [option_map]. f_equal.
  unfold slice, last_games.
  rewrite skipn_map, firstn_map, mean_int_average. f_equal.
  rewrite length_firstn, Nat.min_l by lia.
  rewrite skipn_firstn_comm.
  replace (0 + k + 1)%nat with (S k) by lia.
  reflexivity.
Qed.

Lemma strongly_sorted_impl {A : Type} (R R' : A -> A -> Prop) (l : list A) :
  (forall a b, R a b -> R' a b) ->
  StronglySorted R l -> StronglySorted R' l.
Proof.
  intros Himpl. induction 1 as [|x l _ IH Hall]; constructor; [exact IH|].
  eapply Forall_impl; [|exact Hall]. intros b. apply Himpl.
Qed.

(** X20. The frame of [get_performance_trend] lists the games of the input
    frame, each once, from the earliest date to the latest with the undated
    games last, in whichever order the sort leaves the games of one date;
    and beside the game at position [k] it has, for goals, assists, saves
    and score, the average over that game and the games listed just before
    it, four of them at most. *)
Theorem performance_trend_keeps_the_games df :
  let trend := get_performance_trend df in
  let games := map (fun t => Trend.game t) trend in
  Permutation games df
  /\ StronglySorted no_later games
  /\ forall k t,
       nth_error trend k = Some t ->
       let played := last_games 5 (firstn (S k) games) in
       Trend.rolling_goals t
       = average (fun m => match_history.goals m) played
       /\ Trend.rolling_assists t
          = average (fun m => match_history.assists m) played
       /\ Trend.rolling_saves t
          = average (fun m => match_history.saves m) played
       /\ Trend.rolling_score t
          = average (fun m => match_history.score m) played.
Proof.
  destruct df as [|m0 df0].
  - (* the empty frame *)
    cbn. split; [constructor|]. split; [constructor|].
    intros [|k] t; discriminate.
  - set (df := m0 :: df0).
    destruct (trend_columns df) as (Hgames & Hg & Ha & Hs & Hsc);
      [discriminate|].
    cbv zeta. rewrite Hgames.
    split; [apply sort_values_date_perm|].
    split.
    { apply (strongly_sorted_impl (fun a b => date_asc a b = true)).
      - apply date_asc_no_later.
      - apply sort_values_date_sorted. }
    intros k t Hk.
    assert (Hlt : (k < List.length (sort_values_date df))%nat).
    { rewrite <- Hgames, length_map. apply nth_error_Some. congruence. }
    assert (Hcell : forall (cell : Trend.t F -> F)
                      (stat : match_history.row F -> Z),
               map cell (get_performance_trend df)
               = rolling_mean 5 (map stat (sort_values_date df)) ->
               cell t
               = average stat
                   (last_games 5 (firstn (S k) (sort_values_date df)))).
    { intros cell stat Hcol.
      pose proof (map_nth_error cell k _ Hk) as Hnth.
      rewrite Hcol, (rolling_mean_nth stat _ k Hlt) in Hnth.
      now injection Hnth. }
    repeat split.
    + exact (Hcell _ _ Hg).
    + exact (Hcell _ _ Ha).
    + exact (Hcell _ _ Hs).
    + exact (Hcell _ _ Hsc).
Qed.

(** X21. In the dictionary of [get_strengths_and_weaknesses] no label is
    both a strength and a weakness, neither list is empty, and each holds
    either its default entry alone or some of the four labels "Goal
    scoring", "Playmaking", "Defense" and "Shot accuracy". *)
Theorem strengths_and_weaknesses_are_exclusive df :
  df <> [] ->
  exists profile,
    get_strengths_and_weaknesses df = Some profile
    /\ (forall label, In label (Profile.strengths profile) ->
                      ~ In label (Profile.weaknesses profile))
    /\ Profile.strengths profile <> []
    /\ Profile.weaknesses profile <> []
    /\ (Profile.strengths profile = ["Consistent all-around player"]
        \/ incl (Profile.strengths profile)
                ["Goal scoring"; "Playmaking"; "Defense"; "Shot accuracy"])
    /\ (Profile.weaknesses profile = ["Well-rounded performance"]
        \/ incl (Profile.weaknesses profile)
                ["Goal scoring"; "Playmaking"; "Defense"; "Shot accuracy"]).
Proof.
  intros Hdf. unfold get_strengths_and_weaknesses.
  rewrite (len_nonempty df Hdf), classify_all_eq. cbv zeta.
  eexists. split; [reflexivity|].
  cbn [Profile.strengths Profile.weaknesses Metrics.goals Metrics.assists
       Metrics.saves Metrics.shooting_pct].
  destruct (flt (of_decimal 15 1) (mean_int (col_goals df))),
           (flt (mean_int (col_goals df)) (of_decimal 8 1)),
           (flt (of_decimal 12 1) (mean_int (col_assists df))),
           (flt (mean_int (col_assists df)) (of_decimal 6 1)),
           (flt (of_decimal 15 1) (mean_int (col_saves df))),
           (flt (mean_int (col_saves df)) (of_decimal 8 1)),
           (flt (of_int 40) (mean_float (col_shooting_percentage df))),
           (flt (mean_float (col_shooting_percentage df)) (of_int 25));
    cbn [negb andb app or_default];
    (split; [intros label Hs Hw; simpl in Hs, Hw;
             repeat match goal with
                    | H : _ \/ _ |- _ => destruct H
                    | H : False |- _ => destruct H
                    end; subst; discriminate|]);
    (split; [discriminate|]); (split; [discriminate|]);
    (split; [first [left; reflexivity
                   | right; intros x Hx; simpl in Hx |- *; tauto]
            | first [left; reflexivity
                   | right; intros x Hx; simpl in Hx |- *; tauto]]).
Qed.

End AnalyticsTrendAndProfile.

(** * Properties of the callers *)

Section Callers.

Import RocketLeagueDB PlayerAnalytics.

Context {F : Type} `{Float64Ops F} `{SortValues F}.

Implicit Types (db : DB F) (df : DataFrame F).

Lemma sum_int_of_bits (col : list Z) :
  Forall (fun w => w = 0 \/ w = 1) col ->
  sum_int col = len (filter (fun w => w =? 1) col)
  /\ 0 <= sum_int col <= len col.
Proof.
  unfold len. induction 1 as [|w col Hw _ (IHsum & IHbound)].
  - split; [reflexivity | simpl; lia].
  - rewrite sum_int_cons. simpl List.length. rewrite Nat2Z.inj_succ.
    destruct Hw as [-> | ->]; simpl filter; simpl List.length;
      rewrite ?Nat2Z.inj_succ; lia.
Qed.

(** The rows that [get_player_stats] returns from a reachable store hold a
    stored [bool] in [won]. *)
Lemma get_player_stats_won_bits db (name : string) :
  reachable db ->
  Forall (fun m => match_history.won m = 0 \/ match_history.won m = 1)
         (get_player_stats db name).
Proof.
  intros Hreach. pose proof (reachable_well_formed_aux db Hreach) as Hwf.
  rewrite (get_player_stats_rows db name (wf_names _ Hwf)).
  rewrite Forall_forall. intros m Hm.
  apply (Permutation_in _ (sort_by_perm date_desc _)) in Hm.
  pose proof (wf_won _ Hwf) as Hwon. rewrite Forall_forall in Hwon.
  apply Hwon. unfold rows_of_name, rows_of_player in Hm.
  destruct (select_player_id db name); [|destruct Hm].
  now apply filter_In in Hm.
Qed.

(** X22. On the frame that [get_player_stats] returns for a player of a
    reachable store, when it is not empty, the [wins] of
    [get_summary_stats] are the number of rows whose [won] is 1, and lie
    between 0 and [total_games]. *)
Theorem wins_of_a_stored_frame db (name : string) :
  reachable db ->
  get_player_stats db name <> [] ->
  exists summary,
    get_summary_stats (get_player_stats db name) = Some summary
    /\ SummaryStats.wins summary
       = len (filter (fun m => match_history.won m =? 1)
                     (get_player_stats db name))
    /\ 0 <= SummaryStats.wins summary <= SummaryStats.total_games summary.
Proof.
  intros Hreach Hdf.
  pose proof (get_player_stats_won_bits db name Hreach) as Hbits.
  unfold get_summary_stats. rewrite (len_nonempty _ Hdf).
  eexists. split; [reflexivity|]. simpl.
  set (df := get_player_stats db name) in *.
  assert (Hcol : Forall (fun w => w = 0 \/ w = 1) (col_won df))
    by (unfold col_won; rewrite Forall_map; exact Hbits).
  destruct (sum_int_of_bits _ Hcol) as (Hsum & Hbound).
  split.
  - rewrite Hsum. unfold col_won, len.
    clear. induction df as [|m df IH]; [reflexivity|]. simpl.
    destruct (match_history.won m =? 1); simpl List.length;
      rewrite ?Nat2Z.inj_succ; lia.
  - unfold col_won, len in Hbound. rewrite length_map in Hbound.
    unfold len. exact Hbound.
Qed.

(** X23. The guard [len(stats_df) >= 20] that [app.py] puts before
    [compare_performance(first_n=10, last_n=10)] changes nothing: the
    dashboard's comparison is what the call alone returns, empty exactly on
    frames of fewer than 20 rows. *)
Theorem dashboard_comparison_guard_is_redundant df :
  App.comparison df = compare_performance df 10 10
  /\ (App.comparison df = Returns None <-> len df < 20).
Proof.
  assert (Heq : App.comparison df = compare_performance df 10 10).
  { unfold App.comparison. rewrite Z.geb_leb.
    destruct (Z.leb_spec 20 (len df)) as [Hge|Hlt]; [reflexivity|].
    unfold compare_performance.
    destruct (Z.ltb_spec (len df) (10 + 10)); [reflexivity | lia]. }
  split; [exact Heq|]. rewrite Heq. unfold compare_performance.
  destruct (Z.ltb_spec (len df) (10 + 10)) as [Hlt|Hge]; [split; [lia | reflexivity]|].
  assert (Hdf : df <> []).
  { intros ->. change (len ([] : DataFrame F)) with 0 in Hge. lia. }
  rewrite (dtype_of_nonempty df Hdf). cbn [calc_stats].
  split; [discriminate | lia].
Qed.

(** A player that [add_player] has just entered into a reachable store has
    no row in [match_history]. *)
Lemma new_player_has_no_rows db (name : string) (now : Z) :
  reachable db ->
  player_exists db name = false ->
  get_player_stats (insert_or_ignore_player db name now) name = [].
Proof.
  intros Hreach Hunknown.
  pose proof (reachable_well_formed_aux db Hreach) as Hwf.
  pose proof (well_formed_insert_player db name now Hwf) as HwfA.
  assert (Hlen : len (get_player_stats (insert_or_ignore_player db name now)
                                       name) = 0).
  { rewrite (len_get_player_stats _ name (wf_names _ HwfA)).
    rewrite player_exists_taken in Hunknown.
    unfold select_player_id, insert_or_ignore_player; simpl.
    rewrite Hunknown. unfold player_name_taken in Hunknown.
    rewrite (find_app_first_none _ _ _ (existsb_false_find _ _ Hunknown)).
    simpl. rewrite String.eqb_refl. simpl.
    rewrite (count_matches_ext _ db) by reflexivity.
    apply count_matches_unused_id; [exact Hwf | lia]. }
  unfold len in Hlen.
  destruct (get_player_stats _ name); [reflexivity | simpl in Hlen; lia].
Qed.

Lemma read_player_found_something db (name : string) :
  App.read_player db name <> App.NoReplaysFound.
Proof.
  unfold App.read_player.
  destruct (len (get_player_stats db name) =? 0); discriminate.
Qed.

(** X24. The loading block of [app.py] asks the service only about a
    player that the store does not know, and the store knows a player from
    the moment [add_match_history] was called for it, even if the call
    raised.  So on a reachable store that does not know the player: the
    block ends with "No replays found" exactly when the fetch found
    nothing, and then the store is untouched; once the fetch has found
    something the player is in the store, and every later load reads the
    store without fetching; and when a record of the fetched history does
    not bind, the block ends in its [except] branch with the
    [OverflowError], the player is in the store without a row, and every
    later load ends with "No data found". *)
Theorem load_after_a_fetch_reads_the_store db (api : BallchasingAPI.Service)
    (name : string) (num_games now_add now_upd : Z)
    (db' : DB F) (outcome : App.analysis) :
  reachable db ->
  player_exists db name = false ->
  App.load_player db api name num_games now_add now_upd = (db', outcome) ->
  let history :=
    BallchasingAPI.get_player_match_history api name num_games in
  (outcome = App.NoReplaysFound <-> history = [])
  /\ (history = [] -> db' = db)
  /\ (history <> [] ->
      player_exists db' name = true
      /\ forall api' num_games' now_add' now_upd',
           App.load_player db' api' name num_games' now_add' now_upd'
           = (db', App.read_player db' name))
  /\ (history <> [] -> batch_binds history = false ->
      outcome = App.Error OverflowError
      /\ get_player_stats db' name = []
      /\ forall api' num_games' now_add' now_upd',
           App.load_player db' api' name num_games' now_add' now_upd'
           = (db', App.NoDataFound)).
Proof.
  intros Hreach Hunknown Hload. cbv zeta.
  unfold App.load_player in Hload. rewrite Hunknown in Hload.
  cbn [negb] in Hload.
  destruct (BallchasingAPI.get_player_match_history api name num_games)
    as [|stats rest] eqn:Hhistory.
  - injection Hload as <- <-.
    split; [tauto|]. split; [reflexivity|]. split; congruence.
  - destruct (add_match_history db name (stats :: rest) now_add now_upd)
      as [db1 ended] eqn:Hcall.
    assert (Hknown : player_exists db1 name = true).
    { destruct (add_match_history_keys _ _ _ _ _ _ _ Hcall)
        as (pid & _ & Hkeys & _).
      rewrite player_exists_taken, (player_name_taken_keys _ _ _ Hkeys).
      apply player_name_taken_after_insert. }
    assert (Hlater : forall api' num_games' now_add' now_upd',
               App.load_player db1 api' name num_games' now_add' now_upd'
               = (db1, App.read_player db1 name)).
    { intros. unfold App.load_player. now rewrite Hknown. }
    assert (Hdb' : db' = db1) by (destruct ended; now injection Hload).
    subst db'.
    split; [|split; [discriminate|split; [auto|]]].
    + split; [|discriminate].
      destruct ended; injection Hload as <-; [|discriminate].
      intros Hnone. now apply read_player_found_something in Hnone.
    + intros _ Hbinds.
      destruct (add_match_history_spec db name (stats :: rest) now_add now_upd)
        as (pid & added & _ & Hcall' & _).
      rewrite Hcall', Hbinds in Hcall. injection Hcall as <- <-.
      injection Hload as <-.
      pose proof (new_player_has_no_rows db name now_add Hreach Hunknown)
        as Hrows.
      split; [reflexivity|]. split; [exact Hrows|].
      intros. rewrite Hlater. unfold App.read_player. now rewrite Hrows.
Qed.

Lemma tip_length (value lo hi : F) (low_tip high_tip : string)
    (tips : list string) :
  (List.length (AICoach.tip value lo hi low_tip high_tip tips)
   <= S (List.length tips))%nat.
Proof.
  unfold AICoach.tip.
  destruct (flt value lo); [rewrite length_app; simpl; lia|].
  destruct (flt hi value); [rewrite length_app; simpl; lia | lia].
Qed.

(** X25. [generate_quick_tips] builds at most five tips, one at most for
    each of goals, assists, saves, shooting accuracy and win rate, so its
    final [tips[:5]] never drops a tip. *)
Theorem quick_tips_are_never_truncated
    (summary_stats : option (SummaryStats.t F)) :
  AICoach.generate_quick_tips summary_stats
  = AICoach.all_quick_tips summary_stats
  /\ (List.length (AICoach.generate_quick_tips summary_stats) <= 5)%nat.
Proof.
  assert (Hlen : (List.length (AICoach.all_quick_tips summary_stats) <= 5)%nat).
  { unfold AICoach.all_quick_tips. cbv zeta.
    repeat (etransitivity; [apply tip_length|]; apply le_n_S).
    simpl. lia. }
  assert (Heq : AICoach.generate_quick_tips summary_stats
                = AICoach.all_quick_tips summary_stats).
  { unfold AICoach.generate_quick_tips.
    generalize dependent (AICoach.all_quick_tips summary_stats).
    intros tips Htips. unfold slice, slice_bound.
    change (5 <? 0) with false. cbv iota. rewrite Nat.sub_0_r.
    apply firstn_all2. change (Z.to_nat 5) with 5%nat. lia. }
  split; [exact Heq|]. now rewrite Heq.
Qed.

End Callers.

(** * The further properties at the fixtures *)

Lemma stored_squishy_reachable : reachable Fixtures.stored_squishy.
Proof.
  apply (reachable_add_match_history Fixtures.fresh_db "Squishy"
           (Fixtures.history_of Fixtures.replay_shared "Squishy") 1 2
           Fixtures.stored_squishy (Returns 1)).
  - apply reachable_create_tables.
  - vm_compute. reflexivity.
Defined.

Lemma extracted_record_identity_witness :
  let stats := BallchasingAPI.extract Fixtures.replay_3_1 "blue"
                 (Fixtures.player_named "Foo") in
  BallchasingAPI.replay_id stats = Some "r-3-1"
  /\ BallchasingAPI.date stats = Some "2026-02-10T18:00:00Z"
  /\ BallchasingAPI.duration stats = Some 300
  /\ BallchasingAPI.playlist stats = Some "Ranked Doubles"
  /\ (BallchasingAPI.team stats = "blue" \/ BallchasingAPI.team stats = "orange")
  /\ lower (dict_get (BallchasingAPI.player_name stats) "") = lower "FOO".
Proof.
  apply (extracted_record_identity Fixtures.replay_3_1 "FOO"). reflexivity.
Defined.

Lemma one_winner_per_replay_witness :
  let stats1 := BallchasingAPI.extract Fixtures.replay_3_1 "blue"
                  (Fixtures.player_named "Foo") in
  let stats2 := BallchasingAPI.extract Fixtures.replay_3_1 "orange"
                  (Fixtures.player_named "Bar") in
  (BallchasingAPI.won stats1 && BallchasingAPI.won stats2)%bool = false
  /\ BallchasingAPI.won stats1 = negb (BallchasingAPI.won stats2).
Proof.
  destruct (one_winner_per_replay Fixtures.replay_3_1 "foo" "bar"
              (BallchasingAPI.extract Fixtures.replay_3_1 "blue"
                 (Fixtures.player_named "Foo"))
              (BallchasingAPI.extract Fixtures.replay_3_1 "orange"
                 (Fixtures.player_named "Bar"))
              eq_refl eq_refl) as (_ & Hopposite).
  destruct Hopposite as (Hnot_both & Hone); [discriminate|].
  split; [exact Hnot_both|]. apply Hone. vm_compute. discriminate.
Defined.

Lemma extraction_up_to_case_witness :
  BallchasingAPI.get_player_stats_from_replay Fixtures.replay_3_1 "fOO"
  = BallchasingAPI.get_player_stats_from_replay Fixtures.replay_3_1 "Foo".
Proof.
  apply (proj1 (extraction_up_to_case Fixtures.replay_3_1 "fOO" "Foo")).
  reflexivity.
Defined.

Lemma match_history_is_of_the_player_witness :
  let stats := BallchasingAPI.extract Fixtures.replay_2_2 "blue"
                 (Fixtures.player_named "Foo") in
  lower (dict_get (BallchasingAPI.player_name stats) "") = lower "FOO"
  /\ (BallchasingAPI.team stats = "blue" \/ BallchasingAPI.team stats = "orange")
  /\ exists replay detailed,
       In replay (BallchasingAPI.search_replays Fixtures.service "FOO" 10)
       /\ BallchasingAPI.get_replay_details Fixtures.service
            (BallchasingAPI.rs_id replay) = Some detailed
       /\ BallchasingAPI.replay_id stats = BallchasingAPI.rp_id detailed.
Proof.
  apply (match_history_is_of_the_player Fixtures.service "FOO" 10).
  vm_compute. right. left. reflexivity.
Defined.

(** With that service the history of "FOO" has the records of the first
    and of the third replay: the second, whose details are not delivered,
    costs nothing else. *)
Example match_history_on_fixture :
  map (fun stats => BallchasingAPI.replay_id stats)
      (BallchasingAPI.get_player_match_history Fixtures.service "FOO" 10)
  = [Some "r-3-1"; Some "r-2-2"].
Proof. vm_compute. reflexivity. Qed.

Lemma match_history_of_failed_or_capped_search_witness :
  BallchasingAPI.get_player_match_history Fixtures.service "Nobody" 10 = []
  /\ BallchasingAPI.get_player_match_history Fixtures.service "Foo" 500
     = BallchasingAPI.get_player_match_history Fixtures.service "Foo" 200.
Proof.
  split.
  - apply (proj1 (match_history_of_failed_or_capped_search
                    Fixtures.service "Nobody" 10)).
    left. reflexivity.
  - apply (proj2 (match_history_of_failed_or_capped_search
                    Fixtures.service "Foo" 500)).
    lia.
Defined.

(** The ingestion of the three records of "Max" into the store that holds
    Squishy's game raises at the second record.  The row of "Max" is in
    [players] with no game, the row that the first record had inserted is
    gone, and of the two counters only the one of [players] has moved. *)
Example raising_ingest_on_fixture :
  let history :=
    BallchasingAPI.get_player_match_history Fixtures.service_of_max "Max" 10 in
  let '(db', outcome) :=
    RocketLeagueDB.add_match_history Fixtures.stored_squishy "Max" history
      3 4 in
  List.length history = 3%nat
  /\ outcome = Raises OverflowError
  /\ map player_key (RocketLeagueDB.tbl_players db')
     = [(1, "Squishy"); (2, "Max")]
  /\ RocketLeagueDB.stored_total_games db' "Max" = Some 0
  /\ RocketLeagueDB.tbl_match_history db'
     = RocketLeagueDB.tbl_match_history Fixtures.stored_squishy
  /\ RocketLeagueDB.seq_players db' = 2
  /\ RocketLeagueDB.seq_match_history db'
     = RocketLeagueDB.seq_match_history Fixtures.stored_squishy.
Proof. vm_compute. repeat split. Qed.

Lemma reachable_well_formed_witness : well_formed Fixtures.stored_squishy.
Proof.
  apply (reachable_well_formed Fixtures.stored_squishy).
  exact stored_squishy_reachable.
Defined.

Lemma get_player_stats_is_the_players_rows_witness :
  Permutation (RocketLeagueDB.get_player_stats Fixtures.stored_squishy "Squishy")
              (rows_of_name Fixtures.stored_squishy "Squishy")
  /\ Sorted date_ge
       (RocketLeagueDB.get_player_stats Fixtures.stored_squishy "Squishy")
  /\ (RocketLeagueDB.player_exists Fixtures.stored_squishy "Squishy" = false ->
      RocketLeagueDB.get_player_stats Fixtures.stored_squishy "Squishy" = []).
Proof.
  apply (get_player_stats_is_the_players_rows Fixtures.stored_squishy
           "Squishy").
  exact stored_squishy_reachable.
Defined.

Lemma total_games_counts_the_players_rows_witness :
  let db' :=
    fst (RocketLeagueDB.add_match_history Fixtures.stored_squishy "justin."
           (Fixtures.history_of Fixtures.replay_2_2 "foo") 3 4) in
  RocketLeagueDB.stored_total_games db' "justin."
  = Some (len (RocketLeagueDB.get_player_stats db' "justin.")).
Proof.
  intros db'.
  apply (total_games_counts_the_players_rows Fixtures.stored_squishy
           "justin." (Fixtures.history_of Fixtures.replay_2_2 "foo") 3 4
           db' 1).
  - exact stored_squishy_reachable.
  - vm_compute. reflexivity.
Defined.

Lemma ingest_leaves_other_players_alone_witness :
  let db' :=
    fst (RocketLeagueDB.add_match_history Fixtures.stored_squishy "justin."
           (Fixtures.history_of Fixtures.replay_2_2 "foo") 3 4) in
  RocketLeagueDB.get_player_stats db' "Squishy"
  = RocketLeagueDB.get_player_stats Fixtures.stored_squishy "Squishy"
  /\ RocketLeagueDB.stored_total_games db' "Squishy"
     = RocketLeagueDB.stored_total_games Fixtures.stored_squishy "Squishy".
Proof.
  intros db'.
  apply (ingest_leaves_other_players_alone Fixtures.stored_squishy
           "justin." "Squishy"
           (Fixtures.history_of Fixtures.replay_2_2 "foo") 3 4
           db' (Returns 1)).
  - exact stored_squishy_reachable.
  - discriminate.
  - vm_compute. reflexivity.
Defined.

Lemma fresh_batch_is_stored_whole_witness :
  let db' :=
    fst (RocketLeagueDB.add_match_history Fixtures.stored_squishy "Squishy"
           (Fixtures.history_of Fixtures.replay_2_2 "foo") 3 4) in
  1 = len (Fixtures.history_of Fixtures.replay_2_2 "foo")
  /\ len (RocketLeagueDB.get_player_stats db' "Squishy")
     = len (RocketLeagueDB.get_player_stats Fixtures.stored_squishy "Squishy")
       + 1.
Proof.
  intros db'.
  apply (fresh_batch_is_stored_whole Fixtures.stored_squishy "Squishy"
           (Fixtures.history_of Fixtures.replay_2_2 "foo") 3 4 db' 1).
  - exact stored_squishy_reachable.
  - vm_compute. repeat constructor. intros [].
  - vm_compute. intros r [<- | []] [Heq | []]. discriminate.
  - vm_compute. reflexivity.
Defined.

Lemma recent_form_of_short_frame_witness :
  exists form summary,
    PlayerAnalytics.get_recent_form Fixtures.frame_on_thresholds 10 = Some form
    /\ PlayerAnalytics.get_summary_stats Fixtures.frame_on_thresholds
       = Some summary
    /\ PlayerAnalytics.RecentForm.games form = 5
    /\ PlayerAnalytics.RecentForm.avg_goals form
       = PlayerAnalytics.SummaryStats.avg_goals summary.
Proof.
  destruct (recent_form_of_short_frame Fixtures.frame_on_thresholds 10)
    as (form & summary & Hform & Hsummary & Hgames & Hshort).
  - discriminate.
  - lia.
  - exists form, summary. split; [exact Hform|]. split; [exact Hsummary|].
    split; [rewrite Hgames; reflexivity|].
    apply Hshort. vm_compute. discriminate.
Defined.

Lemma comparison_windows_do_not_overlap_witness :
  exists early_games between recent_games,
    PlayerAnalytics.sort_values_date Fixtures.frame_on_thresholds
    = (early_games ++ between ++ recent_games)%list
    /\ len early_games = 2
    /\ len recent_games = 2.
Proof.
  destruct (PlayerAnalytics.compare_performance
              Fixtures.frame_on_thresholds 2 2)
    as [[comparison|]|error] eqn:Hresult;
    [|vm_compute in Hresult; discriminate
     |vm_compute in Hresult; discriminate].
  destruct (comparison_windows_do_not_overlap
              Fixtures.frame_on_thresholds 2 2 comparison)
    as (early & between & recent & Hsplit & Hearly & Hrecent & _);
    [lia | lia | exact Hresult |].
  exists early, between, recent. auto.
Defined.

Lemma summary_best_is_attained_maximum_witness :
  exists summary,
    PlayerAnalytics.get_summary_stats Fixtures.frame_on_thresholds
    = Some summary
    /\ exists m, In m Fixtures.frame_on_thresholds
                 /\ RocketLeagueDB.match_history.goals m
                    = PlayerAnalytics.SummaryStats.best_goals summary.
Proof.
  destruct (summary_best_is_attained_maximum Fixtures.frame_on_thresholds)
    as (summary & Hsummary & _ & Hgoals & _).
  - discriminate.
  - exists summary. auto.
Defined.

Lemma strengths_and_weaknesses_are_exclusive_witness :
  exists profile,
    PlayerAnalytics.get_strengths_and_weaknesses Fixtures.frame_on_thresholds
    = Some profile
    /\ PlayerAnalytics.Profile.strengths profile <> []
    /\ PlayerAnalytics.Profile.weaknesses profile <> [].
Proof.
  destruct (strengths_and_weaknesses_are_exclusive
              Fixtures.frame_on_thresholds)
    as (profile & Hprofile & _ & Hs & Hw & _).
  - discriminate.
  - exists profile. auto.
Defined.

Lemma wins_of_a_stored_frame_witness :
  exists summary,
    PlayerAnalytics.get_summary_stats
      (RocketLeagueDB.get_player_stats Fixtures.stored_squishy "Squishy")
    = Some summary
    /\ 0 <= PlayerAnalytics.SummaryStats.wins summary
         <= PlayerAnalytics.SummaryStats.total_games summary.
Proof.
  destruct (wins_of_a_stored_frame (H:=binary64) Fixtures.stored_squishy
              "Squishy")
    as (summary & Hsummary & _ & Hbound).
  - exact stored_squishy_reachable.
  - vm_compute. discriminate.
  - exists summary. auto.
Defined.

Lemma load_after_a_fetch_reads_the_store_witness :
  let loaded :=
    App.load_player Fixtures.fresh_db Fixtures.service_of_max "Max" 10 1 2 in
  snd loaded = App.Error OverflowError
  /\ RocketLeagueDB.get_player_stats (fst loaded) "Max" = []
  /\ forall api' num_games' now_add' now_upd',
       App.load_player (fst loaded) api' "Max" num_games' now_add' now_upd'
       = (fst loaded, App.NoDataFound).
Proof.
  intros loaded.
  destruct (load_after_a_fetch_reads_the_store Fixtures.fresh_db
              Fixtures.service_of_max "Max" 10 1 2 (fst loaded) (snd loaded))
    as (_ & _ & _ & Hfinal).
  - apply reachable_create_tables.
  - reflexivity.
  - apply surjective_pairing.
  - apply Hfinal.
    + vm_compute. discriminate.
    + vm_compute. reflexivity.
Defined.
